(** * Device pairing approval and credential sync of openclaw-docker

    A shallow embedding of the TypeScript sources
    - [scripts/lib/device-pairing.ts] (validation, role and scope merging,
      [approvePairing]),
    - [scripts/bootstrap/auto-approve-self-pairing.ts] (the self-approval
      daemon, in its library-based and in its self-contained variant),
    - [scripts/bootstrap/watch-codex-auth.ts] (the credential sync cycle),
    together with the properties the specification states about them.

    Conventions of the embedding:
    - a JavaScript string is a Rocq [string], each character standing for one
      code unit below 256;
    - a JSON number is an integer [Z] (timestamps in milliseconds, versions);
    - [Date.now()] and [newToken()] are read from the environment: every
      function that calls them takes the value read as an argument;
    - an object used as a dictionary ([Record<string, T>]) is the
      [gmap string T] of its own properties; a property that is [undefined]
      or missing is [None]. Where the code reads [obj[key]] with a key that
      comes from outside, the lookup goes through [Js.get], which also finds
      the members that every such object inherits from [Object.prototype];
    - a value whose type the code inspects at run time ([typeof],
      [Array.isArray], [String(...)], [??], truthiness) is an [unknown];
    - a thrown [Error] is the left injection of a sum. *)

From Stdlib Require Import ZArith Ascii String List Bool DecimalString.
From stdpp Require Import base option list gmap strings sorting.

Local Open Scope Z_scope.

(** * Part I: the embedding *)

(** ** JavaScript strings *)

Module JsString.

(** Code units below 256 that [String.prototype.trim] strips: TAB, LF, VT,
    FF, CR, SPACE and NBSP. *)
Definition is_white_space (c : ascii) : bool :=
  match N_of_ascii c with
  | 9%N | 10%N | 11%N | 12%N | 13%N | 32%N | 160%N => true
  | _ => false
  end.

Fixpoint trimStart_units (l : list ascii) : list ascii :=
  match l with
  | c :: l' => if is_white_space c then trimStart_units l' else l
  | [] => []
  end.

Definition trimEnd_units (l : list ascii) : list ascii :=
  rev (trimStart_units (rev l)).

(** [s.trim()] *)
Definition trim (s : string) : string :=
  string_of_list_ascii (trimEnd_units (trimStart_units (list_ascii_of_string s))).

(** Truthiness of a string: [""] is the only falsy one. *)
Definition truthy (s : string) : bool :=
  match s with EmptyString => false | String _ _ => true end.

(** The order of [Array.prototype.sort()] without a comparator on strings:
    lexicographic on code units. *)
Definition le (s1 s2 : string) : Prop := String.leb s1 s2 = true.
Definition lt (s1 s2 : string) : Prop := String.ltb s1 s2 = true.

Global Instance le_dec : RelDecision le.
Proof. intros s1 s2. unfold le. apply _. Defined.

End JsString.

(** ** Values of unknown type

    The scalars that [JSON.parse] can put where the code expects a string or
    a number. [UNum n] is the number whose shortest decimal form, the one
    that [String] prints, is that of the integer [n]. *)

Inductive unknown : Type :=
| UNull
| UBool (b : bool)
| UNum (n : Z)
| UStr (s : string).

Global Instance unknown_eq_dec : EqDecision unknown.
Proof. solve_decision. Defined.

Module Js.

(** [typeof v === "string"] together with the string itself. *)
Definition asString (v : option unknown) : option string :=
  match v with Some (UStr s) => Some s | _ => None end.

(** [typeof v === "number"] together with the number itself. *)
Definition asNumber (v : option unknown) : option Z :=
  match v with Some (UNum n) => Some n | _ => None end.

(** Truthiness of a property value; [None] is [undefined]. *)
Definition truthy (v : option unknown) : bool :=
  match v with
  | None | Some UNull => false
  | Some (UBool b) => b
  | Some (UNum n) => negb (n =? 0)
  | Some (UStr s) => JsString.truthy s
  end.

Fixpoint drop_zeros (digits : list ascii) : list ascii :=
  match digits with
  | c :: digits' => if Ascii.eqb c "0" then drop_zeros digits' else digits
  | [] => []
  end.

(** The exponent form of a number given by its decimal digits: the first
    digit, the following ones up to the last that is not zero after a dot,
    and the decimal exponent. *)
Definition exponential (digits : string) : string :=
  let units := list_ascii_of_string digits in
  let exponent :=
    NilZero.string_of_int (Z.to_int (Z.of_nat (length units) - 1)) in
  match rev (drop_zeros (rev units)) with
  | [] => "0"
  | [c] => String c ("e+" +:+ exponent)
  | c :: fraction =>
      String c ("." +:+ string_of_list_ascii fraction +:+ "e+" +:+ exponent)
  end.

(** [String(n)] on an integer: plain decimal digits below [10^21] in
    magnitude, exponent form (["1e+21"], ["-1.5e+22"]) from there on. *)
Definition numberToString (n : Z) : string :=
  if Z.abs n <? 10 ^ 21 then NilZero.string_of_int (Z.to_int n)
  else (if n <? 0 then "-" else "")
       +:+ exponential (NilZero.string_of_int (Z.to_int (Z.abs n))).

(** [String(v)] *)
Definition toString (v : unknown) : string :=
  match v with
  | UNull => "null"
  | UBool true => "true"
  | UBool false => "false"
  | UNum n => numberToString n
  | UStr s => s
  end.

(** [v ?? d] *)
Definition nullish (v : option unknown) (d : unknown) : unknown :=
  match v with
  | None | Some UNull => d
  | Some x => x
  end.

(** [a === b] on property values. *)
Definition strictEq (a b : option unknown) : bool := bool_decide (a = b).

(** *** Property access on a dictionary object

    The objects that [JSON.parse], an object literal or a spread create have
    [Object.prototype] as their prototype. [obj[key]] finds the own property
    [key] if there is one, and otherwise the member of [Object.prototype] of
    that name. *)

(** The property names of [Object.prototype]. *)
Definition objectPrototype : list string :=
  ["constructor"; "__defineGetter__"; "__defineSetter__"; "hasOwnProperty";
   "__lookupGetter__"; "__lookupSetter__"; "isPrototypeOf";
   "propertyIsEnumerable"; "toString"; "valueOf"; "__proto__";
   "toLocaleString"].

Definition inherited (key : string) : bool :=
  bool_decide (key ∈ objectPrototype).

(** What [obj[key]] evaluates to: an own value; an inherited member, which is
    a function, or for [__proto__] the prototype itself; or [undefined]. *)
Inductive Property (A : Type) : Type :=
| Own (v : A)
| Inherited
| Missing.
Global Arguments Own {A} v.
Global Arguments Inherited {A}.
Global Arguments Missing {A}.

(** [obj[key]] *)
Definition get {A} (obj : gmap string A) (key : string) : Property A :=
  match obj !! key with
  | Some v => Own v
  | None => if inherited key then Inherited else Missing
  end.

(** Truthiness of [obj[key]] where the own values are objects: the inherited
    members are truthy too. *)
Definition found {A} (p : Property A) : bool :=
  match p with
  | Own _ | Inherited => true
  | Missing => false
  end.

(** The value of [obj[key]] as a record of type [A], for the code that only
    reads properties of it ([existing?.tokens], [existingToken?.createdAtMs],
    ...): an inherited member has none of them, so each such read gives
    [undefined], as on a missing entry. *)
Definition own {A} (p : Property A) : option A :=
  match p with
  | Own v => Some v
  | Inherited | Missing => None
  end.

(** The own properties of [obj] after the assignment [obj[key] = v], [v] an
    object. The assignment sets an own property, except for the key
    [__proto__] when [obj] has no own property of that name: then the setter
    inherited from [Object.prototype] runs, which replaces the prototype of
    [obj] and adds no property. *)
Definition assign {A} (obj : gmap string A) (key : string) (v : A)
  : gmap string A :=
  match obj !! key with
  | Some _ => <[key := v]> obj
  | None => if bool_decide (key = "__proto__") then obj else <[key := v]> obj
  end.

End Js.

(** ** [scripts/lib/device-pairing.ts] *)

Module DevicePairing.

(** *** Types *)

Module PendingRequest.
Record t : Type := {
  requestId : string;
  deviceId : option unknown;
  publicKey : option string;
  displayName : option string;
  platform : option string;
  clientId : option string;
  clientMode : option string;
  role : option unknown;
  roles : option (list unknown);
  scopes : option (list unknown);
  remoteIp : option string;
  silent : option bool;
  isRepair : option bool;
  ts : Z
}.
End PendingRequest.

Module DeviceToken.
Record t : Type := {
  token : string;
  role : string;
  scopes : list string;
  createdAtMs : option Z;
  rotatedAtMs : option Z;
  revokedAtMs : option Z;
  lastUsedAtMs : option Z
}.
End DeviceToken.

Module PairedDevice.
Record t : Type := {
  deviceId : string;
  publicKey : option string;
  displayName : option string;
  platform : option string;
  clientId : option string;
  clientMode : option string;
  role : option unknown;
  roles : option (list unknown);
  scopes : option (list unknown);
  remoteIp : option string;
  tokens : option (gmap string DeviceToken.t);
  createdAtMs : option Z;
  approvedAtMs : Z
}.
End PairedDevice.

Record ApprovalResult : Type := {
  deviceId : string;
  updatedPendingById : gmap string PendingRequest.t;
  updatedPairedByDeviceId : gmap string PairedDevice.t
}.

(** The four [throw new Error(...)] of [approvePairing]. *)
Inductive ApprovalError : Type :=
| RequestNotFound (requestId : string)
| MissingDeviceId (requestId : string)
| InvalidDeviceIdFormat (requestId : string)
| InvalidRoleFormat (requestId : string).

Definition message (e : ApprovalError) : string :=
  match e with
  | RequestNotFound r => "requestId not found in pending: " +:+ r
  | MissingDeviceId r => "pending request missing deviceId (requestId=" +:+ r +:+ ")"
  | InvalidDeviceIdFormat r => "invalid deviceId format (requestId=" +:+ r +:+ ")"
  | InvalidRoleFormat r => "invalid role format (requestId=" +:+ r +:+ ")"
  end.

(** The specification's names for these failures. *)
Inductive ErrorKind : Type := NotFound | InvalidRequest.

Definition kind (e : ApprovalError) : ErrorKind :=
  match e with
  | RequestNotFound _ => NotFound
  | MissingDeviceId _ | InvalidDeviceIdFormat _ | InvalidRoleFormat _ => InvalidRequest
  end.

(** *** Validation *)

(** The character class of [SAFE_ID_RE = /^[a-zA-Z0-9_\-:.]+$/]. *)
Definition is_safe_id_char (c : ascii) : bool :=
  let n := N_of_ascii c in
  ((97 <=? n) && (n <=? 122) || (65 <=? n) && (n <=? 90)
   || (48 <=? n) && (n <=? 57)
   || (n =? 95) || (n =? 45) || (n =? 58) || (n =? 46))%N.

Definition isValidId (value : string) : bool :=
  match list_ascii_of_string value with
  | [] => false
  | l => forallb is_safe_id_char l
  end.

(** *** Pure helpers *)

(** [set.add(t)] on a [Set<string>], kept in insertion order. *)
Definition set_add (t : string) (set : list string) : list string :=
  if decide (t ∈ set) then set else set ++ [t].

(** The body of the [for] loop of [uniqSortedStrings]. *)
Definition add_trimmed (set : list string) (v : unknown) : list string :=
  match v with
  | UStr s =>
      let t := JsString.trim s in
      if JsString.truthy t then set_add t set else set
  | _ => set
  end.

(** [Array.from(set).sort()] is a merge sort here; the members of [set] are
    distinct, so every sorting algorithm returns the same list
    ([sorted_set_of_unique] below). *)
Definition uniqSortedStrings (items : list unknown) : list string :=
  let set := fold_left add_trimmed items [] in
  merge_sort JsString.le set.

(** [if (xs) merged.push(...xs)] *)
Definition push_spread (xs : option (list unknown)) (merged : list unknown)
  : list unknown :=
  match xs with
  | Some l => merged ++ l
  | None => merged
  end.

(** [if (x) merged.push(x)] *)
Definition push_truthy (x : option unknown) (merged : list unknown)
  : list unknown :=
  match x with
  | Some v => if Js.truthy x then merged ++ [v] else merged
  | None => merged
  end.

Definition mergeRoles (existing : option PairedDevice.t) (pending : PendingRequest.t)
  : option (list string) :=
  let merged := [] in
  let merged := push_spread (existing ≫= PairedDevice.roles) merged in
  let merged := push_truthy (existing ≫= PairedDevice.role) merged in
  let merged := push_spread (PendingRequest.roles pending) merged in
  let merged := push_truthy (PendingRequest.role pending) merged in
  let out := uniqSortedStrings merged in
  match out with
  | [] => None
  | _ => Some out
  end.

Definition mergeScopes (existing : option PairedDevice.t) (pending : PendingRequest.t)
  : list string :=
  let merged := [] in
  let merged := push_spread (existing ≫= PairedDevice.scopes) merged in
  let merged := push_spread (PendingRequest.scopes pending) merged in
  uniqSortedStrings merged.

(** [String(pending.deviceId ?? "").trim()] *)
Definition trimmedDeviceId (pending : PendingRequest.t) : string :=
  JsString.trim
    (Js.toString (Js.nullish (PendingRequest.deviceId pending) (UStr ""))).

(** [typeof pending.role === "string" ? pending.role.trim() : ""] *)
Definition roleForToken (pending : PendingRequest.t) : string :=
  match Js.asString (PendingRequest.role pending) with
  | Some s => JsString.trim s
  | None => ""
  end.

(** *** Core approval logic

    [now] is the value of [Date.now()] and [freshToken] that of [newToken()]
    (32 random bytes, base64url) when the approval runs. *)

Definition rotateToken (now : Z) (freshToken roleForToken : string)
  (pending : PendingRequest.t) (existingToken : Js.Property DeviceToken.t)
  : DeviceToken.t :=
  {| DeviceToken.token := freshToken;
     DeviceToken.role := roleForToken;
     DeviceToken.scopes :=
       uniqSortedStrings (default [] (PendingRequest.scopes pending));
     DeviceToken.createdAtMs :=
       Some (default now (Js.own existingToken ≫= DeviceToken.createdAtMs));
     DeviceToken.rotatedAtMs :=
       if Js.found existingToken then Some now else None;
     DeviceToken.revokedAtMs := None;
     DeviceToken.lastUsedAtMs :=
       Js.own existingToken ≫= DeviceToken.lastUsedAtMs |}.

(** [const tokens = roleForToken ? { ...existingTokens, [roleForToken]: ... }
    : existingTokens], with [existingTokens] a copy of the existing device's
    token map, or the empty object. The computed key of the object literal
    defines an own property whatever its name. *)
Definition approvedTokens (now : Z) (freshToken : string)
  (pending : PendingRequest.t) (existing : option PairedDevice.t)
  : gmap string DeviceToken.t :=
  let roleForToken := roleForToken pending in
  let existingTokens : gmap string DeviceToken.t :=
    default ∅ (existing ≫= PairedDevice.tokens) in
  if JsString.truthy roleForToken
  then <[roleForToken :=
           rotateToken now freshToken roleForToken pending
             (Js.get existingTokens roleForToken)]> existingTokens
  else existingTokens.

(** [const device: PairedDevice = { ... }] *)
Definition approvedDevice (now : Z) (freshToken deviceId : string)
  (pending : PendingRequest.t) (existing : option PairedDevice.t)
  : PairedDevice.t :=
  {| PairedDevice.deviceId := deviceId;
     PairedDevice.publicKey := PendingRequest.publicKey pending;
     PairedDevice.displayName := PendingRequest.displayName pending;
     PairedDevice.platform := PendingRequest.platform pending;
     PairedDevice.clientId := PendingRequest.clientId pending;
     PairedDevice.clientMode := PendingRequest.clientMode pending;
     PairedDevice.role := PendingRequest.role pending;
     PairedDevice.roles :=
       (fun out : list string => UStr <$> out) <$> mergeRoles existing pending;
     PairedDevice.scopes := Some (UStr <$> mergeScopes existing pending);
     PairedDevice.remoteIp := PendingRequest.remoteIp pending;
     PairedDevice.tokens := Some (approvedTokens now freshToken pending existing);
     PairedDevice.createdAtMs :=
       Some (default now (existing ≫= PairedDevice.createdAtMs));
     PairedDevice.approvedAtMs := now |}.

Definition approvePairing (now : Z) (freshToken : string)
  (pendingById : gmap string PendingRequest.t)
  (pairedByDeviceId : gmap string PairedDevice.t)
  (requestId : string) : ApprovalError + ApprovalResult :=
  match Js.get pendingById requestId with
  | Js.Missing => inl (RequestNotFound requestId)
  | Js.Inherited =>
    (* [pending] is a member of [Object.prototype]: truthy, and its
       [deviceId] is [undefined], so that [deviceId] is the empty string *)
    inl (MissingDeviceId requestId)
  | Js.Own pending =>
    let deviceId := trimmedDeviceId pending in
    if negb (JsString.truthy deviceId) then inl (MissingDeviceId requestId)
    else if negb (isValidId deviceId) then inl (InvalidDeviceIdFormat requestId)
    else
      let existing : option PairedDevice.t :=
        Js.own (Js.get pairedByDeviceId deviceId) in
      let roleForToken := roleForToken pending in
      if JsString.truthy roleForToken && negb (isValidId roleForToken)
      then inl (InvalidRoleFormat requestId)
      else
        let device := approvedDevice now freshToken deviceId pending existing in
        inr {| deviceId := deviceId;
               updatedPendingById := delete requestId pendingById;
               updatedPairedByDeviceId := <[deviceId := device]> pairedByDeviceId |}
  end.

End DevicePairing.

(** ** [scripts/bootstrap/auto-approve-self-pairing.ts]

    What the daemon reads from its surroundings is given to the model as
    data: the environment once, and one [Poll] for every turn of the loop. *)

Module SelfPairing.
Import DevicePairing.

Record Environment : Type := {
  (** [process.env.OPENCLAW_STATE_DIR] *)
  OPENCLAW_STATE_DIR : option string;
  (** the [deviceId] property of [identity/device.json], if the file parses
      to an object that has one *)
  identityDeviceId : option unknown;
  (** [Date.now()] when [endAt] is computed *)
  startClock : Z
}.

Record Poll : Type := {
  (** [Date.now()] in the loop condition *)
  clock : Z;
  (** [readJsonFile(pairedPath, {})] *)
  pairedFile : gmap string PairedDevice.t;
  (** the entries of [readJsonFile(pendingPath, {})], in the order in which
      [Object.keys] enumerates them *)
  pendingFile : list (string * PendingRequest.t);
  (** [Date.now()] and [newToken()] during the approval *)
  approvalClock : Z;
  freshToken : string;
  (** whether [writeJsonAtomic] succeeds on each of the two files *)
  pendingWritable : bool;
  pairedWritable : bool
}.

Inductive Event : Type :=
| Sleep (ms : Z)
| WritePending (value : gmap string PendingRequest.t)
| WritePaired (value : gmap string PairedDevice.t)
| LogApproved (selfDeviceId requestId : string).

Inductive Failure : Type :=
| ApprovalFailed (e : ApprovalError)
| PendingWriteFailed
| PairedWriteFailed.

(** How the promise returned by [main()] settles; [Polling] when the polls
    given to the model end before the loop does. *)
Inductive Completion : Type :=
| Resolved
| Rejected (err : Failure)
| Polling.

Definition stateDir (env : Environment) : string :=
  JsString.trim
    (match OPENCLAW_STATE_DIR env with
     | Some s => if JsString.truthy s then s else "/home/node/.openclaw"
     | None => "/home/node/.openclaw"
     end).

Definition selfDeviceId (env : Environment) : string :=
  match Js.asString (identityDeviceId env) with
  | Some s => JsString.trim s
  | None => ""
  end.

(** [String(pendingById[id]?.deviceId ?? "").trim() === selfDeviceId] *)
Definition isSelf (self : string) (pending : option PendingRequest.t) : bool :=
  bool_decide
    (JsString.trim
       (Js.toString (Js.nullish (pending ≫= PendingRequest.deviceId) (UStr "")))
     = self).

Definition sleepThen (k : list Event * Completion) : list Event * Completion :=
  (Sleep 2000 :: k.1, k.2).

(** The two [writeJsonAtomic] calls and the log line after an approval. *)
Definition persist (p : Poll) (self requestId : string)
  (updatedPendingById : gmap string PendingRequest.t)
  (updatedPairedByDeviceId : gmap string PairedDevice.t)
  : list Event * Completion :=
  if negb (pendingWritable p) then ([], Rejected PendingWriteFailed)
  else if negb (pairedWritable p)
       then ([WritePending updatedPendingById], Rejected PairedWriteFailed)
       else ([WritePending updatedPendingById;
              WritePaired updatedPairedByDeviceId;
              LogApproved self requestId], Resolved).

(** *** The daemon built on the shared module *)

Module Shared.

Definition PAIRING_TIMEOUT_MS : Z := 10 * 60 * 1000.

Fixpoint loop (self : string) (endAt : Z) (polls : list Poll)
  : list Event * Completion :=
  match polls with
  | [] => ([], Polling)
  | p :: rest =>
    if clock p <? endAt then
      let pairedByDeviceId := pairedFile p in
      if Js.found (Js.get pairedByDeviceId self) then ([], Resolved)
      else
        let pendingById : gmap string PendingRequest.t :=
          list_to_map (pendingFile p) in
        (* the keys that [Object.keys] lists are own properties *)
        match find (fun id => isSelf self (pendingById !! id)) (pendingFile p).*1 with
        | None => sleepThen (loop self endAt rest)
        | Some requestId =>
          if negb (JsString.truthy requestId) then sleepThen (loop self endAt rest)
          else
            match pendingById !! requestId with
            | None => sleepThen (loop self endAt rest)
            | Some pending =>
              if negb (isSelf self (Some pending))
              then sleepThen (loop self endAt rest)
              else
                match approvePairing (approvalClock p) (freshToken p)
                        pendingById pairedByDeviceId requestId with
                | inl e => ([], Rejected (ApprovalFailed e))
                | inr r =>
                  persist p self requestId
                    (updatedPendingById r) (updatedPairedByDeviceId r)
                end
            end
        end
    else ([], Resolved)
  end.

Definition main (env : Environment) (polls : list Poll)
  : list Event * Completion :=
  if negb (JsString.truthy (stateDir env)) then ([], Resolved)
  else
    let self := selfDeviceId env in
    if negb (JsString.truthy self) then ([], Resolved)
    else loop self (startClock env + PAIRING_TIMEOUT_MS) polls.

(** [main().catch(... process.exitCode = 1)]; the exit status of the process
    once [main()] has settled. *)
Definition exitCode (c : Completion) : option Z :=
  match c with
  | Resolved => Some 0
  | Rejected _ => Some 1
  | Polling => None
  end.

End Shared.

(** *** The self-contained daemon

    [scripts/bootstrap/auto-approve-self-pairing.ts] with the approval written
    out in [main] and the two collections updated in place. It validates no
    identifier. Its copies of [uniqSortedStrings], [mergeRoles] and
    [mergeScopes] are those of the shared module, character for character. *)

Module Standalone.

(** From [const now = Date.now()] to [pairedByDeviceId[selfDeviceId] = device]:
    the token map is a copy of the existing one into which the new token is
    assigned, and both collections are updated by [delete] and by
    assignment. Returns what the two objects hold afterwards. *)
Definition approveInPlace (now : Z) (freshToken self requestId : string)
  (pending : PendingRequest.t)
  (pendingById : gmap string PendingRequest.t)
  (pairedByDeviceId : gmap string PairedDevice.t)
  : gmap string PendingRequest.t * gmap string PairedDevice.t :=
  let existing : option PairedDevice.t :=
    Js.own (Js.get pairedByDeviceId self) in
  let roleForToken := roleForToken pending in
  let tokens : gmap string DeviceToken.t :=
    default ∅ (existing ≫= PairedDevice.tokens) in
  let tokens :=
    if JsString.truthy roleForToken
    then
      let existingToken := Js.get tokens roleForToken in
      Js.assign tokens roleForToken
        (rotateToken now freshToken roleForToken pending existingToken)
    else tokens in
  let device :=
    {| PairedDevice.deviceId := self;
       PairedDevice.publicKey := PendingRequest.publicKey pending;
       PairedDevice.displayName := PendingRequest.displayName pending;
       PairedDevice.platform := PendingRequest.platform pending;
       PairedDevice.clientId := PendingRequest.clientId pending;
       PairedDevice.clientMode := PendingRequest.clientMode pending;
       PairedDevice.role := PendingRequest.role pending;
       PairedDevice.roles :=
         (fun out : list string => UStr <$> out) <$> mergeRoles existing pending;
       PairedDevice.scopes := Some (UStr <$> mergeScopes existing pending);
       PairedDevice.remoteIp := PendingRequest.remoteIp pending;
       PairedDevice.tokens := Some tokens;
       PairedDevice.createdAtMs :=
         Some (default now (existing ≫= PairedDevice.createdAtMs));
       PairedDevice.approvedAtMs := now |} in
  (delete requestId pendingById, Js.assign pairedByDeviceId self device).

Fixpoint loop (self : string) (endAt : Z) (polls : list Poll)
  : list Event * Completion :=
  match polls with
  | [] => ([], Polling)
  | p :: rest =>
    if clock p <? endAt then
      let pairedByDeviceId := pairedFile p in
      if Js.found (Js.get pairedByDeviceId self) then ([], Resolved)
      else
        let pendingById : gmap string PendingRequest.t :=
          list_to_map (pendingFile p) in
        (* the keys that [Object.keys] lists are own properties *)
        match find (fun id => isSelf self (pendingById !! id)) (pendingFile p).*1 with
        | None => sleepThen (loop self endAt rest)
        | Some requestId =>
          if negb (JsString.truthy requestId) then sleepThen (loop self endAt rest)
          else
            match pendingById !! requestId with
            | None => sleepThen (loop self endAt rest)
            | Some pending =>
              if negb (isSelf self (Some pending))
              then sleepThen (loop self endAt rest)
              else
                let updated :=
                  approveInPlace (approvalClock p) (freshToken p) self requestId
                    pending pendingById pairedByDeviceId in
                persist p self requestId updated.1 updated.2
            end
        end
    else ([], Resolved)
  end.

Definition main (env : Environment) (polls : list Poll)
  : list Event * Completion :=
  if negb (JsString.truthy (stateDir env)) then ([], Resolved)
  else
    let self := selfDeviceId env in
    if negb (JsString.truthy self) then ([], Resolved)
    else loop self (startClock env + 10 * 60 * 1000) polls.

(** [main().catch(... process.exitCode = 0)] *)
Definition exitCode (c : Completion) : option Z :=
  match c with
  | Resolved => Some 0
  | Rejected _ => Some 0
  | Polling => None
  end.

End Standalone.

End SelfPairing.

(** ** [scripts/bootstrap/watch-codex-auth.ts] *)

Module WatchCodexAuth.

Definition PROFILE_ID : string := "openai-codex:default".

Record CodexTokens : Type := {
  access_token : option unknown;
  refresh_token : option unknown;
  account_id : option unknown
}.

(** A parsed [auth.json]; [tokens] is [None] unless the property is an
    object. *)
Record CodexAuth : Type := {
  tokens : option CodexTokens;
  last_refresh : option unknown
}.

(** A profile as it stands in [auth-profiles.json]. *)
Record AuthProfile : Type := {
  type : option unknown;
  provider : option unknown;
  access : option unknown;
  refresh : option unknown;
  expires : option unknown;
  accountId : option unknown
}.

(** [profiles] is [None] unless the property is a non-null object. *)
Record AuthStore : Type := {
  version : option unknown;
  profiles : option (gmap string AuthProfile)
}.

(** The two files the cycle works on. [codexAuthFile] is what
    [safeReadJson(codexAuthPath)] yields when it is an object, [authStoreFile]
    what [safeReadJson(authStorePath)] yields when it is truthy. File system
    calls succeed. *)
Record Files : Type := {
  codexAuthFile : option CodexAuth;
  authStoreFile : option AuthStore
}.

Inductive Event : Type :=
| LogNotReadable
| LogMissingTokens
| Mkdir
| LogUpToDate
| WriteStore (value : AuthStore)
| LogSynced.

Definition profilesEqual (a : option AuthProfile) (b : AuthProfile) : bool :=
  match a with
  | None => false
  | Some a =>
    Js.strictEq (type a) (type b)
    && Js.strictEq (provider a) (provider b)
    && Js.strictEq (access a) (access b)
    && Js.strictEq (refresh a) (refresh b)
    && Js.strictEq (expires a) (expires b)
    && Js.strictEq (accountId a) (accountId b)
  end.

Section Sync.

(** [new Date(v).getTime()] when it is finite, [None] when it is [NaN]. *)
Variable getTime : unknown -> option Z.

Definition trimmedString (v : option unknown) : string :=
  match Js.asString v with
  | Some s => JsString.trim s
  | None => ""
  end.

Definition buildProfile (now : Z) (codex : CodexAuth) : option AuthProfile :=
  let tokens := tokens codex in
  let access := trimmedString (tokens ≫= access_token) in
  let refresh := trimmedString (tokens ≫= refresh_token) in
  if negb (JsString.truthy access) || negb (JsString.truthy refresh) then None
  else
    let lastRefresh : option Z :=
      match last_refresh codex with
      | Some v => if Js.truthy (Some v) then getTime v else None
      | None => None
      end in
    let expires :=
      match lastRefresh with
      | Some t => t + 60 * 60 * 1000
      | None => now + 60 * 60 * 1000
      end in
    let accountId := Js.asString (tokens ≫= account_id) in
    Some {| type := Some (UStr "oauth");
            provider := Some (UStr "openai-codex");
            access := Some (UStr access);
            refresh := Some (UStr refresh);
            expires := Some (UNum expires);
            accountId := UStr <$> accountId |}.

(** One cycle; [now] is [Date.now()]. Returns what it did and the files
    afterwards. *)
Definition syncOnce (now : Z) (fs : Files) : list Event * Files :=
  match codexAuthFile fs with
  | None => ([LogNotReadable], fs)
  | Some codex =>
    match buildProfile now codex with
    | None => ([LogMissingTokens], fs)
    | Some nextProfile =>
      let existing := authStoreFile fs in
      let existingVersion : Z :=
        default 1 (Js.asNumber (existing ≫= version)) in
      let existingProfiles : gmap string AuthProfile :=
        default ∅ (existing ≫= profiles) in
      let prev := existingProfiles !! PROFILE_ID in
      if profilesEqual prev nextProfile then ([Mkdir; LogUpToDate], fs)
      else
        let updated :=
          {| version := Some (UNum existingVersion);
             profiles := Some (<[PROFILE_ID := nextProfile]> existingProfiles) |} in
        ([Mkdir; WriteStore updated; LogSynced],
         {| codexAuthFile := codexAuthFile fs; authStoreFile := Some updated |})
    end
  end.

End Sync.

(** The [writeJsonAtomic] calls among the events of a cycle. *)
Definition writes (evs : list Event) : list AuthStore :=
  omap (fun ev => match ev with WriteStore st => Some st | _ => None end) evs.

End WatchCodexAuth.

(** ** Vocabulary of the properties *)

Section Vocabulary.
Import DevicePairing.

(** [l] lists the strings that satisfy [P], each once, in ascending order. *)
Definition sorted_set_of (P : string -> Prop) (l : list string) : Prop :=
  StronglySorted JsString.lt l /\ forall x, x ∈ l <-> P x.

(** [x] is the trimmed form of a string among [items], and is not empty. *)
Definition trimmed_entry (items : list unknown) (x : string) : Prop :=
  x <> "" /\ exists s, UStr s ∈ items /\ JsString.trim s = x.

(** [x] itself is among [items]. *)
Definition plain_entry (items : list unknown) (x : string) : Prop :=
  UStr x ∈ items.

Definition option_entry (x : option unknown) : list unknown :=
  match x with Some v => [v] | None => [] end.

(** The entries that go into the merged role list: the existing device's role
    list and singular role, the request's role list and singular role. *)
Definition roleSources (existing : option PairedDevice.t)
  (pending : PendingRequest.t) : list unknown :=
  default [] (existing ≫= PairedDevice.roles)
  ++ option_entry (existing ≫= PairedDevice.role)
  ++ default [] (PendingRequest.roles pending)
  ++ option_entry (PendingRequest.role pending).

Definition scopeSources (existing : option PairedDevice.t)
  (pending : PendingRequest.t) : list unknown :=
  default [] (existing ≫= PairedDevice.scopes)
  ++ default [] (PendingRequest.scopes pending).

(** The token that the device [d] of [paired] holds for the role [r]. *)
Definition heldToken (paired : gmap string PairedDevice.t) (d r : string)
  : option DeviceToken.t :=
  match paired !! d ≫= PairedDevice.tokens with
  | Some tokens => tokens !! r
  | None => None
  end.

(** Some character of [s] lies outside the safe identifier set. *)
Definition has_unsafe_char (s : string) : Prop :=
  existsb (fun c => negb (is_safe_id_char c)) (list_ascii_of_string s) = true.

End Vocabulary.

Section DaemonVocabulary.
Import DevicePairing SelfPairing.

(** In poll [p], the request [requestId] is pending for the device [self] and
    its approval returns [res]. *)
Definition approves_own_request (self : string) (p : Poll) (requestId : string)
  (pending : PendingRequest.t) (res : ApprovalResult) : Prop :=
  (list_to_map (pendingFile p) : gmap string PendingRequest.t) !! requestId
  = Some pending
  /\ trimmedDeviceId pending = self
  /\ approvePairing (approvalClock p) (freshToken p)
       (list_to_map (pendingFile p)) (pairedFile p) requestId = inr res
  /\ deviceId res = self.

End DaemonVocabulary.

(** ** Sample data *)

Module Sample.
Import DevicePairing.

(** A pending request with the given id, device id, role, role list and scope
    list, and nothing else. *)
Definition request (requestId : string) (deviceId role : option unknown)
  (roles scopes : option (list unknown)) : PendingRequest.t :=
  {| PendingRequest.requestId := requestId;
     PendingRequest.deviceId := deviceId;
     PendingRequest.publicKey := None;
     PendingRequest.displayName := None;
     PendingRequest.platform := None;
     PendingRequest.clientId := None;
     PendingRequest.clientMode := None;
     PendingRequest.role := role;
     PendingRequest.roles := roles;
     PendingRequest.scopes := scopes;
     PendingRequest.remoteIp := None;
     PendingRequest.silent := None;
     PendingRequest.isRepair := None;
     PendingRequest.ts := 1000 |}.

(** The request of the specification's concrete scenario. *)
Definition r1 : PendingRequest.t :=
  request "r1" (Some (UStr "dev-A")) (Some (UStr "operator")) None
    (Some [UStr "chat"]).

(** A paired device with the given role list, scope list and tokens. *)
Definition device (deviceId : string) (roles scopes : option (list unknown))
  (tokens : option (gmap string DeviceToken.t)) : PairedDevice.t :=
  {| PairedDevice.deviceId := deviceId;
     PairedDevice.publicKey := None;
     PairedDevice.displayName := None;
     PairedDevice.platform := None;
     PairedDevice.clientId := None;
     PairedDevice.clientMode := None;
     PairedDevice.role := None;
     PairedDevice.roles := roles;
     PairedDevice.scopes := scopes;
     PairedDevice.remoteIp := None;
     PairedDevice.tokens := tokens;
     PairedDevice.createdAtMs := Some 1;
     PairedDevice.approvedAtMs := 1 |}.

(** A second request of the same device for the same role. *)
Definition r2 : PendingRequest.t :=
  request "r2" (Some (UStr "dev-A")) (Some (UStr "operator")) None
    (Some [UStr "chat"; UStr "files"]).

(** A request of another device. *)
Definition other : PendingRequest.t :=
  request "r9" (Some (UStr "dev-B")) (Some (UStr "operator")) None None.

(** A request of ["dev-A"] whose role is not an identifier. *)
Definition badRole : PendingRequest.t :=
  request "r1" (Some (UStr "dev-A")) (Some (UStr "bad role")) None None.

(** The daemon of the node ["dev-A"], started at time 0. *)
Definition env : SelfPairing.Environment :=
  {| SelfPairing.OPENCLAW_STATE_DIR := None;
     SelfPairing.identityDeviceId := Some (UStr "dev-A");
     SelfPairing.startClock := 0 |}.

(** One turn of the loop at time 10 that finds nothing paired and the given
    pending entries, with both files writable. *)
Definition poll (pendingFile : list (string * PendingRequest.t))
  : SelfPairing.Poll :=
  {| SelfPairing.clock := 10;
     SelfPairing.pairedFile := ∅;
     SelfPairing.pendingFile := pendingFile;
     SelfPairing.approvalClock := 11;
     SelfPairing.freshToken := "tok";
     SelfPairing.pendingWritable := true;
     SelfPairing.pairedWritable := true |}.

(** An [auth.json] with both tokens and the given [last_refresh]. *)
Definition codex (last_refresh : option unknown) : WatchCodexAuth.CodexAuth :=
  {| WatchCodexAuth.tokens :=
       Some {| WatchCodexAuth.access_token := Some (UStr "access");
               WatchCodexAuth.refresh_token := Some (UStr "refresh");
               WatchCodexAuth.account_id := None |};
     WatchCodexAuth.last_refresh := last_refresh |}.

(** The source file together with a store file. *)
Definition files (last_refresh : option unknown)
  (store : option WatchCodexAuth.AuthStore) : WatchCodexAuth.Files :=
  {| WatchCodexAuth.codexAuthFile := Some (codex last_refresh);
     WatchCodexAuth.authStoreFile := store |}.

(** A store of version 7 without profiles. *)
Definition store7 : WatchCodexAuth.AuthStore :=
  {| WatchCodexAuth.version := Some (UNum 7);
     WatchCodexAuth.profiles := Some ∅ |}.

(** A date parser that knows one timestamp. *)
Definition getTime (v : unknown) : option Z :=
  match v with
  | UStr "2026-01-01T00:00:00Z" => Some 1767225600000
  | _ => None
  end.

End Sample.

(** ** [scripts/approve-device-pairing-local.ts]

    The manual tool built on the shared module: one run of the script. *)

Module ApproveLocal.
Import DevicePairing.

Record Invocation : Type := {
  (** [process.argv[2]] *)
  argv2 : option string;
  (** the entries of [readJsonFile(pendingPath, {})], in the order in which
      [Object.keys] enumerates them *)
  pendingFile : list (string * PendingRequest.t);
  (** [readJsonFile(pairedPath, {})] *)
  pairedFile : gmap string PairedDevice.t;
  (** [Date.now()] and [newToken()] during the approval *)
  approvalClock : Z;
  freshToken : string;
  (** whether [writeJsonAtomic] succeeds on each of the two files *)
  pendingWritable : bool;
  pairedWritable : bool
}.

(** What escapes the script as an uncaught exception. *)
Inductive Uncaught : Type :=
| ApprovalThrew (e : ApprovalError)
| PendingWriteThrew
| PairedWriteThrew.

Inductive Event : Type :=
| FatalNoPending
| FatalNotFound (requestId : string)
| WritePending (value : gmap string PendingRequest.t)
| WritePaired (value : gmap string PairedDevice.t)
| OkApproved (requestId deviceId : string)
| UncaughtException (err : Uncaught).

(** [Array.prototype.sort(compareFn)], which is stable: an element moves
    behind another one only where [compareFn] is positive. Written as an
    insertion sort. *)
Fixpoint insert_by {A} (compareFn : A -> A -> Z) (a : A) (sorted : list A)
  : list A :=
  match sorted with
  | [] => [a]
  | b :: rest =>
      if 0 <? compareFn a b then b :: insert_by compareFn a rest
      else a :: sorted
  end.

Definition sort_by {A} (compareFn : A -> A -> Z) (l : list A) : list A :=
  foldr (insert_by compareFn) [] l.

(** [Number(pendingById[id]?.ts ?? 0)] *)
Definition tsOf (pendingById : gmap string PendingRequest.t) (id : string) : Z :=
  match pendingById !! id with
  | Some pending => PendingRequest.ts pending
  | None => 0
  end.

(** [Object.keys(pendingById).sort((a, b) => ts(b) - ts(a))] *)
Definition newestFirst (pendingFile : list (string * PendingRequest.t))
  : list string :=
  let pendingById : gmap string PendingRequest.t := list_to_map pendingFile in
  sort_by (fun a b => tsOf pendingById b - tsOf pendingById a) pendingFile.*1.

(** [process.argv[2]?.trim()] *)
Definition requestIdArg (inv : Invocation) : option string :=
  JsString.trim <$> argv2 inv.

(** [requestIdArg || Object.keys(pendingById).sort(...)[0]] *)
Definition requestId (inv : Invocation) : option string :=
  match requestIdArg inv with
  | Some arg =>
      if JsString.truthy arg then Some arg
      else head (newestFirst (pendingFile inv))
  | None => head (newestFirst (pendingFile inv))
  end.

(** The script; returns what it prints and writes, and the exit status of
    the process (1 after [process.exit(1)] and after an uncaught exception). *)
Definition main (inv : Invocation) : list Event * Z :=
  let pendingById : gmap string PendingRequest.t :=
    list_to_map (pendingFile inv) in
  let pairedByDeviceId := pairedFile inv in
  match requestId inv with
  | None => ([FatalNoPending], 1)
  | Some requestId =>
    if negb (JsString.truthy requestId) then ([FatalNoPending], 1)
    else
      if negb (Js.found (Js.get pendingById requestId))
      then ([FatalNotFound requestId], 1)
      else
        match approvePairing (approvalClock inv) (freshToken inv)
                pendingById pairedByDeviceId requestId with
        | inl e => ([UncaughtException (ApprovalThrew e)], 1)
        | inr r =>
          if negb (pendingWritable inv)
          then ([UncaughtException PendingWriteThrew], 1)
          else if negb (pairedWritable inv)
          then ([WritePending (updatedPendingById r);
                 UncaughtException PairedWriteThrew], 1)
          else ([WritePending (updatedPendingById r);
                 WritePaired (updatedPairedByDeviceId r);
                 OkApproved requestId (deviceId r)], 0)
        end
  end.

End ApproveLocal.

(** ** The file watcher of [scripts/bootstrap/watch-codex-auth.ts]

    [onFileChange], the timer callback it installs, and [cleanup]. The timers
    of the runtime are the handles in [timers]: those that [setTimeout] has
    returned and that have neither fired nor been cleared. When a timer fires
    is up to the runtime, so firing is an input. *)

Module Watcher.
Import WatchCodexAuth.

Definition POLL_INTERVAL_MS : Z := 5000.
Definition DEBOUNCE_MS : Z := 500.

Record State : Type := {
  (** [let debounceTimer] *)
  debounceTimer : option nat;
  (** pending timers of the runtime *)
  timers : list nat;
  (** the handle the next [setTimeout] returns *)
  nextHandle : nat;
  (** set by [process.exit(0)] *)
  exited : bool;
  files : Files
}.

Inductive Input : Type :=
(** the [fs.watchFile] listener is called *)
| FileChanged
(** the runtime runs the callback of a pending timer; [now] is [Date.now()]
    during its [syncOnce()] *)
| TimerFired (handle : nat) (now : Z)
(** somebody replaces the source file *)
| SourceReplaced (content : option CodexAuth)
(** SIGTERM or SIGINT *)
| Signal.

Inductive Action : Type :=
| SetTimeout (handle : nat) (ms : Z)
| ClearTimeout (handle : nat)
| Sync (events : list Event)
| UnwatchFile
| Exit (status : Z).

Definition clearTimeout (handle : nat) (timers : list nat) : list nat :=
  filter (fun h => h <> handle) timers.

Definition initial (fs : Files) : State :=
  {| debounceTimer := None; timers := []; nextHandle := 0%nat;
     exited := false; files := fs |}.

Section Step.

Variable getTime : unknown -> option Z.

Definition onFileChange (st : State) : State * list Action :=
  let cleared :=
    match debounceTimer st with
    | Some h => (clearTimeout h (timers st), [ClearTimeout h])
    | None => (timers st, [])
    end in
  let h := nextHandle st in
  ({| debounceTimer := Some h;
      timers := h :: cleared.1;
      nextHandle := S h;
      exited := exited st;
      files := files st |},
   cleared.2 ++ [SetTimeout h DEBOUNCE_MS]).

(** The arrow function given to [setTimeout]. *)
Definition onTimeout (now : Z) (st : State) : State * list Action :=
  let synced := syncOnce getTime now (files st) in
  ({| debounceTimer := None;
      timers := timers st;
      nextHandle := nextHandle st;
      exited := exited st;
      files := synced.2 |},
   [Sync synced.1]).

Definition cleanup (st : State) : State * list Action :=
  let cleared :=
    match debounceTimer st with
    | Some h => (clearTimeout h (timers st), [ClearTimeout h])
    | None => (timers st, [])
    end in
  ({| debounceTimer := debounceTimer st;
      timers := cleared.1;
      nextHandle := nextHandle st;
      exited := exited st;
      files := files st |},
   cleared.2 ++ [UnwatchFile]).

Definition step (st : State) (input : Input) : State * list Action :=
  if exited st then (st, [])
  else
    match input with
    | FileChanged => onFileChange st
    | TimerFired h now =>
        if decide (h ∈ timers st)
        then onTimeout now
               {| debounceTimer := debounceTimer st;
                  timers := clearTimeout h (timers st);
                  nextHandle := nextHandle st;
                  exited := exited st;
                  files := files st |}
        else (st, [])
    | SourceReplaced content =>
        ({| debounceTimer := debounceTimer st;
            timers := timers st;
            nextHandle := nextHandle st;
            exited := exited st;
            files := {| codexAuthFile := content;
                        authStoreFile := authStoreFile (files st) |} |},
         [])
    | Signal =>
        let cleaned := cleanup st in
        ({| debounceTimer := debounceTimer cleaned.1;
            timers := timers cleaned.1;
            nextHandle := nextHandle cleaned.1;
            exited := true;
            files := files cleaned.1 |},
         cleaned.2 ++ [Exit 0])
    end.

Fixpoint run (st : State) (inputs : list Input) : State * list Action :=
  match inputs with
  | [] => (st, [])
  | input :: rest =>
      let s1 := step st input in
      let s2 := run s1.1 rest in
      (s2.1, s1.2 ++ s2.2)
  end.

End Step.

(** The [syncOnce()] runs among the actions. *)
Definition syncs (actions : list Action) : list (list Event) :=
  omap (fun a => match a with Sync evs => Some evs | _ => None end) actions.

(** How often the listener is called. *)
Definition changes (inputs : list Input) : nat :=
  length (omap (fun i => match i with FileChanged => Some tt | _ => None end)
            inputs).

End Watcher.

(** ** Vocabulary for the runs of the daemon *)

Section RunVocabulary.
Import DevicePairing SelfPairing.

(** [n] sleeps of two seconds. *)
Definition sleeps (n : nat) : list Event := replicate n (Sleep 2000).

(** The request [requestId] of poll [p] is one of the device [self]. *)
Definition own_request (self : string) (p : Poll) (requestId : string)
  (pending : PendingRequest.t) : Prop :=
  (list_to_map (pendingFile p) : gmap string PendingRequest.t) !! requestId
  = Some pending
  /\ trimmedDeviceId pending = self.

(** Poll [p] happens before [endAt] and [pairedByDeviceId[self]] is falsy in
    it: the device [self] is not paired, and [self] is no member of
    [Object.prototype] either. *)
Definition still_waiting (self : string) (endAt : Z) (p : Poll) : Prop :=
  clock p < endAt /\ Js.get (pairedFile p) self = Js.Missing.

(** The three ways a run can look: only sleeps; sleeps and the pending file
    written, the paired file not; sleeps and both files written. *)
Definition run_shape (self : string) (polls : list Poll)
  (r : list Event * Completion) : Prop :=
  exists n, (n <= length polls)%nat /\
    ((r.1 = sleeps n
      /\ (r.2 = Resolved \/ r.2 = Polling \/ r.2 = Rejected PendingWriteFailed
          \/ exists e, r.2 = Rejected (ApprovalFailed e)))
     \/ (exists newPending,
           r.1 = sleeps n ++ [WritePending newPending]
           /\ r.2 = Rejected PairedWriteFailed)
     \/ (exists newPending newPaired requestId,
           r.1 = sleeps n ++ [WritePending newPending; WritePaired newPaired;
                              LogApproved self requestId]
           /\ r.2 = Resolved)).

End RunVocabulary.

(** ** Sample runs *)

Module SampleRun.
Import DevicePairing.

(** A request like [Sample.r1] with another id and timestamp. *)
Definition requestAt (requestId : string) (ts : Z) : PendingRequest.t :=
  {| PendingRequest.requestId := requestId;
     PendingRequest.deviceId := Some (UStr "dev-A");
     PendingRequest.publicKey := None;
     PendingRequest.displayName := None;
     PendingRequest.platform := None;
     PendingRequest.clientId := None;
     PendingRequest.clientMode := None;
     PendingRequest.role := Some (UStr "operator");
     PendingRequest.roles := None;
     PendingRequest.scopes := None;
     PendingRequest.remoteIp := None;
     PendingRequest.silent := None;
     PendingRequest.isRepair := None;
     PendingRequest.ts := ts |}.

(** A token for the role ["operator"], created at time 2 and last used at
    time 4, and the device ["dev-A"], created at time 1, that holds it. *)
Definition usedToken : DeviceToken.t :=
  {| DeviceToken.token := "t0";
     DeviceToken.role := "operator";
     DeviceToken.scopes := [];
     DeviceToken.createdAtMs := Some 2;
     DeviceToken.rotatedAtMs := None;
     DeviceToken.revokedAtMs := None;
     DeviceToken.lastUsedAtMs := Some 4 |}.

Definition pairedBefore : gmap string PairedDevice.t :=
  {[ "dev-A" :=
       Sample.device "dev-A" None None (Some {[ "operator" := usedToken ]}) ]}.

(** A value that [newToken()] can return: the base64url form of the 32
    bytes 0, 1, ..., 31. *)
Definition drawnToken : string :=
  "AAECAwQFBgcICQoLDA0ODxAREhMUFRYXGBkaGxwdHh8".

(** Three pending requests; the two newest have the same timestamp. *)
Definition threeRequests : list (string * PendingRequest.t) :=
  [("old", requestAt "old" 1000);
   ("new1", requestAt "new1" 3000);
   ("new2", requestAt "new2" 3000)].

(** A run of the manual tool on these, nothing paired, both files writable. *)
Definition invocation (argv2 : option string) : ApproveLocal.Invocation :=
  {| ApproveLocal.argv2 := argv2;
     ApproveLocal.pendingFile := threeRequests;
     ApproveLocal.pairedFile := ∅;
     ApproveLocal.approvalClock := 5;
     ApproveLocal.freshToken := "tok";
     ApproveLocal.pendingWritable := true;
     ApproveLocal.pairedWritable := true |}.

End SampleRun.

(** * Part II: properties *)

(** ** Strings *)

Section JsStringFacts.
Import JsString.

Lemma ascii_compare_refl (c : ascii) : Ascii.compare c c = Eq.
Proof. unfold Ascii.compare. apply N.compare_refl. Qed.

Lemma ascii_compare_Lt_trans (a b c : ascii) :
  Ascii.compare a b = Lt -> Ascii.compare b c = Lt -> Ascii.compare a c = Lt.
Proof.
  unfold Ascii.compare. rewrite !N.compare_lt_iff. apply N.lt_trans.
Qed.

Lemma string_compare_refl (s : string) : String.compare s s = Eq.
Proof.
  induction s as [|c s IH]; simpl; [reflexivity|].
  rewrite ascii_compare_refl. exact IH.
Qed.

Lemma string_compare_Lt_trans (s1 s2 s3 : string) :
  String.compare s1 s2 = Lt -> String.compare s2 s3 = Lt ->
  String.compare s1 s3 = Lt.
Proof.
  revert s2 s3.
  induction s1 as [|a s1 IH]; intros [|b s2] [|c s3]; simpl;
    try congruence.
  destruct (Ascii.compare a b) eqn:Hab; try discriminate;
    destruct (Ascii.compare b c) eqn:Hbc; try discriminate; intros H1 H2.
  - apply Ascii.compare_eq_iff in Hab, Hbc. subst.
    rewrite ascii_compare_refl. eauto.
  - apply Ascii.compare_eq_iff in Hab. subst. rewrite Hbc. reflexivity.
  - apply Ascii.compare_eq_iff in Hbc. subst. rewrite Hab. reflexivity.
  - rewrite (ascii_compare_Lt_trans _ _ _ Hab Hbc). reflexivity.
Qed.

Lemma le_lt_or_eq (s1 s2 : string) : le s1 s2 <-> lt s1 s2 \/ s1 = s2.
Proof.
  unfold le, lt, String.leb, String.ltb. split.
  - destruct (String.compare s1 s2) eqn:Hc; try discriminate; intros _.
    + right. apply String.compare_eq_iff. exact Hc.
    + left. reflexivity.
  - intros [H| ->].
    + destruct (String.compare s1 s2); congruence.
    + rewrite string_compare_refl. reflexivity.
Qed.

Lemma lt_irrefl (s : string) : ~ lt s s.
Proof. unfold lt, String.ltb. rewrite string_compare_refl. discriminate. Qed.

Lemma lt_trans (s1 s2 s3 : string) : lt s1 s2 -> lt s2 s3 -> lt s1 s3.
Proof.
  unfold lt, String.ltb. intros H1 H2.
  destruct (String.compare s1 s2) eqn:H12; try discriminate.
  destruct (String.compare s2 s3) eqn:H23; try discriminate.
  rewrite (string_compare_Lt_trans _ _ _ H12 H23). reflexivity.
Qed.

Lemma lt_le (s1 s2 : string) : lt s1 s2 -> le s1 s2.
Proof. intros H. apply le_lt_or_eq. left. exact H. Qed.

Global Instance le_refl : Reflexive le.
Proof. intros s. apply le_lt_or_eq. right. reflexivity. Qed.

Global Instance le_trans : Transitive le.
Proof.
  intros s1 s2 s3. rewrite !le_lt_or_eq.
  intros [H1| ->] [H2| ->]; eauto using lt_trans.
Qed.

Global Instance le_total : Total le.
Proof. intros s1 s2. apply String.leb_total. Qed.

Global Instance le_antisym : AntiSymm (=) le.
Proof. intros s1 s2. apply String.leb_antisym. Qed.

Lemma le_neq_lt (s1 s2 : string) : le s1 s2 -> s1 <> s2 -> lt s1 s2.
Proof. rewrite le_lt_or_eq. tauto. Qed.

Lemma truthy_true_iff (s : string) : truthy s = true <-> s <> "".
Proof. destruct s; simpl; split; congruence. Qed.

Lemma truthy_false_iff (s : string) : truthy s = false <-> s = "".
Proof. destruct s; simpl; split; congruence. Qed.

(** Trimming leaves a string without white space as it is. *)

Lemma trimStart_units_head (c : ascii) (l : list ascii) :
  is_white_space c = false -> trimStart_units (c :: l) = c :: l.
Proof. intros H. simpl. rewrite H. reflexivity. Qed.

Lemma trim_units_no_space (l : list ascii) :
  forallb (fun c => negb (is_white_space c)) l = true ->
  trimEnd_units (trimStart_units l) = l.
Proof.
  intros H.
  assert (Hs : forall l', forallb (fun c => negb (is_white_space c)) l' = true ->
                          trimStart_units l' = l').
  { intros [|c l'] Hl'; [reflexivity|]. simpl in Hl'.
    apply andb_prop in Hl' as [Hc _]. apply negb_true_iff in Hc.
    apply trimStart_units_head. exact Hc. }
  unfold trimEnd_units. rewrite (Hs l H), Hs.
  - apply rev_involutive.
  - rewrite forallb_forall in *. intros c Hc. apply H.
    apply in_rev. exact Hc.
Qed.

Lemma trim_no_space (s : string) :
  forallb (fun c => negb (is_white_space c)) (list_ascii_of_string s) = true ->
  trim s = s.
Proof.
  intros H. unfold trim. rewrite trim_units_no_space by exact H.
  apply string_of_list_ascii_of_string.
Qed.

End JsStringFacts.

(** ** Validation and the pure helpers *)

Section PairingHelpers.
Import JsString DevicePairing.

Lemma safe_char_not_space (c : ascii) :
  is_safe_id_char c = true -> is_white_space c = false.
Proof. destruct c as [[] [] [] [] [] [] [] []]; vm_compute; congruence. Qed.

Lemma isValidId_chars (s : string) :
  isValidId s = true <->
  s <> "" /\ forallb is_safe_id_char (list_ascii_of_string s) = true.
Proof.
  unfold isValidId. destruct s as [|c s]; simpl.
  - split; [discriminate | intros [H _]; congruence].
  - split; [intros H; split; [discriminate | exact H] | intros [_ H]; exact H].
Qed.

Lemma isValidId_truthy (s : string) : isValidId s = true -> truthy s = true.
Proof. intros [H _]%isValidId_chars. apply truthy_true_iff. exact H. Qed.

Lemma isValidId_trim (s : string) : isValidId s = true -> trim s = s.
Proof.
  intros [_ H]%isValidId_chars. apply trim_no_space.
  rewrite forallb_forall in *. intros c Hc.
  rewrite (safe_char_not_space c (H c Hc)). reflexivity.
Qed.

Lemma has_unsafe_char_invalid (s : string) :
  has_unsafe_char s -> isValidId s = false.
Proof.
  unfold has_unsafe_char. intros (c & Hin & Hc)%existsb_exists.
  destruct (isValidId s) eqn:Hv; [|reflexivity].
  apply isValidId_chars in Hv as [_ Hall].
  rewrite forallb_forall in Hall. rewrite (Hall c Hin) in Hc. discriminate.
Qed.

Lemma has_unsafe_char_nonempty (s : string) : has_unsafe_char s -> s <> "".
Proof. intros H ->. discriminate H. Qed.

Lemma isValidId_false_unsafe (s : string) :
  s <> "" -> isValidId s = false -> has_unsafe_char s.
Proof.
  intros Hne Hv. unfold has_unsafe_char.
  destruct (existsb _ _) eqn:Hex; [reflexivity|].
  assert (isValidId s = true); [|congruence].
  apply isValidId_chars. split; [exact Hne|].
  apply forallb_forall. intros c Hc.
  destruct (is_safe_id_char c) eqn:Hs; [reflexivity|].
  assert (existsb (fun c => negb (is_safe_id_char c)) (list_ascii_of_string s) = true);
    [|congruence].
  apply existsb_exists. exists c. rewrite Hs. auto.
Qed.

(** The set built by the loop of [uniqSortedStrings]. *)

Lemma elem_of_set_add (x t : string) (set : list string) :
  x ∈ set_add t set <-> x = t \/ x ∈ set.
Proof.
  unfold set_add. case_decide as Ht.
  - split; [tauto | intros [->|H]; assumption].
  - rewrite elem_of_app, list_elem_of_singleton. tauto.
Qed.

Lemma NoDup_set_add (t : string) (set : list string) :
  NoDup set -> NoDup (set_add t set).
Proof.
  intros Hnd. unfold set_add. case_decide as Ht; [exact Hnd|].
  apply NoDup_app. split; [exact Hnd|]. split; [|apply NoDup_singleton].
  intros x Hx ->%list_elem_of_singleton. contradiction.
Qed.

Lemma trimmed_entry_nil (x : string) : ~ trimmed_entry [] x.
Proof. intros (_ & s & Hs & _). inversion Hs. Qed.

Lemma trimmed_entry_app (l1 l2 : list unknown) (x : string) :
  trimmed_entry (l1 ++ l2) x <-> trimmed_entry l1 x \/ trimmed_entry l2 x.
Proof.
  unfold trimmed_entry. setoid_rewrite elem_of_app. split.
  - intros (Hx & s & [H|H] & Ht); [left|right];
      (split; [exact Hx | exists s; tauto]).
  - intros [(Hx & s & H & Ht)|(Hx & s & H & Ht)];
      (split; [exact Hx | exists s; tauto]).
Qed.

Lemma trimmed_entry_cons (v : unknown) (l : list unknown) (x : string) :
  trimmed_entry (v :: l) x <-> trimmed_entry [v] x \/ trimmed_entry l x.
Proof. apply (trimmed_entry_app [v] l). Qed.

Lemma trimmed_entry_ext (l1 l2 : list unknown) (x : string) :
  (forall v, v ∈ l1 <-> v ∈ l2) -> trimmed_entry l1 x <-> trimmed_entry l2 x.
Proof. intros H. unfold trimmed_entry. setoid_rewrite H. reflexivity. Qed.

Lemma elem_of_add_trimmed (x : string) (set : list string) (v : unknown) :
  x ∈ add_trimmed set v <-> x ∈ set \/ trimmed_entry [v] x.
Proof.
  unfold add_trimmed, trimmed_entry.
  destruct v as [|b|n|s];
    try (split; [tauto | intros [H|(_ & s' & Hs' & _)]; [exact H|];
                 apply list_elem_of_singleton in Hs'; discriminate]).
  simpl. destruct (truthy (trim s)) eqn:Ht.
  - rewrite elem_of_set_add. apply truthy_true_iff in Ht. split.
    + intros [->|H]; [right|left; exact H].
      split; [exact Ht|]. exists s. split; [left | reflexivity].
    + intros [H|(_ & s' & Hs' & <-)]; [right; exact H|].
      apply list_elem_of_singleton in Hs'. injection Hs' as ->. left. reflexivity.
  - apply truthy_false_iff in Ht. split; [tauto|].
    intros [H|(Hx & s' & Hs' & <-)]; [exact H|].
    apply list_elem_of_singleton in Hs'. injection Hs' as ->. contradiction.
Qed.

Lemma elem_of_fold_add_trimmed (items : list unknown) (set : list string) (x : string) :
  x ∈ fold_left add_trimmed items set <-> x ∈ set \/ trimmed_entry items x.
Proof.
  revert set. induction items as [|v items IH]; intros set; simpl.
  - pose proof (trimmed_entry_nil x). tauto.
  - rewrite IH, elem_of_add_trimmed, (trimmed_entry_cons v items). tauto.
Qed.

Lemma NoDup_fold_add_trimmed (items : list unknown) (set : list string) :
  NoDup set -> NoDup (fold_left add_trimmed items set).
Proof.
  revert set. induction items as [|v items IH]; intros set Hnd; simpl.
  - exact Hnd.
  - apply IH. unfold add_trimmed. destruct v; try exact Hnd.
    simpl. destruct (truthy _); [apply NoDup_set_add|]; exact Hnd.
Qed.

Lemma elem_of_uniqSortedStrings (items : list unknown) (x : string) :
  x ∈ uniqSortedStrings items <-> trimmed_entry items x.
Proof.
  unfold uniqSortedStrings. rewrite merge_sort_Permutation.
  rewrite elem_of_fold_add_trimmed, elem_of_nil. tauto.
Qed.

Lemma NoDup_uniqSortedStrings (items : list unknown) :
  NoDup (uniqSortedStrings items).
Proof.
  unfold uniqSortedStrings. rewrite merge_sort_Permutation.
  apply NoDup_fold_add_trimmed, NoDup_nil_2.
Qed.

Lemma StronglySorted_le_lt (l : list string) :
  StronglySorted le l -> NoDup l -> StronglySorted lt l.
Proof.
  induction 1 as [|x l Hl IH Hx]; intros Hnd; constructor.
  - apply IH. apply NoDup_cons in Hnd. tauto.
  - apply NoDup_cons in Hnd as [Hnotin _].
    rewrite Forall_forall in *. intros y Hy. apply le_neq_lt.
    + apply Hx. exact Hy.
    + intros ->. apply Hnotin. exact Hy.
Qed.

Lemma StronglySorted_lt_le (l : list string) :
  StronglySorted lt l -> StronglySorted le l /\ NoDup l.
Proof.
  induction 1 as [|x l Hl [IH1 IH2] Hx]; split; try constructor; auto.
  - eapply Forall_impl; [exact Hx|]. intros y. apply lt_le.
  - rewrite Forall_forall in Hx. intros Hin.
    apply (lt_irrefl x). apply Hx. exact Hin.
Qed.

Lemma sorted_set_of_unique (P : string -> Prop) (l1 l2 : list string) :
  sorted_set_of P l1 -> sorted_set_of P l2 -> l1 = l2.
Proof.
  intros [[Hs1 Hn1]%StronglySorted_lt_le H1] [[Hs2 Hn2]%StronglySorted_lt_le H2].
  apply (StronglySorted_unique le); try assumption.
  apply NoDup_Permutation; try assumption.
  intros x. rewrite H1, H2. reflexivity.
Qed.

Lemma sorted_set_of_ext (P Q : string -> Prop) (l : list string) :
  (forall x, P x <-> Q x) -> sorted_set_of P l -> sorted_set_of Q l.
Proof. intros H [Hs Hl]. split; [exact Hs|]. intros x. rewrite Hl. apply H. Qed.

Lemma uniqSortedStrings_sorted_set (items : list unknown) :
  sorted_set_of (trimmed_entry items) (uniqSortedStrings items).
Proof.
  split; [|apply elem_of_uniqSortedStrings].
  apply StronglySorted_le_lt; [|apply NoDup_uniqSortedStrings].
  unfold uniqSortedStrings. apply StronglySorted_merge_sort; apply _.
Qed.

End PairingHelpers.

(** ** Merging roles and scopes *)

Section Merge.
Import JsString DevicePairing.

Lemma trimmed_entry_falsy (v : unknown) (x : string) :
  Js.truthy (Some v) = false -> ~ trimmed_entry [v] x.
Proof.
  intros Hv (Hx & s & Hs & Ht). apply list_elem_of_singleton in Hs. subst v.
  simpl in Hv. apply truthy_false_iff in Hv. subst s.
  apply Hx. symmetry. exact Ht.
Qed.

Lemma trimmed_entry_push_spread (xs : option (list unknown))
  (merged : list unknown) (x : string) :
  trimmed_entry (push_spread xs merged) x <->
  trimmed_entry merged x \/ trimmed_entry (default [] xs) x.
Proof.
  destruct xs as [l|]; simpl.
  - apply trimmed_entry_app.
  - pose proof (trimmed_entry_nil x). tauto.
Qed.

Lemma trimmed_entry_push_truthy (v : option unknown)
  (merged : list unknown) (x : string) :
  trimmed_entry (push_truthy v merged) x <->
  trimmed_entry merged x \/ trimmed_entry (option_entry v) x.
Proof.
  unfold push_truthy, option_entry. destruct v as [v|].
  - destruct (Js.truthy (Some v)) eqn:Hv.
    + apply trimmed_entry_app.
    + pose proof (trimmed_entry_falsy v x Hv). tauto.
  - pose proof (trimmed_entry_nil x). tauto.
Qed.

Lemma mergeScopes_sorted_set (existing : option PairedDevice.t)
  (pending : PendingRequest.t) :
  sorted_set_of (trimmed_entry (scopeSources existing pending))
    (mergeScopes existing pending).
Proof.
  unfold mergeScopes, scopeSources.
  eapply sorted_set_of_ext; [|apply uniqSortedStrings_sorted_set].
  intros x. rewrite !trimmed_entry_push_spread, trimmed_entry_app.
  pose proof (trimmed_entry_nil x). tauto.
Qed.

Lemma mergeRoles_out_sorted_set (existing : option PairedDevice.t)
  (pending : PendingRequest.t) :
  sorted_set_of (trimmed_entry (roleSources existing pending))
    (uniqSortedStrings
       (push_truthy (PendingRequest.role pending)
          (push_spread (PendingRequest.roles pending)
             (push_truthy (existing ≫= PairedDevice.role)
                (push_spread (existing ≫= PairedDevice.roles) []))))).
Proof.
  unfold roleSources.
  eapply sorted_set_of_ext; [|apply uniqSortedStrings_sorted_set].
  intros x.
  rewrite !trimmed_entry_push_truthy, !trimmed_entry_push_spread,
    !trimmed_entry_push_truthy, !trimmed_entry_push_spread, !trimmed_entry_app.
  pose proof (trimmed_entry_nil x). tauto.
Qed.

Lemma mergeRoles_spec (existing : option PairedDevice.t)
  (pending : PendingRequest.t) :
  match mergeRoles existing pending with
  | Some out =>
      out <> [] /\
      sorted_set_of (trimmed_entry (roleSources existing pending)) out
  | None => forall x, ~ trimmed_entry (roleSources existing pending) x
  end.
Proof.
  pose proof (mergeRoles_out_sorted_set existing pending) as Hout.
  unfold mergeRoles. cbv zeta.
  destruct (uniqSortedStrings _) as [|y out] eqn:E.
  - intros x Hx. apply Hout in Hx. inversion Hx.
  - split; [discriminate | exact Hout].
Qed.

(** C4 (as amended). The merged role list is the ascending list, without
    repetition, of the trimmed non-empty strings among the existing device's
    role list, its singular role, the request's role list and its singular
    role; it is absent exactly when there is no such string. The merged scope
    list is the same for the scopes of the device and of the request, and is
    always a list. Both depend only on which entries occur, not on their
    order or multiplicity. *)
Theorem merge_is_sorted_union_of_trimmed_entries
  (existing : option PairedDevice.t) (pending : PendingRequest.t) :
  match mergeRoles existing pending with
  | Some out =>
      out <> [] /\
      sorted_set_of (trimmed_entry (roleSources existing pending)) out
  | None => forall x, ~ trimmed_entry (roleSources existing pending) x
  end
  /\ sorted_set_of (trimmed_entry (scopeSources existing pending))
       (mergeScopes existing pending)
  /\ (forall existing' pending',
        (forall v, v ∈ roleSources existing pending <->
                   v ∈ roleSources existing' pending') ->
        mergeRoles existing pending = mergeRoles existing' pending')
  /\ (forall existing' pending',
        (forall v, v ∈ scopeSources existing pending <->
                   v ∈ scopeSources existing' pending') ->
        mergeScopes existing pending = mergeScopes existing' pending').
Proof.
  split; [apply mergeRoles_spec|].
  split; [apply mergeScopes_sorted_set|].
  split.
  - intros existing' pending' Hsame.
    pose proof (mergeRoles_out_sorted_set existing pending) as H1.
    pose proof (mergeRoles_out_sorted_set existing' pending') as H2.
    unfold mergeRoles. cbv zeta.
    rewrite (sorted_set_of_unique _ _ _ H1
               (sorted_set_of_ext _ _ _
                  (fun x => symmetry (trimmed_entry_ext _ _ x Hsame)) H2)).
    reflexivity.
  - intros existing' pending' Hsame.
    apply (sorted_set_of_unique _ _ _ (mergeScopes_sorted_set existing pending)).
    eapply sorted_set_of_ext; [|apply mergeScopes_sorted_set].
    intros x. symmetry. apply trimmed_entry_ext. exact Hsame.
Qed.

(** C4 as stated fails: a request whose role list is [[" a"]] gets the merged
    role list [["a"]], which is not the set of the entries themselves. *)
Lemma merge_is_not_plain_union :
  ~ (forall existing pending,
       match mergeRoles existing pending with
       | Some out =>
           sorted_set_of (plain_entry (roleSources existing pending)) out
       | None => forall x, ~ plain_entry (roleSources existing pending) x
       end).
Proof.
  intros H.
  specialize (H None (Sample.request "r" None None (Some [UStr " a"]) None)).
  change (sorted_set_of (plain_entry [UStr " a"]) ["a"]) in H.
  destruct H as [_ H]. specialize (H "a"). unfold plain_entry in H.
  assert (Hin : "a" ∈ ["a"]) by (apply list_elem_of_singleton; reflexivity).
  apply H in Hin. apply list_elem_of_singleton in Hin. discriminate.
Qed.

Lemma merge_is_sorted_union_of_trimmed_entries_witness :
  mergeRoles None
    (Sample.request "r" None (Some (UStr "b")) (Some [UStr "a"; UStr " b "]) None)
  = mergeRoles None
      (Sample.request "r" None (Some (UStr " b ")) (Some [UStr "b"; UStr "a"]) None).
Proof.
  apply (proj1 (proj2 (proj2
    (merge_is_sorted_union_of_trimmed_entries None
       (Sample.request "r" None (Some (UStr "b")) (Some [UStr "a"; UStr " b "]) None))))).
  intros v. unfold roleSources. simpl.
  rewrite !elem_of_cons, !elem_of_nil. tauto.
Defined.

(** The example of the specification: roles [{a,b}] on the device and
    [{b,c}] on the request merge to [a; b; c]. *)
Example merge_roles_abc :
  mergeRoles
    (Some (Sample.device "d" (Some [UStr "b"; UStr "a"]) None None))
    (Sample.request "r" None None (Some [UStr "c"; UStr "b"]) None)
  = Some ["a"; "b"; "c"].
Proof. reflexivity. Qed.

End Merge.

(** ** Property access *)

Section PropertyFacts.
Context {A : Type}.
Implicit Types (obj : gmap string A) (key : string).

Lemma get_own obj key v : obj !! key = Some v -> Js.get obj key = Js.Own v.
Proof. intros H. unfold Js.get. rewrite H. reflexivity. Qed.

Lemma get_Own_iff obj key v : Js.get obj key = Js.Own v <-> obj !! key = Some v.
Proof.
  split; [|apply get_own]. unfold Js.get.
  destruct (obj !! key); [congruence|]. destruct (Js.inherited key); discriminate.
Qed.

Lemma get_Missing_iff obj key :
  Js.get obj key = Js.Missing <-> obj !! key = None /\ Js.inherited key = false.
Proof.
  unfold Js.get. destruct (obj !! key); [split; [discriminate|intros [? _]; discriminate]|].
  destruct (Js.inherited key); split; try discriminate; auto.
  intros [_ ?]; discriminate.
Qed.

Lemma get_Inherited_iff obj key :
  Js.get obj key = Js.Inherited <-> obj !! key = None /\ Js.inherited key = true.
Proof.
  unfold Js.get. destruct (obj !! key); [split; [discriminate|intros [? _]; discriminate]|].
  destruct (Js.inherited key); split; try discriminate; auto.
  intros [_ ?]; discriminate.
Qed.

Lemma inherited_true_iff key : Js.inherited key = true <-> key ∈ Js.objectPrototype.
Proof. apply bool_decide_eq_true. Qed.

Lemma inherited_false_iff key : Js.inherited key = false <-> key ∉ Js.objectPrototype.
Proof. apply bool_decide_eq_false. Qed.

(** Reading the properties of [obj[key]] sees the own entry only. *)
Lemma own_get obj key : Js.own (Js.get obj key) = obj !! key.
Proof.
  unfold Js.get. destruct (obj !! key); [reflexivity|].
  destruct (Js.inherited key); reflexivity.
Qed.

Lemma found_get_own obj key : is_Some (obj !! key) -> Js.found (Js.get obj key) = true.
Proof. intros [v Hv]. rewrite (get_own _ _ _ Hv). reflexivity. Qed.

Lemma found_false_iff obj key :
  Js.found (Js.get obj key) = false <-> Js.get obj key = Js.Missing.
Proof. destruct (Js.get obj key); split; (discriminate || reflexivity). Qed.

(** Away from [__proto__], an assignment sets an own property. *)
Lemma assign_insert obj key v :
  key <> "__proto__" -> Js.assign obj key v = <[key := v]> obj.
Proof.
  intros Hk. unfold Js.assign. destruct (obj !! key); [reflexivity|].
  rewrite bool_decide_eq_false_2 by exact Hk. reflexivity.
Qed.

Lemma assign_missing obj key v :
  Js.get obj key = Js.Missing -> Js.assign obj key v = <[key := v]> obj.
Proof.
  intros [_ Hi]%get_Missing_iff. apply assign_insert. intros ->. discriminate Hi.
Qed.

End PropertyFacts.

(** [String(n)] leaves plain decimal notation at [10^21]; the exponent form
    contains a plus sign, which no identifier may. *)
Example numberToString_examples :
  Js.toString (UNum 1767225600000) = "1767225600000"
  /\ Js.toString (UNum (-42)) = "-42"
  /\ Js.toString (UNum (10 ^ 20)) = "100000000000000000000"
  /\ Js.toString (UNum (10 ^ 21)) = "1e+21"
  /\ Js.toString (UNum (-15 * 10 ^ 21)) = "-1.5e+22"
  /\ DevicePairing.isValidId (Js.toString (UNum (10 ^ 21))) = false.
Proof. repeat split; vm_compute; reflexivity. Qed.

(** ** The approval *)

Section Approval.
Import JsString DevicePairing.

Lemma trimmedDeviceId_valid (pending : PendingRequest.t) (d : string) :
  PendingRequest.deviceId pending = Some (UStr d) -> isValidId d = true ->
  trimmedDeviceId pending = d.
Proof.
  intros Hd Hv. unfold trimmedDeviceId. rewrite Hd. simpl.
  apply isValidId_trim. exact Hv.
Qed.

Lemma roleForToken_valid (pending : PendingRequest.t) (r : string) :
  PendingRequest.role pending = Some (UStr r) -> isValidId r = true ->
  roleForToken pending = r.
Proof.
  intros Hr Hv. unfold roleForToken. rewrite Hr. simpl.
  apply isValidId_trim. exact Hv.
Qed.

Lemma roleForToken_blank (pending : PendingRequest.t) :
  PendingRequest.role pending = None
  \/ (exists s, PendingRequest.role pending = Some (UStr s) /\ trim s = "") ->
  roleForToken pending = "".
Proof.
  unfold roleForToken. intros [->|(s & -> & Hs)]; [reflexivity | exact Hs].
Qed.

(** When the request exists and its identifiers pass validation, the
    approval returns, and this is what it returns. *)
Lemma approvePairing_ok (now : Z) (freshToken : string)
  (pendingById : gmap string PendingRequest.t)
  (pairedByDeviceId : gmap string PairedDevice.t)
  (requestId : string) (pending : PendingRequest.t) :
  pendingById !! requestId = Some pending ->
  isValidId (trimmedDeviceId pending) = true ->
  roleForToken pending = "" \/ isValidId (roleForToken pending) = true ->
  approvePairing now freshToken pendingById pairedByDeviceId requestId =
  inr {| deviceId := trimmedDeviceId pending;
         updatedPendingById := delete requestId pendingById;
         updatedPairedByDeviceId :=
           <[trimmedDeviceId pending :=
               approvedDevice now freshToken (trimmedDeviceId pending) pending
                 (pairedByDeviceId !! trimmedDeviceId pending)]>
             pairedByDeviceId |}.
Proof.
  intros Hp Hd Hr. unfold approvePairing. rewrite (get_own _ _ _ Hp).
  cbv zeta. rewrite own_get.
  rewrite (isValidId_truthy _ Hd), Hd. simpl.
  destruct Hr as [Hr|Hr]; rewrite Hr; simpl; [reflexivity|].
  rewrite andb_false_r. reflexivity.
Qed.

(** Conversely, an approval that returns has passed validation. *)
Lemma approvePairing_inr (now : Z) (freshToken : string)
  (pendingById : gmap string PendingRequest.t)
  (pairedByDeviceId : gmap string PairedDevice.t)
  (requestId : string) (res : ApprovalResult) :
  approvePairing now freshToken pendingById pairedByDeviceId requestId = inr res ->
  exists pending,
    pendingById !! requestId = Some pending
    /\ isValidId (trimmedDeviceId pending) = true
    /\ (roleForToken pending = "" \/ isValidId (roleForToken pending) = true).
Proof.
  unfold approvePairing.
  destruct (Js.get pendingById requestId) as [pending| |] eqn:Hg;
    [|discriminate|discriminate]. apply get_Own_iff in Hg. cbv zeta.
  destruct (truthy (trimmedDeviceId pending)); simpl; [|discriminate].
  destruct (isValidId (trimmedDeviceId pending)) eqn:Hd; simpl; [|discriminate].
  destruct (truthy (roleForToken pending)) eqn:Ht; simpl.
  - destruct (isValidId (roleForToken pending)) eqn:Hr; simpl; [|discriminate].
    intros _. exists pending. auto.
  - intros _. exists pending. apply truthy_false_iff in Ht. auto.
Qed.

Lemma approvedTokens_no_role (now : Z) (freshToken : string)
  (pending : PendingRequest.t) (existing : option PairedDevice.t) :
  roleForToken pending = "" ->
  approvedTokens now freshToken pending existing =
  default ∅ (existing ≫= PairedDevice.tokens).
Proof. intros Hr. unfold approvedTokens. rewrite Hr. reflexivity. Qed.

Lemma approvedTokens_role (now : Z) (freshToken : string)
  (pending : PendingRequest.t) (existing : option PairedDevice.t) :
  roleForToken pending <> "" ->
  approvedTokens now freshToken pending existing =
  <[roleForToken pending :=
      rotateToken now freshToken (roleForToken pending) pending
        (Js.get (default ∅ (existing ≫= PairedDevice.tokens))
           (roleForToken pending))]>
    (default ∅ (existing ≫= PairedDevice.tokens)).
Proof.
  intros Hr%truthy_true_iff. unfold approvedTokens. rewrite Hr. reflexivity.
Qed.

(** A request id that [pendingById[requestId]] does not find is the
    [NotFound] failure. *)
Lemma approvePairing_not_found (now : Z) (freshToken : string)
  (pendingById : gmap string PendingRequest.t)
  (pairedByDeviceId : gmap string PairedDevice.t) (requestId : string) :
  Js.get pendingById requestId = Js.Missing ->
  approvePairing now freshToken pendingById pairedByDeviceId requestId
  = inl (RequestNotFound requestId).
Proof. intros Hp. unfold approvePairing. rewrite Hp. reflexivity. Qed.

(** A request id that is no key of the collection and names a member of
    [Object.prototype] is found all the same, and has no device id. *)
Lemma approvePairing_inherited (now : Z) (freshToken : string)
  (pendingById : gmap string PendingRequest.t)
  (pairedByDeviceId : gmap string PairedDevice.t) (requestId : string) :
  Js.get pendingById requestId = Js.Inherited ->
  approvePairing now freshToken pendingById pairedByDeviceId requestId
  = inl (MissingDeviceId requestId).
Proof. intros Hp. unfold approvePairing. rewrite Hp. reflexivity. Qed.

(** C1. Round trip of an approval: the request exists, its device id [d] and
    its role [r], read as [approvePairing] reads them, are well-formed
    identifiers, and [d] is not paired yet. Then the approval returns [d]; the
    new paired collection maps [d] to a device whose token map has the single
    key [r]; the new pending collection is the old one without the request;
    every other pending entry and every device paired before is unchanged. *)
Theorem approve_round_trip (now : Z) (freshToken : string)
  (pendingById : gmap string PendingRequest.t)
  (pairedByDeviceId : gmap string PairedDevice.t)
  (requestId : string) (pending : PendingRequest.t) (d r : string) :
  pendingById !! requestId = Some pending ->
  trimmedDeviceId pending = d -> isValidId d = true ->
  roleForToken pending = r -> isValidId r = true ->
  pairedByDeviceId !! d = None ->
  exists res dev tk,
    approvePairing now freshToken pendingById pairedByDeviceId requestId = inr res
    /\ deviceId res = d
    /\ updatedPairedByDeviceId res !! d = Some dev
    /\ PairedDevice.deviceId dev = d
    /\ PairedDevice.tokens dev = Some {[ r := tk ]}
    /\ DeviceToken.role tk = r
    /\ DeviceToken.token tk = freshToken
    /\ updatedPendingById res = delete requestId pendingById
    /\ updatedPendingById res !! requestId = None
    /\ (forall requestId', requestId' <> requestId ->
          updatedPendingById res !! requestId' = pendingById !! requestId')
    /\ (forall d' dev', pairedByDeviceId !! d' = Some dev' ->
          updatedPairedByDeviceId res !! d' = Some dev').
Proof.
  intros Hp Hd Hvd Hr Hvr Hnew. subst d r.
  eexists _, _, _. split.
  { apply approvePairing_ok; [exact Hp | exact Hvd | right; exact Hvr]. }
  simpl. split; [reflexivity|].
  split; [apply lookup_insert_eq|].
  split; [reflexivity|].
  split.
  { simpl. rewrite approvedTokens_role, Hnew.
    - simpl. rewrite insert_empty. reflexivity.
    - apply truthy_true_iff, isValidId_truthy, Hvr. }
  simpl.
  split; [reflexivity|]. split; [reflexivity|]. split; [reflexivity|].
  split; [apply lookup_delete_eq|].
  split.
  - intros requestId' Hne. apply lookup_delete_ne. congruence.
  - intros d' dev' Hd'. rewrite lookup_insert_ne; [exact Hd'|].
    intros <-. congruence.
Qed.

Lemma approve_round_trip_witness :
  exists res dev tk,
    approvePairing 5 "tok" {[ "r1" := Sample.r1 ]} ∅ "r1" = inr res
    /\ deviceId res = "dev-A"
    /\ updatedPairedByDeviceId res !! "dev-A" = Some dev
    /\ PairedDevice.deviceId dev = "dev-A"
    /\ PairedDevice.tokens dev = Some {[ "operator" := tk ]}
    /\ DeviceToken.role tk = "operator"
    /\ DeviceToken.token tk = "tok"
    /\ updatedPendingById res = delete "r1" {[ "r1" := Sample.r1 ]}
    /\ updatedPendingById res !! "r1" = None
    /\ (forall requestId', requestId' <> "r1" ->
          updatedPendingById res !! requestId'
          = ({[ "r1" := Sample.r1 ]} : gmap string PendingRequest.t) !! requestId')
    /\ (forall d' dev', (∅ : gmap string PairedDevice.t) !! d' = Some dev' ->
          updatedPairedByDeviceId res !! d' = Some dev').
Proof.
  apply (approve_round_trip 5 "tok" {[ "r1" := Sample.r1 ]} ∅ "r1" Sample.r1
           "dev-A" "operator"); reflexivity.
Defined.

(** The concrete scenario of the specification: the merged role list of a
    request with the singular role ["operator"] only is [["operator"]]. *)
Example approve_concrete_scenario :
  exists res dev,
    approvePairing 5 "tok" {[ "r1" := Sample.r1 ]} ∅ "r1" = inr res
    /\ deviceId res = "dev-A"
    /\ updatedPendingById res = ∅
    /\ updatedPairedByDeviceId res = {[ "dev-A" := dev ]}
    /\ PairedDevice.roles dev = Some [UStr "operator"]
    /\ PairedDevice.scopes dev = Some [UStr "chat"]
    /\ dom <$> PairedDevice.tokens dev = Some {[ "operator" ]}.
Proof.
  eexists _, _. split; [reflexivity|]. simpl.
  split; [reflexivity|]. split; [apply delete_singleton_eq|].
  split; [apply insert_empty|].
  split; [reflexivity|]. split; [reflexivity|]. vm_compute. reflexivity.
Qed.

(** C3 (as amended). The request exists, and its device id is empty after
    trimming, or its device id after trimming, or its role after trimming,
    contains a character outside the safe set. Then the approval fails with an
    [InvalidRequest] error; it returns no collections. *)
Theorem approve_rejects_malformed (now : Z) (freshToken : string)
  (pendingById : gmap string PendingRequest.t)
  (pairedByDeviceId : gmap string PairedDevice.t)
  (requestId : string) (pending : PendingRequest.t) :
  pendingById !! requestId = Some pending ->
  trimmedDeviceId pending = ""
  \/ has_unsafe_char (trimmedDeviceId pending)
  \/ has_unsafe_char (roleForToken pending) ->
  exists e,
    approvePairing now freshToken pendingById pairedByDeviceId requestId = inl e
    /\ kind e = InvalidRequest.
Proof.
  intros Hp Hbad. unfold approvePairing. rewrite (get_own _ _ _ Hp). cbv zeta.
  destruct (truthy (trimmedDeviceId pending)) eqn:Ht; simpl;
    [|eexists; split; reflexivity].
  destruct (isValidId (trimmedDeviceId pending)) eqn:Hv; simpl;
    [|eexists; split; reflexivity].
  destruct Hbad as [Hbad|[Hbad|Hbad]].
  - apply truthy_true_iff in Ht. contradiction.
  - apply has_unsafe_char_invalid in Hbad. congruence.
  - rewrite (has_unsafe_char_invalid _ Hbad).
    apply has_unsafe_char_nonempty, truthy_true_iff in Hbad. rewrite Hbad.
    simpl. eexists; split; reflexivity.
Qed.

Lemma approve_rejects_malformed_witness :
  exists e,
    approvePairing 5 "tok"
      {[ "r1" := Sample.request "r1" (Some (UStr "../etc")) None None None ]}
      ∅ "r1" = inl e
    /\ kind e = InvalidRequest.
Proof.
  apply (approve_rejects_malformed 5 "tok" _ ∅ "r1"
           (Sample.request "r1" (Some (UStr "../etc")) None None None)).
  - reflexivity.
  - right. left. reflexivity.
Defined.

(** C3 as stated fails: the device id [" dev-A"] contains a space, which is
    outside the safe set, and the approval succeeds, for the device ["dev-A"]. *)
Lemma approve_accepts_padded_device_id :
  ~ (forall now freshToken pendingById pairedByDeviceId requestId pending d,
       pendingById !! requestId = Some pending ->
       PendingRequest.deviceId pending = Some (UStr d) ->
       trim d = "" \/ has_unsafe_char d
       \/ (exists r, PendingRequest.role pending = Some (UStr r)
                     /\ has_unsafe_char r) ->
       exists e,
         approvePairing now freshToken pendingById pairedByDeviceId requestId
         = inl e /\ kind e = InvalidRequest).
Proof.
  intros H.
  destruct (H 5 "tok"
              {[ "r1" := Sample.request "r1" (Some (UStr " dev-A")) None None None ]}
              ∅ "r1"
              (Sample.request "r1" (Some (UStr " dev-A")) None None None)
              " dev-A") as (e & He & _).
  - reflexivity.
  - reflexivity.
  - right. left. reflexivity.
  - vm_compute in He. discriminate He.
Qed.

(** C8. A request whose role is absent, or blank after trimming, rotates no
    token: the approved device carries the token map of the device paired
    before, and the empty map when there was none. *)
Theorem approve_without_role_keeps_tokens (now : Z) (freshToken : string)
  (pendingById : gmap string PendingRequest.t)
  (pairedByDeviceId : gmap string PairedDevice.t)
  (requestId : string) (pending : PendingRequest.t) :
  pendingById !! requestId = Some pending ->
  isValidId (trimmedDeviceId pending) = true ->
  PendingRequest.role pending = None
  \/ (exists s, PendingRequest.role pending = Some (UStr s) /\ trim s = "") ->
  exists res dev,
    approvePairing now freshToken pendingById pairedByDeviceId requestId = inr res
    /\ updatedPairedByDeviceId res !! deviceId res = Some dev
    /\ PairedDevice.tokens dev =
         Some (default ∅ (pairedByDeviceId !! deviceId res ≫= PairedDevice.tokens))
    /\ (pairedByDeviceId !! deviceId res = None -> PairedDevice.tokens dev = Some ∅).
Proof.
  intros Hp Hd Hr%roleForToken_blank.
  eexists _, _. split.
  { apply approvePairing_ok; [exact Hp | exact Hd | left; exact Hr]. }
  simpl. split; [apply lookup_insert_eq|].
  simpl. rewrite approvedTokens_no_role by exact Hr.
  split; [reflexivity|]. intros ->. reflexivity.
Qed.

Lemma approve_without_role_keeps_tokens_witness :
  exists res dev,
    approvePairing 5 "tok"
      {[ "r1" := Sample.request "r1" (Some (UStr "dev-A")) None None None ]}
      ∅ "r1" = inr res
    /\ updatedPairedByDeviceId res !! deviceId res = Some dev
    /\ PairedDevice.tokens dev =
         Some (default ∅ ((∅ : gmap string PairedDevice.t) !! deviceId res
                           ≫= PairedDevice.tokens))
    /\ ((∅ : gmap string PairedDevice.t) !! deviceId res = None ->
        PairedDevice.tokens dev = Some ∅).
Proof.
  apply (approve_without_role_keeps_tokens 5 "tok" _ ∅ "r1"
           (Sample.request "r1" (Some (UStr "dev-A")) None None None)).
  - reflexivity.
  - reflexivity.
  - left. reflexivity.
Defined.

(** C10. An approval that rotates a token gives it the scopes of the request
    alone: the ascending list, without repetition, of the trimmed non-empty
    strings among the request's scope entries. A scope that only the device
    paired before carries is in the device's merged scope list and not in
    the token's. *)
Theorem rotated_token_scopes_from_request (now : Z) (freshToken : string)
  (pendingById : gmap string PendingRequest.t)
  (pairedByDeviceId : gmap string PairedDevice.t)
  (requestId : string) (pending : PendingRequest.t) :
  pendingById !! requestId = Some pending ->
  isValidId (trimmedDeviceId pending) = true ->
  isValidId (roleForToken pending) = true ->
  exists res dev tokens tk,
    approvePairing now freshToken pendingById pairedByDeviceId requestId = inr res
    /\ updatedPairedByDeviceId res !! deviceId res = Some dev
    /\ PairedDevice.tokens dev = Some tokens
    /\ tokens !! roleForToken pending = Some tk
    /\ DeviceToken.scopes tk =
         uniqSortedStrings (default [] (PendingRequest.scopes pending))
    /\ sorted_set_of
         (trimmed_entry (default [] (PendingRequest.scopes pending)))
         (DeviceToken.scopes tk)
    /\ PairedDevice.scopes dev =
         Some (UStr <$> mergeScopes (pairedByDeviceId !! deviceId res) pending)
    /\ (forall x,
          trimmed_entry
            (default [] (pairedByDeviceId !! deviceId res ≫= PairedDevice.scopes)) x ->
          ~ trimmed_entry (default [] (PendingRequest.scopes pending)) x ->
          (x ∉ DeviceToken.scopes tk)
          /\ x ∈ mergeScopes (pairedByDeviceId !! deviceId res) pending).
Proof.
  intros Hp Hd Hr.
  eexists _, _, _, _. split.
  { apply approvePairing_ok; [exact Hp | exact Hd | right; exact Hr]. }
  simpl. split; [apply lookup_insert_eq|].
  split; [reflexivity|].
  split.
  { rewrite approvedTokens_role.
    - apply lookup_insert_eq.
    - apply truthy_true_iff, isValidId_truthy, Hr. }
  simpl.
  split; [reflexivity|].
  split; [apply uniqSortedStrings_sorted_set|].
  split; [reflexivity|].
  intros x Hold Hnew. split.
  - rewrite elem_of_uniqSortedStrings. exact Hnew.
  - apply (mergeScopes_sorted_set _ pending). unfold scopeSources.
    apply trimmed_entry_app. left. exact Hold.
Qed.

Lemma rotated_token_scopes_from_request_witness :
  exists res dev tokens tk,
    approvePairing 5 "tok" {[ "r1" := Sample.r1 ]}
      {[ "dev-A" := Sample.device "dev-A" None (Some [UStr "admin"]) None ]} "r1"
    = inr res
    /\ updatedPairedByDeviceId res !! deviceId res = Some dev
    /\ PairedDevice.tokens dev = Some tokens
    /\ tokens !! roleForToken Sample.r1 = Some tk
    /\ DeviceToken.scopes tk =
         uniqSortedStrings (default [] (PendingRequest.scopes Sample.r1))
    /\ sorted_set_of
         (trimmed_entry (default [] (PendingRequest.scopes Sample.r1)))
         (DeviceToken.scopes tk)
    /\ PairedDevice.scopes dev =
         Some (UStr <$>
                 mergeScopes
                   (({[ "dev-A" := Sample.device "dev-A" None (Some [UStr "admin"]) None ]}
                     : gmap string PairedDevice.t) !! deviceId res) Sample.r1)
    /\ (forall x,
          trimmed_entry
            (default []
               (({[ "dev-A" := Sample.device "dev-A" None (Some [UStr "admin"]) None ]}
                 : gmap string PairedDevice.t) !! deviceId res
                ≫= PairedDevice.scopes)) x ->
          ~ trimmed_entry (default [] (PendingRequest.scopes Sample.r1)) x ->
          (x ∉ DeviceToken.scopes tk)
          /\ x ∈ mergeScopes
                 (({[ "dev-A" := Sample.device "dev-A" None (Some [UStr "admin"]) None ]}
                   : gmap string PairedDevice.t) !! deviceId res) Sample.r1).
Proof.
  apply (rotated_token_scopes_from_request 5 "tok" {[ "r1" := Sample.r1 ]}
           {[ "dev-A" := Sample.device "dev-A" None (Some [UStr "admin"]) None ]}
           "r1" Sample.r1); reflexivity.
Defined.

(** The scopes of the rotated token and of the device do differ: the device
    had the scope ["admin"] and the request asks for ["chat"]. *)
Example token_scopes_differ_from_device_scopes :
  approvedTokens 5 "tok" Sample.r1
    (Some (Sample.device "dev-A" None (Some [UStr "admin"]) None)) !! "operator"
  ≫= (fun tk => Some (DeviceToken.scopes tk)) = Some ["chat"]
  /\ mergeScopes (Some (Sample.device "dev-A" None (Some [UStr "admin"]) None))
       Sample.r1 = ["admin"; "chat"].
Proof. split; reflexivity. Qed.

(** C5 (as amended). The same device id is approved twice, the second time
    on the paired collection the first approval produced. The device record
    of the first approval carries the creation time of the device paired
    before, or the first approval time when there was none or it had no
    creation time; the record of the second approval carries that same
    creation time, and the second approval time as its approval time. When
    both requests carry the same non-blank role: the first token has the
    creation time and the last-used time of the token held before for that
    role (the first approval time, and no last-used time, when none was
    held); the second token has the value drawn at the second approval - it
    equals the first token's value exactly when the two draws are equal -,
    the creation time and the last-used time of the first token, the second
    approval time as rotation time and no revocation time. *)
Theorem reapproval_keeps_creation_time
  (now1 : Z) (token1 : string) (pending1 : gmap string PendingRequest.t)
  (paired1 : gmap string PairedDevice.t) (requestId1 : string)
  (request1 : PendingRequest.t)
  (now2 : Z) (token2 : string) (pending2 : gmap string PendingRequest.t)
  (requestId2 : string) (request2 : PendingRequest.t) (d : string) :
  pending1 !! requestId1 = Some request1 ->
  pending2 !! requestId2 = Some request2 ->
  trimmedDeviceId request1 = d -> trimmedDeviceId request2 = d ->
  isValidId d = true ->
  roleForToken request1 = "" \/ isValidId (roleForToken request1) = true ->
  roleForToken request2 = "" \/ isValidId (roleForToken request2) = true ->
  exists res1 res2 dev1 dev2,
    approvePairing now1 token1 pending1 paired1 requestId1 = inr res1
    /\ approvePairing now2 token2 pending2 (updatedPairedByDeviceId res1) requestId2
       = inr res2
    /\ updatedPairedByDeviceId res1 !! d = Some dev1
    /\ updatedPairedByDeviceId res2 !! d = Some dev2
    /\ PairedDevice.createdAtMs dev1 =
         Some (default now1 (paired1 !! d ≫= PairedDevice.createdAtMs))
    /\ PairedDevice.createdAtMs dev2 = PairedDevice.createdAtMs dev1
    /\ PairedDevice.approvedAtMs dev1 = now1
    /\ PairedDevice.approvedAtMs dev2 = now2
    /\ (forall r, roleForToken request1 = r -> roleForToken request2 = r ->
          r <> "" ->
          exists tokens1 tokens2 tk1 tk2,
            PairedDevice.tokens dev1 = Some tokens1
            /\ PairedDevice.tokens dev2 = Some tokens2
            /\ tokens1 !! r = Some tk1
            /\ tokens2 !! r = Some tk2
            /\ DeviceToken.token tk1 = token1
            /\ DeviceToken.token tk2 = token2
            /\ (DeviceToken.token tk2 = DeviceToken.token tk1 <-> token2 = token1)
            /\ DeviceToken.createdAtMs tk1 =
                 Some (default now1 (heldToken paired1 d r ≫= DeviceToken.createdAtMs))
            /\ DeviceToken.lastUsedAtMs tk1 =
                 heldToken paired1 d r ≫= DeviceToken.lastUsedAtMs
            /\ DeviceToken.createdAtMs tk2 = DeviceToken.createdAtMs tk1
            /\ DeviceToken.rotatedAtMs tk2 = Some now2
            /\ DeviceToken.revokedAtMs tk2 = None
            /\ DeviceToken.lastUsedAtMs tk2 = DeviceToken.lastUsedAtMs tk1).
Proof.
  intros Hp1 Hp2 Hd1 Hd2 Hv Hr1 Hr2.
  pose proof (approvePairing_ok now1 token1 pending1 paired1 requestId1 request1
                Hp1 ltac:(rewrite Hd1; exact Hv) Hr1) as E1.
  rewrite Hd1 in E1.
  eexists _, _, _, _. split; [exact E1|]. simpl.
  split.
  { rewrite (approvePairing_ok now2 token2 pending2 _ requestId2 request2
               Hp2 ltac:(rewrite Hd2; exact Hv) Hr2).
    rewrite Hd2. reflexivity. }
  split; [apply lookup_insert_eq|].
  split; [apply lookup_insert_eq|].
  rewrite !lookup_insert_eq. simpl.
  split; [reflexivity|].
  split; [reflexivity|]. split; [reflexivity|]. split; [reflexivity|].
  intros r Hrole1 Hrole2 Hr.
  eexists _, _, _, _.
  split; [reflexivity|]. split; [reflexivity|].
  split.
  { rewrite approvedTokens_role by congruence. rewrite Hrole1.
    apply lookup_insert_eq. }
  split.
  { rewrite (approvedTokens_role now2) by congruence. rewrite Hrole2.
    apply lookup_insert_eq. }
  simpl. rewrite approvedTokens_role by congruence. rewrite Hrole1.
  rewrite (get_own _ r _ (lookup_insert_eq _ _ _)). simpl.
  rewrite !own_get.
  split; [reflexivity|]. split; [reflexivity|].
  split; [reflexivity|].
  unfold heldToken.
  destruct (paired1 !! d) as [before|]; simpl;
    [destruct (PairedDevice.tokens before) as [held|]; simpl|];
    rewrite ?lookup_empty; repeat split; reflexivity.
Qed.

Lemma reapproval_keeps_creation_time_witness :
  exists res1 res2 dev1 dev2,
    approvePairing 5 "t1" {[ "r1" := Sample.r1 ]} SampleRun.pairedBefore "r1"
    = inr res1
    /\ approvePairing 9 "t2" {[ "r2" := Sample.r2 ]} (updatedPairedByDeviceId res1) "r2"
       = inr res2
    /\ updatedPairedByDeviceId res1 !! "dev-A" = Some dev1
    /\ updatedPairedByDeviceId res2 !! "dev-A" = Some dev2
    /\ PairedDevice.createdAtMs dev1 =
         Some (default 5 (SampleRun.pairedBefore !! "dev-A"
                          ≫= PairedDevice.createdAtMs))
    /\ PairedDevice.createdAtMs dev2 = PairedDevice.createdAtMs dev1
    /\ PairedDevice.approvedAtMs dev1 = 5
    /\ PairedDevice.approvedAtMs dev2 = 9
    /\ (forall r, roleForToken Sample.r1 = r -> roleForToken Sample.r2 = r ->
          r <> "" ->
          exists tokens1 tokens2 tk1 tk2,
            PairedDevice.tokens dev1 = Some tokens1
            /\ PairedDevice.tokens dev2 = Some tokens2
            /\ tokens1 !! r = Some tk1
            /\ tokens2 !! r = Some tk2
            /\ DeviceToken.token tk1 = "t1"
            /\ DeviceToken.token tk2 = "t2"
            /\ (DeviceToken.token tk2 = DeviceToken.token tk1 <-> "t2" = "t1")
            /\ DeviceToken.createdAtMs tk1 =
                 Some (default 5 (heldToken SampleRun.pairedBefore "dev-A" r
                                  ≫= DeviceToken.createdAtMs))
            /\ DeviceToken.lastUsedAtMs tk1 =
                 heldToken SampleRun.pairedBefore "dev-A" r
                 ≫= DeviceToken.lastUsedAtMs
            /\ DeviceToken.createdAtMs tk2 = DeviceToken.createdAtMs tk1
            /\ DeviceToken.rotatedAtMs tk2 = Some 9
            /\ DeviceToken.revokedAtMs tk2 = None
            /\ DeviceToken.lastUsedAtMs tk2 = DeviceToken.lastUsedAtMs tk1).
Proof.
  apply (reapproval_keeps_creation_time 5 "t1" {[ "r1" := Sample.r1 ]}
           SampleRun.pairedBefore "r1"
           Sample.r1 9 "t2" {[ "r2" := Sample.r2 ]} "r2" Sample.r2 "dev-A");
    try reflexivity; right; reflexivity.
Defined.

(** The times of the sample run: the device created at 1 and its token
    created at 2 and last used at 4 keep these times through both approvals. *)
Example reapproval_sample_times :
  exists res1 res2,
    approvePairing 5 "t1" {[ "r1" := Sample.r1 ]} SampleRun.pairedBefore "r1"
    = inr res1
    /\ approvePairing 9 "t2" {[ "r2" := Sample.r2 ]} (updatedPairedByDeviceId res1) "r2"
       = inr res2
    /\ updatedPairedByDeviceId res2 !! "dev-A" ≫= PairedDevice.createdAtMs = Some 1
    /\ heldToken (updatedPairedByDeviceId res2) "dev-A" "operator"
       = Some {| DeviceToken.token := "t2";
                 DeviceToken.role := "operator";
                 DeviceToken.scopes := ["chat"; "files"];
                 DeviceToken.createdAtMs := Some 2;
                 DeviceToken.rotatedAtMs := Some 9;
                 DeviceToken.revokedAtMs := None;
                 DeviceToken.lastUsedAtMs := Some 4 |}.
Proof.
  eexists _, _. split; [reflexivity|]. split; [reflexivity|].
  split; vm_compute; reflexivity.
Qed.

(** C5 as stated fails: nothing compares the value that [newToken()] returns
    with the value stored before, so when the two draws coincide - here both
    are [SampleRun.drawnToken] - the second token carries the value of the
    first. *)
Lemma reapproval_can_repeat_token_value :
  ~ (forall now1 token1 pending1 paired1 requestId1 request1
            now2 token2 pending2 requestId2 request2 d r
            res1 res2 dev1 dev2 tokens1 tokens2 tk1 tk2,
       pending1 !! requestId1 = Some request1 ->
       pending2 !! requestId2 = Some request2 ->
       trimmedDeviceId request1 = d -> trimmedDeviceId request2 = d ->
       roleForToken request1 = r -> roleForToken request2 = r -> r <> "" ->
       approvePairing now1 token1 pending1 paired1 requestId1 = inr res1 ->
       approvePairing now2 token2 pending2 (updatedPairedByDeviceId res1) requestId2
       = inr res2 ->
       updatedPairedByDeviceId res1 !! d = Some dev1 ->
       updatedPairedByDeviceId res2 !! d = Some dev2 ->
       PairedDevice.tokens dev1 = Some tokens1 ->
       PairedDevice.tokens dev2 = Some tokens2 ->
       tokens1 !! r = Some tk1 -> tokens2 !! r = Some tk2 ->
       DeviceToken.token tk2 <> DeviceToken.token tk1).
Proof.
  intros H.
  eapply (H 5 SampleRun.drawnToken {[ "r1" := Sample.r1 ]} ∅ "r1" Sample.r1
            9 SampleRun.drawnToken {[ "r2" := Sample.r2 ]} "r2" Sample.r2
            "dev-A" "operator").
  - reflexivity.
  - reflexivity.
  - reflexivity.
  - reflexivity.
  - reflexivity.
  - reflexivity.
  - discriminate.
  - reflexivity.
  - reflexivity.
  - reflexivity.
  - reflexivity.
  - reflexivity.
  - reflexivity.
  - reflexivity.
  - reflexivity.
  - reflexivity.
Qed.

End Approval.

(** ** The self-approval daemon *)

Section Daemon.
Import JsString DevicePairing SelfPairing.

Lemma isSelf_Some (self : string) (pending : PendingRequest.t) :
  isSelf self (Some pending) = true <-> trimmedDeviceId pending = self.
Proof. unfold isSelf, trimmedDeviceId. simpl. apply bool_decide_eq_true. Qed.

(** What an approval that returns has returned. *)
Lemma approvePairing_inr_eq (now : Z) (freshToken : string)
  (pendingById : gmap string PendingRequest.t)
  (pairedByDeviceId : gmap string PairedDevice.t)
  (requestId : string) (pending : PendingRequest.t) (res : ApprovalResult) :
  pendingById !! requestId = Some pending ->
  approvePairing now freshToken pendingById pairedByDeviceId requestId = inr res ->
  res = {| deviceId := trimmedDeviceId pending;
           updatedPendingById := delete requestId pendingById;
           updatedPairedByDeviceId :=
             <[trimmedDeviceId pending :=
                 approvedDevice now freshToken (trimmedDeviceId pending) pending
                   (pairedByDeviceId !! trimmedDeviceId pending)]>
               pairedByDeviceId |}.
Proof.
  intros Hp Hres.
  destruct (approvePairing_inr _ _ _ _ _ _ Hres) as (pending' & Hp' & Hd & Hr).
  assert (pending' = pending) as -> by congruence.
  rewrite (approvePairing_ok _ _ _ _ _ _ Hp Hd Hr) in Hres. congruence.
Qed.

Lemma elem_of_sleepThen (ev : Event) (k : list Event * Completion) :
  ev ∈ (sleepThen k).1 <-> ev = Sleep 2000 \/ ev ∈ k.1.
Proof. unfold sleepThen. simpl. apply elem_of_cons. Qed.

Lemma elem_of_persist (ev : Event) (p : Poll) (self requestId : string)
  (newPending : gmap string PendingRequest.t)
  (newPaired : gmap string PairedDevice.t) :
  ev ∈ (persist p self requestId newPending newPaired).1 ->
  ev = WritePending newPending \/ ev = WritePaired newPaired
  \/ ev = LogApproved self requestId.
Proof.
  unfold persist.
  destruct (pendingWritable p), (pairedWritable p); simpl;
    rewrite ?elem_of_cons, ?elem_of_nil; tauto.
Qed.

(** Every event of the loop is a sleep or belongs to the approval of a
    request of the daemon's own device. *)
Lemma loop_events (self : string) (endAt : Z) (polls : list Poll) (ev : Event) :
  ev ∈ (Shared.loop self endAt polls).1 ->
  ev = Sleep 2000
  \/ exists p requestId pending res,
       p ∈ polls
       /\ approves_own_request self p requestId pending res
       /\ (ev = WritePending (updatedPendingById res)
           \/ ev = WritePaired (updatedPairedByDeviceId res)
           \/ ev = LogApproved self requestId).
Proof.
  induction polls as [|p rest IH]; simpl; [intros []%elem_of_nil|].
  assert (Hrest : ev ∈ (sleepThen (Shared.loop self endAt rest)).1 ->
                  ev = Sleep 2000
                  \/ exists p' requestId pending res,
                       p' ∈ p :: rest
                       /\ approves_own_request self p' requestId pending res
                       /\ (ev = WritePending (updatedPendingById res)
                           \/ ev = WritePaired (updatedPairedByDeviceId res)
                           \/ ev = LogApproved self requestId)).
  { intros [->|Hev]%elem_of_sleepThen; [left; reflexivity|].
    destruct (IH Hev) as [->|(p' & rid & pending & res & Hin & H)];
      [left; reflexivity|].
    right. exists p', rid, pending, res. split; [right; exact Hin | exact H]. }
  destruct (clock p <? endAt); [|intros []%elem_of_nil].
  destruct (Js.found (Js.get (pairedFile p) self)); [intros []%elem_of_nil|].
  destruct (find _ _) as [requestId|]; [|exact Hrest].
  destruct (negb (truthy requestId)); [exact Hrest|].
  destruct (_ !! requestId) as [pending|] eqn:Hp; [|exact Hrest].
  destruct (isSelf self (Some pending)) eqn:Hself; simpl; [|exact Hrest].
  apply isSelf_Some in Hself.
  destruct (approvePairing _ _ _ _ _) as [e|res] eqn:Hres;
    [intros []%elem_of_nil|].
  intros Hev%elem_of_persist. right.
  exists p, requestId, pending, res. split; [left|].
  split; [|exact Hev].
  repeat split; try assumption.
  rewrite (approvePairing_inr_eq _ _ _ _ _ _ _ Hp Hres). exact Hself.
Qed.

Lemma main_events (env : Environment) (polls : list Poll) (ev : Event) :
  ev ∈ (Shared.main env polls).1 ->
  ev ∈ (Shared.loop (selfDeviceId env)
          (startClock env + Shared.PAIRING_TIMEOUT_MS) polls).1.
Proof.
  unfold Shared.main.
  destruct (negb (truthy (stateDir env))); [intros []%elem_of_nil|].
  destruct (negb (truthy (selfDeviceId env))); [intros []%elem_of_nil|].
  tauto.
Qed.

(** C2. Whatever the daemon finds in the two files from poll to poll, and in
    whatever order the pending entries come: a paired collection it writes is
    the one it read in some poll, changed at its own device id only, by the
    approval of a pending request whose trimmed device id is its own; a
    pending collection it writes is the one it read without that request, and
    still holds every request of another device. *)
Theorem daemon_approves_only_own_device (env : Environment) (polls : list Poll) :
  (forall newPaired, WritePaired newPaired ∈ (Shared.main env polls).1 ->
     exists p requestId pending res,
       p ∈ polls
       /\ approves_own_request (selfDeviceId env) p requestId pending res
       /\ newPaired = updatedPairedByDeviceId res
       /\ (forall d, d <> selfDeviceId env ->
             newPaired !! d = pairedFile p !! d))
  /\ (forall newPending, WritePending newPending ∈ (Shared.main env polls).1 ->
        exists p requestId pending res,
          p ∈ polls
          /\ approves_own_request (selfDeviceId env) p requestId pending res
          /\ newPending = delete requestId (list_to_map (pendingFile p))
          /\ (forall requestId' pending',
                (list_to_map (pendingFile p) : gmap string PendingRequest.t)
                  !! requestId' = Some pending' ->
                trimmedDeviceId pending' <> selfDeviceId env ->
                newPending !! requestId' = Some pending')).
Proof.
  split.
  - intros newPaired Hev%main_events%loop_events.
    destruct Hev as [Hev|(p & rid & pending & res & Hin & Hown & Hev)];
      [discriminate|].
    destruct Hev as [Hev|[Hev|Hev]]; try discriminate. injection Hev as ->.
    exists p, rid, pending, res.
    split; [exact Hin|]. split; [exact Hown|]. split; [reflexivity|].
    intros d Hd. destruct Hown as (Hp & Hself & Hres & _).
    rewrite (approvePairing_inr_eq _ _ _ _ _ _ _ Hp Hres). simpl.
    apply lookup_insert_ne. congruence.
  - intros newPending Hev%main_events%loop_events.
    destruct Hev as [Hev|(p & rid & pending & res & Hin & Hown & Hev)];
      [discriminate|].
    destruct Hev as [Hev|[Hev|Hev]]; try discriminate. injection Hev as ->.
    exists p, rid, pending, res.
    pose proof Hown as (Hp & Hself & Hres & _).
    split; [exact Hin|]. split; [exact Hown|].
    rewrite (approvePairing_inr_eq _ _ _ _ _ _ _ Hp Hres). simpl.
    split; [reflexivity|].
    intros rid' pending' Hp' Hother.
    rewrite lookup_delete_ne; [exact Hp'|]. intros <-. congruence.
Qed.

(** The scenario of the specification: one request of the daemon's device
    and one of another device, in either order. The daemon approves the
    first and leaves the second pending. *)
Example daemon_two_requests_either_order :
  let own_then_other := [("r1", Sample.r1); ("r9", Sample.other)] in
  let other_then_own := [("r9", Sample.other); ("r1", Sample.r1)] in
  forall pendingFile,
    pendingFile = own_then_other \/ pendingFile = other_then_own ->
    exists newPaired,
      Shared.main Sample.env [Sample.poll pendingFile] =
      ([WritePending {[ "r9" := Sample.other ]};
        WritePaired newPaired;
        LogApproved "dev-A" "r1"], Resolved)
      /\ dom newPaired = {[ "dev-A" ]}.
Proof.
  intros ? ? pendingFile [->| ->]; eexists; (split; [vm_compute; reflexivity|]);
    vm_compute; reflexivity.
Qed.

Lemma daemon_approves_only_own_device_witness :
  exists p requestId pending res,
    p ∈ [Sample.poll [("r9", Sample.other); ("r1", Sample.r1)]]
    /\ approves_own_request (selfDeviceId Sample.env) p requestId pending res
    /\ <["dev-A" := approvedDevice 11 "tok" "dev-A" Sample.r1 None]> ∅
       = updatedPairedByDeviceId res
    /\ (forall d, d <> selfDeviceId Sample.env ->
          (<["dev-A" := approvedDevice 11 "tok" "dev-A" Sample.r1 None]> ∅
           : gmap string PairedDevice.t) !! d
          = pairedFile p !! d).
Proof.
  apply (proj1 (daemon_approves_only_own_device Sample.env
                  [Sample.poll [("r9", Sample.other); ("r1", Sample.r1)]])).
  apply list_elem_of_further, list_elem_of_here.
Defined.

(** An approval that fails writes nothing: the run ends rejected after
    sleeps only. *)
Lemma loop_rejected_approval_writes_nothing (self : string) (endAt : Z)
  (polls : list Poll) (e : ApprovalError) (ev : Event) :
  (Shared.loop self endAt polls).2 = Rejected (ApprovalFailed e) ->
  ev ∈ (Shared.loop self endAt polls).1 -> ev = Sleep 2000.
Proof.
  induction polls as [|p rest IH]; simpl; [discriminate|].
  assert (Hrest : (sleepThen (Shared.loop self endAt rest)).2
                  = Rejected (ApprovalFailed e) ->
                  ev ∈ (sleepThen (Shared.loop self endAt rest)).1 ->
                  ev = Sleep 2000).
  { intros Hc [->|Hev]%elem_of_sleepThen; [reflexivity|]. apply IH; assumption. }
  destruct (clock p <? endAt); [|discriminate].
  destruct (Js.found (Js.get (pairedFile p) self)); [discriminate|].
  destruct (find _ _) as [requestId|]; [|exact Hrest].
  destruct (negb (truthy requestId)); [exact Hrest|].
  destruct (_ !! requestId) as [pending|]; [|exact Hrest].
  destruct (negb (isSelf self (Some pending))); [exact Hrest|].
  destruct (approvePairing _ _ _ _ _) as [e'|res].
  - intros _ []%elem_of_nil.
  - unfold persist.
    destruct (pendingWritable p), (pairedWritable p); simpl; discriminate.
Qed.

(** With the device not yet found in the paired collection and a role other
    than [__proto__], the in-place update of the self-contained daemon leaves
    the two objects with the contents that the shared module returns. *)
Lemma approveInPlace_agrees (now : Z) (freshToken self requestId : string)
  (pending : PendingRequest.t)
  (pendingById : gmap string PendingRequest.t)
  (pairedByDeviceId : gmap string PairedDevice.t) :
  Js.get pairedByDeviceId self = Js.Missing ->
  roleForToken pending <> "__proto__" ->
  Standalone.approveInPlace now freshToken self requestId pending
    pendingById pairedByDeviceId
  = (delete requestId pendingById,
     <[self := approvedDevice now freshToken self pending
                 (pairedByDeviceId !! self)]> pairedByDeviceId).
Proof.
  intros Hmissing Hrole. unfold Standalone.approveInPlace. cbv zeta.
  rewrite (assign_missing _ _ _ Hmissing), own_get.
  unfold approvedDevice, approvedTokens.
  destruct (truthy (roleForToken pending));
    [rewrite (assign_insert _ _ _ Hrole)|]; reflexivity.
Qed.

(** Where the approval does not throw and no request of the device asks for
    the role [__proto__], the self-contained daemon does what the daemon
    built on the shared module does. *)
Lemma standalone_loop_agrees (self : string) (endAt : Z) (polls : list Poll) :
  (forall p requestId pending,
     p ∈ polls -> own_request self p requestId pending ->
     roleForToken pending <> "__proto__") ->
  (forall e, (Shared.loop self endAt polls).2 <> Rejected (ApprovalFailed e)) ->
  Standalone.loop self endAt polls = Shared.loop self endAt polls.
Proof.
  induction polls as [|p rest IH]; [reflexivity|]. intros Hroles.
  cbn [Standalone.loop Shared.loop].
  assert (Hrest : (forall e, (sleepThen (Shared.loop self endAt rest)).2
                             <> Rejected (ApprovalFailed e)) ->
                  sleepThen (Standalone.loop self endAt rest)
                  = sleepThen (Shared.loop self endAt rest)).
  { intros H. rewrite IH; [reflexivity | | exact H].
    intros q rid pending Hq. apply Hroles. right. exact Hq. }
  destruct (clock p <? endAt); [|reflexivity].
  destruct (Js.found (Js.get (pairedFile p) self)) eqn:Hpaired; [reflexivity|].
  apply found_false_iff in Hpaired.
  destruct (find _ _) as [requestId|]; [|exact Hrest].
  destruct (negb (truthy requestId)); [exact Hrest|].
  destruct (_ !! requestId) as [pending|] eqn:Hp; [|exact Hrest].
  destruct (isSelf self (Some pending)) eqn:Hself; cbn [negb]; [|exact Hrest].
  apply isSelf_Some in Hself.
  destruct (approvePairing _ _ _ _ _) as [e|res] eqn:Hres.
  - intros H. destruct (H e). reflexivity.
  - intros _. rewrite (approvePairing_inr_eq _ _ _ _ _ _ _ Hp Hres).
    rewrite approveInPlace_agrees;
      [| exact Hpaired
       | apply (Hroles p requestId pending); [left | split; assumption]].
    simpl. rewrite Hself. reflexivity.
Qed.

(** For the role [__proto__] the two daemons part: the shared module stores
    the token under that key, the assignment of the self-contained daemon
    stores none. *)
Example standalone_stores_no_proto_token :
  let request :=
    Sample.request "r1" (Some (UStr "dev-A")) (Some (UStr "__proto__")) None None in
  let tokensWritten (r : list Event * Completion) :=
    omap (fun ev => match ev with
                    | WritePaired paired =>
                        dom <$> (paired !! "dev-A" ≫= PairedDevice.tokens)
                    | _ => None
                    end) r.1 in
  tokensWritten (Shared.main Sample.env [Sample.poll [("r1", request)]])
  = [ {[ "__proto__" ]} ]
  /\ tokensWritten (Standalone.main Sample.env [Sample.poll [("r1", request)]])
     = [ ∅ ].
Proof. split; vm_compute; reflexivity. Qed.

(** *** Exit status *)

(** The daemon built on the shared module exits with status 1 exactly when
    [main()] is rejected. *)
Lemma shared_exitCode_rejected (c : Completion) :
  Shared.exitCode c = Some 1 <-> exists err, c = Rejected err.
Proof.
  destruct c; simpl; split; try discriminate; eauto; intros [err H]; discriminate.
Qed.

(** The self-contained daemon never exits with a status other than 0. *)
Lemma standalone_exitCode_zero (env : Environment) (polls : list Poll) (n : Z) :
  Standalone.exitCode (Standalone.main env polls).2 = Some n -> n = 0.
Proof.
  destruct ((Standalone.main env polls).2); simpl; congruence.
Qed.

(** C9, on the daemon built on the shared module: the node ["dev-A"] finds its
    own pending request, whose role ["bad role"] is not an identifier. The
    approval throws, nothing is written, and the process exits with status 1
    and not 0. The self-contained daemon exits with status 0 on the same
    input. *)
Theorem shared_daemon_exits_1_on_approval_error :
  Shared.main Sample.env [Sample.poll [("r1", Sample.badRole)]]
  = ([], Rejected (ApprovalFailed (InvalidRoleFormat "r1")))
  /\ Shared.exitCode
       (Shared.main Sample.env [Sample.poll [("r1", Sample.badRole)]]).2
     = Some 1
  /\ Standalone.exitCode
       (Standalone.main Sample.env [Sample.poll [("r1", Sample.badRole)]]).2
     = Some 0.
Proof. repeat split; vm_compute; reflexivity. Qed.

(** A store write that fails also ends the shared daemon with status 1. *)
Example shared_daemon_exits_1_on_write_failure :
  let p := Sample.poll [("r1", Sample.r1)] in
  let readOnly :=
    {| clock := clock p; pairedFile := pairedFile p;
       pendingFile := pendingFile p; approvalClock := approvalClock p;
       freshToken := freshToken p;
       pendingWritable := false; pairedWritable := false |} in
  Shared.main Sample.env [readOnly] = ([], Rejected PendingWriteFailed)
  /\ Shared.exitCode (Shared.main Sample.env [readOnly]).2 = Some 1.
Proof. split; vm_compute; reflexivity. Qed.

End Daemon.

(** ** The credential sync cycle *)

Section CredentialSync.
Import WatchCodexAuth.

Variable getTime : unknown -> option Z.

Lemma strictEq_refl (v : option unknown) : Js.strictEq v v = true.
Proof. unfold Js.strictEq. apply bool_decide_eq_true. reflexivity. Qed.

Lemma profilesEqual_refl (p : AuthProfile) : profilesEqual (Some p) p = true.
Proof. unfold profilesEqual. rewrite !strictEq_refl. reflexivity. Qed.

(** [profilesEqual] holds exactly for a stored profile with the same six
    fields. *)
Lemma profilesEqual_true (a : option AuthProfile) (b : AuthProfile) :
  profilesEqual a b = true <->
  exists a', a = Some a'
    /\ type a' = type b /\ provider a' = provider b /\ access a' = access b
    /\ refresh a' = refresh b /\ expires a' = expires b
    /\ accountId a' = accountId b.
Proof.
  unfold profilesEqual, Js.strictEq. destruct a as [a'|].
  - rewrite !andb_true_iff, !bool_decide_eq_true. split.
    + intros H. exists a'. tauto.
    + intros (? & [= <-] & H). tauto.
  - split; [discriminate | intros (? & [=] & _)].
Qed.

(** With a [last_refresh] that parses, the candidate does not depend on the
    clock. *)
Lemma buildProfile_clock_independent (now1 now2 : Z) (codex : CodexAuth)
  (v : unknown) (t : Z) :
  last_refresh codex = Some v -> Js.truthy (Some v) = true -> getTime v = Some t ->
  buildProfile getTime now1 codex = buildProfile getTime now2 codex.
Proof.
  intros Hv Ht Hg. unfold buildProfile. rewrite Hv, Ht, Hg. reflexivity.
Qed.

(** A cycle whose candidate equals the stored profile does nothing. *)
Lemma syncOnce_up_to_date (now : Z) (fs : Files) (codex : CodexAuth)
  (next : AuthProfile) :
  codexAuthFile fs = Some codex ->
  buildProfile getTime now codex = Some next ->
  profilesEqual
    (default ∅ (authStoreFile fs ≫= profiles) !! PROFILE_ID) next = true ->
  syncOnce getTime now fs = ([Mkdir; LogUpToDate], fs).
Proof. intros Hc Hb He. unfold syncOnce. rewrite Hc, Hb, He. reflexivity. Qed.

(** A cycle whose candidate differs writes the store once. *)
Lemma syncOnce_writes (now : Z) (fs : Files) (codex : CodexAuth)
  (next : AuthProfile) :
  codexAuthFile fs = Some codex ->
  buildProfile getTime now codex = Some next ->
  profilesEqual
    (default ∅ (authStoreFile fs ≫= profiles) !! PROFILE_ID) next = false ->
  exists updated,
    syncOnce getTime now fs =
    ([Mkdir; WriteStore updated; LogSynced],
     {| codexAuthFile := Some codex; authStoreFile := Some updated |})
    /\ version updated =
       Some (UNum (default 1 (Js.asNumber (authStoreFile fs ≫= version))))
    /\ profiles updated =
       Some (<[PROFILE_ID := next]> (default ∅ (authStoreFile fs ≫= profiles))).
Proof.
  intros Hc Hb He. unfold syncOnce. rewrite Hc, Hb, He.
  eexists. split; [reflexivity|]. split; reflexivity.
Qed.

(** After any cycle, a second cycle that builds the same candidate does
    nothing. *)
Lemma syncOnce_again (now1 now2 : Z) (fs : Files) :
  (forall codex, codexAuthFile fs = Some codex ->
     buildProfile getTime now1 codex = buildProfile getTime now2 codex) ->
  writes (syncOnce getTime now2 (syncOnce getTime now1 fs).2).1 = []
  /\ (syncOnce getTime now2 (syncOnce getTime now1 fs).2).2
     = (syncOnce getTime now1 fs).2.
Proof.
  intros Hsame.
  destruct (codexAuthFile fs) as [codex|] eqn:Hc.
  - specialize (Hsame codex eq_refl).
    destruct (buildProfile getTime now1 codex) as [next|] eqn:Hb.
    + destruct (profilesEqual
                  (default ∅ (authStoreFile fs ≫= profiles) !! PROFILE_ID) next)
        eqn:He.
      * rewrite (syncOnce_up_to_date now1 fs codex next Hc Hb He). simpl.
        rewrite (syncOnce_up_to_date now2 fs codex next Hc (eq_sym Hsame) He).
        auto.
      * destruct (syncOnce_writes now1 fs codex next Hc Hb He)
          as (updated & -> & _ & Hprofiles). simpl.
        rewrite (syncOnce_up_to_date now2
                   {| codexAuthFile := Some codex; authStoreFile := Some updated |}
                   codex next eq_refl (eq_sym Hsame));
          [auto|].
        simpl. rewrite Hprofiles. simpl. rewrite lookup_insert_eq.
        apply profilesEqual_refl.
    + assert (E : forall now, buildProfile getTime now codex = None ->
                              syncOnce getTime now fs = ([LogMissingTokens], fs)).
      { intros now Hn. unfold syncOnce. rewrite Hc, Hn. reflexivity. }
      rewrite (E now1 Hb). simpl. rewrite (E now2 (eq_sym Hsame)). auto.
  - assert (E : forall now, syncOnce getTime now fs = ([LogNotReadable], fs)).
    { intros now. unfold syncOnce. rewrite Hc. reflexivity. }
    rewrite (E now1). simpl. rewrite (E now2). auto.
Qed.

(** C6 (as amended). With a source file whose [last_refresh] parses to a
    valid instant, running the cycle twice, at any two times, writes nothing
    in the second run and leaves the files as the first run left them. And
    whenever the candidate built from the source equals, field for field,
    the profile stored under ["openai-codex:default"], the cycle writes
    nothing and leaves the files as they are. *)
Theorem sync_twice_writes_once (now1 now2 : Z) (fs : Files) :
  ((forall codex, codexAuthFile fs = Some codex ->
      exists v t, last_refresh codex = Some v /\ Js.truthy (Some v) = true
                  /\ getTime v = Some t) ->
   writes (syncOnce getTime now2 (syncOnce getTime now1 fs).2).1 = []
   /\ (syncOnce getTime now2 (syncOnce getTime now1 fs).2).2
      = (syncOnce getTime now1 fs).2)
  /\ (forall codex next stored,
        codexAuthFile fs = Some codex ->
        buildProfile getTime now1 codex = Some next ->
        default ∅ (authStoreFile fs ≫= profiles) !! PROFILE_ID = Some stored ->
        type stored = type next /\ provider stored = provider next
        /\ access stored = access next /\ refresh stored = refresh next
        /\ expires stored = expires next /\ accountId stored = accountId next ->
        writes (syncOnce getTime now1 fs).1 = []
        /\ (syncOnce getTime now1 fs).2 = fs).
Proof.
  split.
  - intros Hvalid. apply syncOnce_again. intros codex Hc.
    destruct (Hvalid codex Hc) as (v & t & Hv & Ht & Hg).
    eapply buildProfile_clock_independent; eassumption.
  - intros codex next stored Hc Hb Hs Heq.
    rewrite (syncOnce_up_to_date now1 fs codex next Hc Hb); [auto|].
    apply profilesEqual_true. exists stored. tauto.
Qed.

(** C7. A store that the cycle writes carries the version of the store it
    read when that is a number, and 1 when there was no store or its version
    was not a number. *)
Theorem sync_preserves_version (now : Z) (fs : Files) (written : AuthStore) :
  written ∈ writes (syncOnce getTime now fs).1 ->
  version written =
    Some (UNum (default 1 (Js.asNumber (authStoreFile fs ≫= version))))
  /\ (forall existing v,
        authStoreFile fs = Some existing -> version existing = Some (UNum v) ->
        version written = Some (UNum v))
  /\ (authStoreFile fs = None
      \/ (exists existing, authStoreFile fs = Some existing
                           /\ Js.asNumber (version existing) = None) ->
      version written = Some (UNum 1))
  /\ authStoreFile (syncOnce getTime now fs).2 = Some written.
Proof.
  unfold syncOnce.
  destruct (codexAuthFile fs) as [codex|]; [|intros []%elem_of_nil].
  destruct (buildProfile getTime now codex) as [next|]; [|intros []%elem_of_nil].
  destruct (profilesEqual _ next); [intros []%elem_of_nil|].
  simpl. intros ->%list_elem_of_singleton. simpl.
  split; [reflexivity|]. split; [|split; [|reflexivity]].
  - intros existing v -> Hv. simpl. rewrite Hv. reflexivity.
  - intros [->|(existing & -> & Hv)]; simpl; [reflexivity|].
    rewrite Hv. reflexivity.
Qed.

End CredentialSync.

Section CredentialSyncExamples.
Import WatchCodexAuth.

Lemma sync_twice_writes_once_witness :
  writes (syncOnce Sample.getTime 9
            (syncOnce Sample.getTime 5
               (Sample.files (Some (UStr "2026-01-01T00:00:00Z")) None)).2).1 = []
  /\ (syncOnce Sample.getTime 9
        (syncOnce Sample.getTime 5
           (Sample.files (Some (UStr "2026-01-01T00:00:00Z")) None)).2).2
     = (syncOnce Sample.getTime 5
          (Sample.files (Some (UStr "2026-01-01T00:00:00Z")) None)).2.
Proof.
  apply (proj1 (sync_twice_writes_once Sample.getTime 5 9
                  (Sample.files (Some (UStr "2026-01-01T00:00:00Z")) None))).
  intros codex [= <-]. exists (UStr "2026-01-01T00:00:00Z"), 1767225600000.
  repeat split; reflexivity.
Defined.

(** C6 as stated fails: the source has no [last_refresh], so the expiry is
    taken from the clock; the second run, five seconds after the first,
    builds another candidate and writes the store again. *)
Lemma sync_twice_writes_twice_without_last_refresh :
  ~ (forall getTime now1 now2 fs,
       writes (syncOnce getTime now2 (syncOnce getTime now1 fs).2).1 = []
       /\ (syncOnce getTime now2 (syncOnce getTime now1 fs).2).2
          = (syncOnce getTime now1 fs).2).
Proof.
  intros H.
  destruct (H Sample.getTime 0 5000 (Sample.files None None)) as [Hw _].
  vm_compute in Hw. discriminate Hw.
Qed.

Lemma sync_preserves_version_witness :
  exists written,
    written ∈ writes (syncOnce Sample.getTime 5
                        (Sample.files None (Some Sample.store7))).1
    /\ version written = Some (UNum 7).
Proof.
  eexists. split; [apply list_elem_of_here|].
  apply (sync_preserves_version Sample.getTime 5
           (Sample.files None (Some Sample.store7))).
  apply list_elem_of_here.
Defined.

End CredentialSyncExamples.

(** ** More on trimming *)

Section TrimFacts.
Import JsString.

Lemma trimStart_units_idem (l : list ascii) :
  trimStart_units (trimStart_units l) = trimStart_units l.
Proof.
  induction l as [|c l IH]; simpl; [reflexivity|].
  destruct (is_white_space c) eqn:Hc; [exact IH|].
  apply trimStart_units_head. exact Hc.
Qed.

Lemma trimStart_units_cases (l : list ascii) :
  trimStart_units l = []
  \/ exists c l', trimStart_units l = c :: l' /\ is_white_space c = false.
Proof.
  induction l as [|c l IH]; simpl; [left; reflexivity|].
  destruct (is_white_space c) eqn:Hc; [exact IH|].
  right. exists c, l. split; [reflexivity | exact Hc].
Qed.

Lemma trimStart_units_suffix (l : list ascii) :
  exists ws, l = ws ++ trimStart_units l.
Proof.
  induction l as [|c l [ws IH]]; simpl; [exists []; reflexivity|].
  destruct (is_white_space c).
  - exists (c :: ws). simpl. rewrite <- IH. reflexivity.
  - exists []. reflexivity.
Qed.

Lemma trimEnd_units_prefix (l : list ascii) :
  exists ws, l = trimEnd_units l ++ ws.
Proof.
  destruct (trimStart_units_suffix (rev l)) as [ws H].
  exists (rev ws). unfold trimEnd_units.
  rewrite <- rev_app_distr, <- H, rev_involutive. reflexivity.
Qed.

Lemma trimEnd_units_idem (l : list ascii) :
  trimEnd_units (trimEnd_units l) = trimEnd_units l.
Proof.
  unfold trimEnd_units. rewrite rev_involutive, trimStart_units_idem.
  reflexivity.
Qed.

Lemma trim_units_idem (l : list ascii) :
  trimEnd_units (trimStart_units (trimEnd_units (trimStart_units l)))
  = trimEnd_units (trimStart_units l).
Proof.
  assert (H : trimStart_units (trimEnd_units (trimStart_units l))
              = trimEnd_units (trimStart_units l)).
  { destruct (trimEnd_units_prefix (trimStart_units l)) as [ws Hws].
    destruct (trimStart_units_cases l) as [E|(c & l' & E & Hc)].
    - rewrite E. reflexivity.
    - rewrite E in *.
      destruct (trimEnd_units (c :: l')) as [|c' t]; [reflexivity|].
      simpl in Hws. injection Hws as <- _.
      apply trimStart_units_head. exact Hc. }
  rewrite H. apply trimEnd_units_idem.
Qed.

Lemma trim_idempotent (s : string) : trim (trim s) = trim s.
Proof.
  unfold trim. rewrite list_ascii_of_string_of_list_ascii, trim_units_idem.
  reflexivity.
Qed.

End TrimFacts.

(** ** More on the approval *)

Section ApprovalMore.
Import JsString DevicePairing.

(** X1. The outcome of [approvePairing], case by case: which error it throws
    tells what is wrong with the request, a bad device id is reported before
    a bad role, every error carries the request id, and a result is returned
    exactly for an existing request with a well-formed trimmed device id and
    a role that is blank or well-formed. A request id that is no key of the
    pending collection is 'not found' unless it names a member of
    [Object.prototype]: then the lookup finds that member and the error is
    'missing deviceId'. *)
Theorem approvePairing_outcome (now : Z) (freshToken : string)
  (pendingById : gmap string PendingRequest.t)
  (pairedByDeviceId : gmap string PairedDevice.t) (requestId : string) :
  match approvePairing now freshToken pendingById pairedByDeviceId requestId with
  | inl (RequestNotFound r) =>
      r = requestId /\ pendingById !! requestId = None
      /\ requestId ∉ Js.objectPrototype
  | inl (MissingDeviceId r) =>
      r = requestId
      /\ ((exists pending, pendingById !! requestId = Some pending
                           /\ trimmedDeviceId pending = "")
          \/ (pendingById !! requestId = None
              /\ requestId ∈ Js.objectPrototype))
  | inl (InvalidDeviceIdFormat r) =>
      r = requestId
      /\ exists pending, pendingById !! requestId = Some pending
           /\ trimmedDeviceId pending <> ""
           /\ has_unsafe_char (trimmedDeviceId pending)
  | inl (InvalidRoleFormat r) =>
      r = requestId
      /\ exists pending, pendingById !! requestId = Some pending
           /\ isValidId (trimmedDeviceId pending) = true
           /\ has_unsafe_char (roleForToken pending)
  | inr res =>
      exists pending, pendingById !! requestId = Some pending
        /\ isValidId (trimmedDeviceId pending) = true
        /\ (roleForToken pending = "" \/ isValidId (roleForToken pending) = true)
        /\ deviceId res = trimmedDeviceId pending
  end.
Proof.
  unfold approvePairing.
  destruct (Js.get pendingById requestId) as [pending| |] eqn:Hp.
  2:{ apply get_Inherited_iff in Hp as [Hp Hi%inherited_true_iff]. auto. }
  2:{ apply get_Missing_iff in Hp as [Hp Hi%inherited_false_iff]. auto. }
  apply get_Own_iff in Hp. cbv zeta.
  destruct (truthy (trimmedDeviceId pending)) eqn:Ht; simpl.
  2:{ split; [reflexivity|]. left. exists pending.
      apply truthy_false_iff in Ht. auto. }
  apply truthy_true_iff in Ht.
  destruct (isValidId (trimmedDeviceId pending)) eqn:Hd; simpl.
  2:{ split; [reflexivity|]. exists pending.
      split; [exact Hp|]. split; [exact Ht|].
      apply isValidId_false_unsafe; assumption. }
  destruct (truthy (roleForToken pending)) eqn:Hr; simpl.
  - apply truthy_true_iff in Hr.
    destruct (isValidId (roleForToken pending)) eqn:Hv; simpl.
    + exists pending. auto.
    + split; [reflexivity|]. exists pending.
      split; [exact Hp|]. split; [exact Hd|].
      apply isValidId_false_unsafe; assumption.
  - apply truthy_false_iff in Hr. exists pending. auto.
Qed.

(** X2. An approval touches the token of the request's role only: every
    token the device held under another role is carried over as it was. *)
Theorem approval_keeps_other_tokens (now : Z) (freshToken : string)
  (pendingById : gmap string PendingRequest.t)
  (pairedByDeviceId : gmap string PairedDevice.t)
  (requestId : string) (pending : PendingRequest.t) (res : ApprovalResult) :
  pendingById !! requestId = Some pending ->
  approvePairing now freshToken pendingById pairedByDeviceId requestId = inr res ->
  exists dev tokens,
    updatedPairedByDeviceId res !! deviceId res = Some dev
    /\ PairedDevice.tokens dev = Some tokens
    /\ forall r, r <> roleForToken pending ->
         tokens !! r
         = default ∅ (pairedByDeviceId !! deviceId res ≫= PairedDevice.tokens) !! r.
Proof.
  intros Hp Hres. rewrite (approvePairing_inr_eq _ _ _ _ _ _ _ Hp Hres). simpl.
  eexists _, _. split; [apply lookup_insert_eq|]. split; [reflexivity|].
  intros r Hr. unfold approvedTokens.
  destruct (truthy (roleForToken pending)); [|reflexivity].
  apply lookup_insert_ne. congruence.
Qed.

Lemma approval_keeps_other_tokens_witness :
  exists res,
    approvePairing 5 "tok" {[ "r1" := Sample.r1 ]} ∅ "r1" = inr res
    /\ exists dev tokens,
         updatedPairedByDeviceId res !! deviceId res = Some dev
         /\ PairedDevice.tokens dev = Some tokens
         /\ forall r, r <> roleForToken Sample.r1 ->
              tokens !! r
              = default ∅ ((∅ : gmap string PairedDevice.t) !! deviceId res
                            ≫= PairedDevice.tokens) !! r.
Proof.
  eexists. split; [reflexivity|].
  apply (approval_keeps_other_tokens 5 "tok" {[ "r1" := Sample.r1 ]} ∅ "r1"
           Sample.r1); reflexivity.
Defined.

(** X3. The first token of a role: when the device held no token under the
    request's role, the new token is created now, has never been revoked or
    used, and carries the role and the fresh value. It has no rotation time
    either, unless the role names a member of [Object.prototype]: the lookup
    in the token map finds that member, and the rotation time is now. *)
Theorem first_token_is_created_now (now : Z) (freshToken : string)
  (pendingById : gmap string PendingRequest.t)
  (pairedByDeviceId : gmap string PairedDevice.t)
  (requestId : string) (pending : PendingRequest.t) (res : ApprovalResult) :
  pendingById !! requestId = Some pending ->
  approvePairing now freshToken pendingById pairedByDeviceId requestId = inr res ->
  roleForToken pending <> "" ->
  default ∅ (pairedByDeviceId !! deviceId res ≫= PairedDevice.tokens)
    !! roleForToken pending = None ->
  exists dev tokens tk,
    updatedPairedByDeviceId res !! deviceId res = Some dev
    /\ PairedDevice.tokens dev = Some tokens
    /\ tokens !! roleForToken pending = Some tk
    /\ DeviceToken.token tk = freshToken
    /\ DeviceToken.role tk = roleForToken pending
    /\ DeviceToken.createdAtMs tk = Some now
    /\ (roleForToken pending ∉ Js.objectPrototype ->
        DeviceToken.rotatedAtMs tk = None)
    /\ (roleForToken pending ∈ Js.objectPrototype ->
        DeviceToken.rotatedAtMs tk = Some now)
    /\ DeviceToken.revokedAtMs tk = None
    /\ DeviceToken.lastUsedAtMs tk = None.
Proof.
  intros Hp Hres Hr. rewrite (approvePairing_inr_eq _ _ _ _ _ _ _ Hp Hres). simpl.
  intros Hnone. eexists _, _, _. split; [apply lookup_insert_eq|].
  split; [reflexivity|]. simpl. rewrite approvedTokens_role by exact Hr.
  split; [apply lookup_insert_eq|]. unfold rotateToken. simpl.
  rewrite !own_get, Hnone. unfold Js.get. rewrite Hnone. simpl.
  split; [reflexivity|]. split; [reflexivity|]. split; [reflexivity|].
  split; [intros Hi%inherited_false_iff; rewrite Hi; reflexivity|].
  split; [intros Hi%inherited_true_iff; rewrite Hi; reflexivity|].
  split; reflexivity.
Qed.

Lemma first_token_is_created_now_witness :
  exists res,
    approvePairing 5 "tok" {[ "r1" := Sample.r1 ]} ∅ "r1" = inr res
    /\ exists dev tokens tk,
         updatedPairedByDeviceId res !! deviceId res = Some dev
         /\ PairedDevice.tokens dev = Some tokens
         /\ tokens !! roleForToken Sample.r1 = Some tk
         /\ DeviceToken.token tk = "tok"
         /\ DeviceToken.role tk = roleForToken Sample.r1
         /\ DeviceToken.createdAtMs tk = Some 5
         /\ (roleForToken Sample.r1 ∉ Js.objectPrototype ->
             DeviceToken.rotatedAtMs tk = None)
         /\ (roleForToken Sample.r1 ∈ Js.objectPrototype ->
             DeviceToken.rotatedAtMs tk = Some 5)
         /\ DeviceToken.revokedAtMs tk = None
         /\ DeviceToken.lastUsedAtMs tk = None.
Proof.
  eexists. split; [reflexivity|].
  apply (first_token_is_created_now 5 "tok" {[ "r1" := Sample.r1 ]} ∅ "r1"
           Sample.r1); try reflexivity.
  discriminate.
Defined.

(** The first token for the role ["constructor"] has the rotation time of
    its approval, the first token for the role ["operator"] has none. *)
Example first_token_rotation_time :
  let request role :=
    Sample.request "r1" (Some (UStr "dev-A")) (Some (UStr role)) None None in
  let rotatedAtMs role :=
    match approvePairing 5 "tok" {[ "r1" := request role ]} ∅ "r1" with
    | inr res =>
        heldToken (updatedPairedByDeviceId res) "dev-A" role
        ≫= DeviceToken.rotatedAtMs
    | inl _ => None
    end in
  rotatedAtMs "constructor" = Some 5 /\ rotatedAtMs "operator" = None.
Proof. split; vm_compute; reflexivity. Qed.

(** X4. What an approval does to the two collections as sets of keys: the
    pending collection loses the request id and nothing else, the paired
    collection gains the device id and nothing else, growing by one entry for
    a new device and keeping its size for a device paired before; and the
    consumed request cannot be approved again on the new pending collection,
    whatever the paired collection is then: the attempt fails with 'not
    found', or with 'missing deviceId' when the request id names a member of
    [Object.prototype]. *)
Theorem approval_moves_one_key (now : Z) (freshToken : string)
  (pendingById : gmap string PendingRequest.t)
  (pairedByDeviceId : gmap string PairedDevice.t)
  (requestId : string) (res : ApprovalResult) :
  approvePairing now freshToken pendingById pairedByDeviceId requestId = inr res ->
  dom (updatedPendingById res) = dom pendingById ∖ {[ requestId ]}
  /\ S (size (updatedPendingById res)) = size pendingById
  /\ dom (updatedPairedByDeviceId res) = {[ deviceId res ]} ∪ dom pairedByDeviceId
  /\ (pairedByDeviceId !! deviceId res = None ->
      size (updatedPairedByDeviceId res) = S (size pairedByDeviceId))
  /\ (is_Some (pairedByDeviceId !! deviceId res) ->
      size (updatedPairedByDeviceId res) = size pairedByDeviceId)
  /\ (forall now' freshToken' paired',
        approvePairing now' freshToken' (updatedPendingById res) paired' requestId
        = inl (if bool_decide (requestId ∈ Js.objectPrototype)
               then MissingDeviceId requestId
               else RequestNotFound requestId)).
Proof.
  intros Hres.
  destruct (approvePairing_inr _ _ _ _ _ _ Hres) as (pending & Hp & _ & _).
  rewrite (approvePairing_inr_eq _ _ _ _ _ _ _ Hp Hres). simpl.
  split; [apply dom_delete_L|].
  split.
  { rewrite <- (insert_delete_id pendingById requestId pending Hp) at 2.
    rewrite map_size_insert_None; [reflexivity | apply lookup_delete_eq]. }
  split; [apply dom_insert_L|].
  split; [intros Hnew; apply map_size_insert_None; exact Hnew|].
  split.
  { intros Hold. apply map_size_insert_Some. exact Hold. }
  intros now' freshToken' paired'.
  pose proof (lookup_delete_eq pendingById requestId) as Hgone.
  destruct (bool_decide (requestId ∈ Js.objectPrototype)) eqn:Hi.
  - apply approvePairing_inherited, get_Inherited_iff. split; assumption.
  - apply approvePairing_not_found, get_Missing_iff. split; assumption.
Qed.

Lemma approval_moves_one_key_witness :
  exists res,
    approvePairing 5 "tok" {[ "r1" := Sample.r1 ]} ∅ "r1" = inr res
    /\ S (size (updatedPendingById res))
       = size ({[ "r1" := Sample.r1 ]} : gmap string PendingRequest.t).
Proof.
  eexists. split; [reflexivity|].
  apply (approval_moves_one_key 5 "tok" {[ "r1" := Sample.r1 ]} ∅ "r1").
  reflexivity.
Defined.

(** X5. An approval files nothing under an unsafe key: the device id it
    returns and stores under is a safe identifier, the stored record names
    the same device id, and a role under which the device now holds a token
    is a safe identifier unless the device held a token under it before. *)
Theorem approval_adds_safe_keys_only (now : Z) (freshToken : string)
  (pendingById : gmap string PendingRequest.t)
  (pairedByDeviceId : gmap string PairedDevice.t)
  (requestId : string) (res : ApprovalResult) :
  approvePairing now freshToken pendingById pairedByDeviceId requestId = inr res ->
  isValidId (deviceId res) = true
  /\ exists dev tokens,
       updatedPairedByDeviceId res !! deviceId res = Some dev
       /\ PairedDevice.deviceId dev = deviceId res
       /\ PairedDevice.tokens dev = Some tokens
       /\ forall r, is_Some (tokens !! r) ->
            isValidId r = true
            \/ is_Some (default ∅ (pairedByDeviceId !! deviceId res
                                   ≫= PairedDevice.tokens) !! r).
Proof.
  intros Hres.
  destruct (approvePairing_inr _ _ _ _ _ _ Hres) as (pending & Hp & Hd & Hr).
  rewrite (approvePairing_inr_eq _ _ _ _ _ _ _ Hp Hres). simpl.
  split; [exact Hd|].
  eexists _, _. split; [apply lookup_insert_eq|].
  split; [reflexivity|]. split; [reflexivity|].
  intros r. unfold approvedTokens.
  destruct (truthy (roleForToken pending)) eqn:Ht; [|auto].
  destruct (decide (r = roleForToken pending)) as [->|Hne].
  - intros _. left. destruct Hr as [Hr|Hr]; [|exact Hr].
    apply truthy_true_iff in Ht. contradiction.
  - rewrite lookup_insert_ne by congruence. auto.
Qed.

Lemma approval_adds_safe_keys_only_witness :
  exists res,
    approvePairing 5 "tok" {[ "r1" := Sample.r1 ]} ∅ "r1" = inr res
    /\ isValidId (deviceId res) = true.
Proof.
  eexists. split; [reflexivity|].
  apply (approval_adds_safe_keys_only 5 "tok" {[ "r1" := Sample.r1 ]} ∅ "r1").
  reflexivity.
Defined.

(** X6. An approval never drops a role or a scope: every trimmed non-empty
    string among the role list and the singular role of the device paired
    before is in the role list of the approved device, and every one among
    its scopes is in the new scope list. *)
Theorem approval_never_drops_roles_or_scopes (now : Z) (freshToken : string)
  (pendingById : gmap string PendingRequest.t)
  (pairedByDeviceId : gmap string PairedDevice.t)
  (requestId : string) (res : ApprovalResult) (existing : PairedDevice.t) :
  approvePairing now freshToken pendingById pairedByDeviceId requestId = inr res ->
  pairedByDeviceId !! deviceId res = Some existing ->
  exists dev,
    updatedPairedByDeviceId res !! deviceId res = Some dev
    /\ (forall x,
          trimmed_entry (default [] (PairedDevice.roles existing)
                         ++ option_entry (PairedDevice.role existing)) x ->
          UStr x ∈ default [] (PairedDevice.roles dev))
    /\ (forall x,
          trimmed_entry (default [] (PairedDevice.scopes existing)) x ->
          UStr x ∈ default [] (PairedDevice.scopes dev)).
Proof.
  intros Hres.
  destruct (approvePairing_inr _ _ _ _ _ _ Hres) as (pending & Hp & _ & _).
  rewrite (approvePairing_inr_eq _ _ _ _ _ _ _ Hp Hres). simpl.
  intros Hex. rewrite Hex.
  eexists. split; [apply lookup_insert_eq|]. simpl. split.
  - intros x Hx.
    assert (Hsrc : trimmed_entry (roleSources (Some existing) pending) x).
    { unfold roleSources. simpl. rewrite app_assoc.
      apply trimmed_entry_app. left. exact Hx. }
    pose proof (mergeRoles_spec (Some existing) pending) as Hm.
    destruct (mergeRoles (Some existing) pending) as [out|]; simpl.
    + destruct Hm as [_ [_ Hm]]. apply list_elem_of_fmap. exists x.
      split; [reflexivity | apply Hm; exact Hsrc].
    + destruct (Hm x Hsrc).
  - intros x Hx. apply list_elem_of_fmap. exists x. split; [reflexivity|].
    apply (mergeScopes_sorted_set (Some existing) pending).
    unfold scopeSources. simpl. apply trimmed_entry_app. left. exact Hx.
Qed.

Lemma approval_never_drops_roles_or_scopes_witness :
  exists res dev,
    approvePairing 5 "tok" {[ "r1" := Sample.r1 ]}
      {[ "dev-A" := Sample.device "dev-A" (Some [UStr " admin "]) None None ]} "r1"
    = inr res
    /\ updatedPairedByDeviceId res !! deviceId res = Some dev
    /\ UStr "admin" ∈ default [] (PairedDevice.roles dev).
Proof.
  edestruct (approval_never_drops_roles_or_scopes 5 "tok" {[ "r1" := Sample.r1 ]}
               {[ "dev-A" := Sample.device "dev-A" (Some [UStr " admin "]) None None ]}
               "r1")
    as (dev & Hdev & Hroles & _); [reflexivity | reflexivity |].
  eexists _, dev. split; [reflexivity|]. split; [exact Hdev|].
  apply Hroles. split; [discriminate|]. exists " admin ".
  split; [apply list_elem_of_here | reflexivity].
Defined.

(** The entries of a list that [uniqSortedStrings] has produced are their
    own trimmed forms. *)
Lemma uniqSortedStrings_entries (items : list unknown) (x : string) :
  x ∈ uniqSortedStrings items -> x <> "" /\ trim x = x.
Proof.
  intros (Hx & s & _ & <-)%elem_of_uniqSortedStrings.
  split; [exact Hx | apply trim_idempotent].
Qed.

Lemma trimmed_entry_fmap_UStr (out : list string) (x : string) :
  (forall y, y ∈ out -> y <> "" /\ trim y = y) ->
  trimmed_entry (UStr <$> out) x <-> x ∈ out.
Proof.
  intros Hout. split.
  - intros (_ & s & (y & [= ->] & Hy)%list_elem_of_fmap & <-).
    destruct (Hout y Hy) as [_ ->]. exact Hy.
  - intros Hx. destruct (Hout x Hx) as [Hne Ht].
    split; [exact Hne|]. exists x. split; [|exact Ht].
    apply list_elem_of_fmap. exists x. auto.
Qed.

(** X7. [uniqSortedStrings] is idempotent: applied to its own output it
    returns it unchanged, because every entry of the output is non-empty and
    is its own trimmed form. *)
Theorem uniqSortedStrings_idempotent (items : list unknown) :
  uniqSortedStrings (UStr <$> uniqSortedStrings items) = uniqSortedStrings items
  /\ forall x, x ∈ uniqSortedStrings items -> x <> "" /\ trim x = x.
Proof.
  split; [|apply uniqSortedStrings_entries].
  apply (sorted_set_of_unique (trimmed_entry items));
    [|apply uniqSortedStrings_sorted_set].
  eapply sorted_set_of_ext; [|apply uniqSortedStrings_sorted_set].
  intros x. rewrite trimmed_entry_fmap_UStr by apply uniqSortedStrings_entries.
  apply elem_of_uniqSortedStrings.
Qed.

(** Two merges with the same trimmed entries give the same lists. *)
Lemma mergeRoles_same_entries (existing existing' : option PairedDevice.t)
  (pending pending' : PendingRequest.t) :
  (forall x, trimmed_entry (roleSources existing pending) x
             <-> trimmed_entry (roleSources existing' pending') x) ->
  mergeRoles existing pending = mergeRoles existing' pending'.
Proof.
  intros Hsame.
  pose proof (mergeRoles_out_sorted_set existing pending) as H1.
  pose proof (mergeRoles_out_sorted_set existing' pending') as H2.
  unfold mergeRoles. cbv zeta.
  rewrite (sorted_set_of_unique _ _ _ H1
             (sorted_set_of_ext _ _ _ (fun x => symmetry (Hsame x)) H2)).
  reflexivity.
Qed.

Lemma mergeScopes_same_entries (existing existing' : option PairedDevice.t)
  (pending pending' : PendingRequest.t) :
  (forall x, trimmed_entry (scopeSources existing pending) x
             <-> trimmed_entry (scopeSources existing' pending') x) ->
  mergeScopes existing pending = mergeScopes existing' pending'.
Proof.
  intros Hsame.
  apply (sorted_set_of_unique _ _ _ (mergeScopes_sorted_set existing pending)).
  eapply sorted_set_of_ext; [|apply mergeScopes_sorted_set].
  intros x. symmetry. apply Hsame.
Qed.

(** Merging a request into the device that its own approval produced changes
    neither list. *)
Lemma merge_into_approved_device (now : Z) (freshToken d : string)
  (existing : option PairedDevice.t) (pending pending' : PendingRequest.t) :
  PendingRequest.role pending' = PendingRequest.role pending ->
  PendingRequest.roles pending' = PendingRequest.roles pending ->
  PendingRequest.scopes pending' = PendingRequest.scopes pending ->
  mergeRoles (Some (approvedDevice now freshToken d pending existing)) pending'
  = mergeRoles existing pending
  /\ mergeScopes (Some (approvedDevice now freshToken d pending existing)) pending'
     = mergeScopes existing pending.
Proof.
  intros Hrole Hroles Hscopes. split.
  - apply mergeRoles_same_entries. intros x.
    unfold roleSources at 1. simpl. rewrite Hrole, Hroles.
    pose proof (mergeRoles_spec existing pending) as Hm.
    assert (Hreq : trimmed_entry
                     (option_entry (PendingRequest.role pending)
                      ++ default [] (PendingRequest.roles pending)
                      ++ option_entry (PendingRequest.role pending)) x ->
                   trimmed_entry (roleSources existing pending) x).
    { unfold roleSources. rewrite !trimmed_entry_app. tauto. }
    rewrite trimmed_entry_app.
    destruct (mergeRoles existing pending) as [out|] eqn:E; simpl.
    + destruct Hm as [_ [_ Hm]].
      assert (Hout : forall y, y ∈ out -> y <> "" /\ trim y = y).
      { intros y [Hy (s' & _ & <-)]%Hm. split; [exact Hy | apply trim_idempotent]. }
      rewrite (trimmed_entry_fmap_UStr out x Hout), Hm. split; [tauto|].
      intros H. left. exact H.
    + split.
      * intros [[]%trimmed_entry_nil|H]. apply Hreq. exact H.
      * intros H. destruct (Hm x H).
  - apply mergeScopes_same_entries. intros x.
    unfold scopeSources at 1. simpl. rewrite Hscopes, trimmed_entry_app.
    pose proof (mergeScopes_sorted_set existing pending) as [_ Hm].
    assert (Hout : forall y, y ∈ mergeScopes existing pending ->
                             y <> "" /\ trim y = y).
    { intros y [Hy (s' & _ & <-)]%Hm. split; [exact Hy | apply trim_idempotent]. }
    rewrite (trimmed_entry_fmap_UStr _ x Hout), Hm.
    unfold scopeSources. rewrite trimmed_entry_app. tauto.
Qed.

(** X8. Approving the same request content twice changes the role list and
    the scope list only once: a second request of the same device with the
    same role, role list and scope list leaves both lists of the device as
    the first approval made them. *)
Theorem reapproval_of_same_request_keeps_lists
  (now1 : Z) (token1 : string) (pending1 : gmap string PendingRequest.t)
  (paired1 : gmap string PairedDevice.t) (requestId1 : string)
  (request1 : PendingRequest.t)
  (now2 : Z) (token2 : string) (pending2 : gmap string PendingRequest.t)
  (requestId2 : string) (request2 : PendingRequest.t) (d : string) :
  pending1 !! requestId1 = Some request1 ->
  pending2 !! requestId2 = Some request2 ->
  trimmedDeviceId request1 = d -> trimmedDeviceId request2 = d ->
  isValidId d = true ->
  roleForToken request1 = "" \/ isValidId (roleForToken request1) = true ->
  PendingRequest.role request2 = PendingRequest.role request1 ->
  PendingRequest.roles request2 = PendingRequest.roles request1 ->
  PendingRequest.scopes request2 = PendingRequest.scopes request1 ->
  exists res1 res2 dev1 dev2,
    approvePairing now1 token1 pending1 paired1 requestId1 = inr res1
    /\ approvePairing now2 token2 pending2 (updatedPairedByDeviceId res1) requestId2
       = inr res2
    /\ updatedPairedByDeviceId res1 !! d = Some dev1
    /\ updatedPairedByDeviceId res2 !! d = Some dev2
    /\ PairedDevice.roles dev2 = PairedDevice.roles dev1
    /\ PairedDevice.scopes dev2 = PairedDevice.scopes dev1.
Proof.
  intros Hp1 Hp2 Hd1 Hd2 Hv Hr1 Hrole Hroles Hscopes.
  assert (Hr2 : roleForToken request2 = ""
                \/ isValidId (roleForToken request2) = true).
  { unfold roleForToken in *. rewrite Hrole. exact Hr1. }
  pose proof (approvePairing_ok now1 token1 pending1 paired1 requestId1 request1
                Hp1 ltac:(rewrite Hd1; exact Hv) Hr1) as E1.
  rewrite Hd1 in E1.
  eexists _, _, _, _. split; [exact E1|]. simpl.
  split.
  { rewrite (approvePairing_ok now2 token2 pending2 _ requestId2 request2
               Hp2 ltac:(rewrite Hd2; exact Hv) Hr2).
    rewrite Hd2. reflexivity. }
  split; [apply lookup_insert_eq|]. split; [apply lookup_insert_eq|].
  rewrite lookup_insert_eq. simpl.
  destruct (merge_into_approved_device now1 token1 d (paired1 !! d)
              request1 request2 Hrole Hroles Hscopes) as [-> ->].
  split; reflexivity.
Qed.

Lemma reapproval_of_same_request_keeps_lists_witness :
  exists res1 res2 dev1 dev2,
    approvePairing 5 "t1" {[ "r1" := Sample.r1 ]} ∅ "r1" = inr res1
    /\ approvePairing 9 "t2" {[ "r1" := Sample.r1 ]} (updatedPairedByDeviceId res1) "r1"
       = inr res2
    /\ updatedPairedByDeviceId res1 !! "dev-A" = Some dev1
    /\ updatedPairedByDeviceId res2 !! "dev-A" = Some dev2
    /\ PairedDevice.roles dev2 = PairedDevice.roles dev1
    /\ PairedDevice.scopes dev2 = PairedDevice.scopes dev1.
Proof.
  apply (reapproval_of_same_request_keeps_lists 5 "t1" {[ "r1" := Sample.r1 ]} ∅
           "r1" Sample.r1 9 "t2" {[ "r1" := Sample.r1 ]} "r1" Sample.r1 "dev-A");
    try reflexivity.
  right. reflexivity.
Defined.

End ApprovalMore.

(** ** More on the self-approval daemon *)

Section DaemonMore.
Import JsString DevicePairing SelfPairing.

Lemma isSelf_None (self : string) : self <> "" -> isSelf self None = false.
Proof.
  intros Hne. unfold isSelf. simpl. apply bool_decide_eq_false.
  intros H. apply Hne. symmetry. exact H.
Qed.

Lemma isSelf_own (self : string) (pendingById : gmap string PendingRequest.t)
  (id : string) :
  self <> "" ->
  isSelf self (pendingById !! id) = true <->
  exists pending, pendingById !! id = Some pending
                  /\ trimmedDeviceId pending = self.
Proof.
  intros Hne. destruct (pendingById !! id) as [pending|].
  - rewrite isSelf_Some. split.
    + intros H. exists pending. auto.
    + intros (pending' & [= <-] & H). exact H.
  - rewrite (isSelf_None self Hne). split; [discriminate|].
    intros (? & [=] & _).
Qed.

Lemma find_None_intro {A} (f : A -> bool) (l : list A) :
  (forall x, In x l -> f x = false) -> find f l = None.
Proof.
  induction l as [|a l IH]; simpl; [reflexivity|]. intros H.
  rewrite (H a (or_introl eq_refl)). apply IH. intros x Hx. apply H. auto.
Qed.

Lemma find_Some_intro {A} (f : A -> bool) (l : list A) (x : A) :
  In x l -> f x = true -> exists y, find f l = Some y.
Proof.
  induction l as [|a l IH]; simpl; [intros []|].
  intros [->|Hx] Hf.
  - rewrite Hf. eauto.
  - destruct (f a); eauto.
Qed.

Lemma sleeps_S (n : nat) : Sleep 2000 :: sleeps n = sleeps (S n).
Proof. reflexivity. Qed.

Lemma run_shape_sleepThen (self : string) (p : Poll) (rest : list Poll)
  (k : list Event * Completion) :
  run_shape self rest k -> run_shape self (p :: rest) (sleepThen k).
Proof.
  intros (n & Hn & H). exists (S n). split; [simpl; apply le_n_S; exact Hn|].
  unfold sleepThen. simpl.
  destruct H as [[-> H]|[(np & -> & H)|(np & npd & rid & -> & H)]].
  - left. auto.
  - right. left. exists np. auto.
  - right. right. exists np, npd, rid. auto.
Qed.

Lemma run_shape_quiet (self : string) (polls : list Poll) (c : Completion) :
  c = Resolved \/ c = Polling \/ c = Rejected PendingWriteFailed
  \/ (exists e, c = Rejected (ApprovalFailed e)) ->
  run_shape self polls ([], c).
Proof.
  intros H. exists 0%nat. split; [apply Nat.le_0_l|]. left. auto.
Qed.

Lemma loop_run_shape (self : string) (endAt : Z) (polls : list Poll) :
  run_shape self polls (Shared.loop self endAt polls).
Proof.
  induction polls as [|p rest IH]; simpl.
  { apply run_shape_quiet. auto. }
  pose proof (run_shape_sleepThen self p rest _ IH) as Hrest.
  destruct (clock p <? endAt); [|apply run_shape_quiet; auto].
  destruct (Js.found (Js.get (pairedFile p) self)); [apply run_shape_quiet; auto|].
  destruct (find _ _) as [requestId|]; [|exact Hrest].
  destruct (negb (truthy requestId)); [exact Hrest|].
  destruct (_ !! requestId) as [pending|]; [|exact Hrest].
  destruct (negb (isSelf self (Some pending))); [exact Hrest|].
  destruct (approvePairing _ _ _ _ _) as [e|res].
  { apply run_shape_quiet. eauto. }
  unfold persist. destruct (pendingWritable p); simpl.
  2:{ apply run_shape_quiet. auto. }
  exists 0%nat. split; [apply Nat.le_0_l|].
  destruct (pairedWritable p); simpl.
  - right. right. eauto.
  - right. left. eauto.
Qed.

(** X9. The shape of a run of the daemon: two-second sleeps, one per poll
    that shows nothing to do, followed by at most one approval. The pending
    file is written before the paired file, so when the second write fails
    the request is already gone from the pending file; the run is resolved
    after both writes and is never resolved after one. *)
Theorem daemon_run_shape (env : Environment) (polls : list Poll) :
  run_shape (selfDeviceId env) polls (Shared.main env polls).
Proof.
  unfold Shared.main.
  destruct (negb (truthy (stateDir env))); [apply run_shape_quiet; auto|].
  destruct (negb (truthy (selfDeviceId env))); [apply run_shape_quiet; auto|].
  apply loop_run_shape.
Qed.

(** A run that does more than sleep has slept through polls that were all in
    time and showed the device unpaired, and does the rest in the poll that
    follows them: that poll is in time too, shows the device unpaired, and
    what is written is the result of approving a request of the device read
    in that very poll. *)
Lemma loop_write_position (self : string) (endAt : Z) (polls : list Poll)
  (ev : Event) :
  ev ∈ (Shared.loop self endAt polls).1 -> ev <> Sleep 2000 ->
  exists before p after requestId pending res,
    polls = before ++ p :: after
    /\ (forall q, q ∈ before -> still_waiting self endAt q)
    /\ still_waiting self endAt p
    /\ approves_own_request self p requestId pending res
    /\ Shared.loop self endAt polls
       = (sleeps (length before)
          ++ (persist p self requestId
                (updatedPendingById res) (updatedPairedByDeviceId res)).1,
          (persist p self requestId
             (updatedPendingById res) (updatedPairedByDeviceId res)).2).
Proof.
  induction polls as [|p rest IH]; simpl; [intros []%elem_of_nil|].
  destruct (clock p <? endAt) eqn:Hclock; [|intros []%elem_of_nil].
  destruct (Js.found (Js.get (pairedFile p) self)) eqn:Hpaired;
    [intros []%elem_of_nil|].
  assert (Hwait : still_waiting self endAt p).
  { split; [apply Z.ltb_lt; exact Hclock | apply found_false_iff; exact Hpaired]. }
  assert (Hrest : ev ∈ (sleepThen (Shared.loop self endAt rest)).1 ->
                  ev <> Sleep 2000 ->
                  exists before p' after requestId pending res,
                    p :: rest = before ++ p' :: after
                    /\ (forall q, q ∈ before -> still_waiting self endAt q)
                    /\ still_waiting self endAt p'
                    /\ approves_own_request self p' requestId pending res
                    /\ sleepThen (Shared.loop self endAt rest)
                       = (sleeps (length before)
                          ++ (persist p' self requestId
                                (updatedPendingById res)
                                (updatedPairedByDeviceId res)).1,
                          (persist p' self requestId
                             (updatedPendingById res)
                             (updatedPairedByDeviceId res)).2)).
  { intros [->|Hev]%elem_of_sleepThen Hne; [contradiction|].
    destruct (IH Hev Hne)
      as (before & p' & after & rid & pending & res & -> & Hb & Hp' & Hown & E).
    exists (p :: before), p', after, rid, pending, res.
    split; [reflexivity|]. split.
    { intros q [->|Hq]%elem_of_cons; [exact Hwait | apply Hb; exact Hq]. }
    split; [exact Hp'|]. split; [exact Hown|].
    rewrite E. reflexivity. }
  destruct (find _ _) as [requestId|]; [|exact Hrest].
  destruct (negb (truthy requestId)); [exact Hrest|].
  destruct (_ !! requestId) as [pending|] eqn:Hp; [|exact Hrest].
  destruct (isSelf self (Some pending)) eqn:Hself; cbn [negb]; [|exact Hrest].
  apply isSelf_Some in Hself.
  destruct (approvePairing _ _ _ _ _) as [e|res] eqn:Hres;
    [intros []%elem_of_nil|].
  intros _ _. exists [], p, rest, requestId, pending, res.
  split; [reflexivity|].
  split; [intros q []%elem_of_nil|].
  split; [exact Hwait|].
  split.
  { repeat split; try assumption.
    rewrite (approvePairing_inr_eq _ _ _ _ _ _ _ Hp Hres). exact Hself. }
  simpl. destruct (persist _ _ _ _ _). reflexivity.
Qed.

(** X10. The daemon writes only while it is waiting. A run in which the
    daemon writes a file or logs an approval has this form: it slept once for
    each poll of an initial stretch, every poll of which was taken less than
    ten minutes after the start and showed its own device unpaired; the next
    poll was in time and showed the device unpaired as well; and what the run
    wrote and logged after the sleeps is the result of approving a request of
    its own device read in that very poll - the pending file alone when the
    second write failed, both files and the log line otherwise. *)
Theorem daemon_writes_only_while_waiting (env : Environment)
  (polls : list Poll) (ev : Event) :
  ev ∈ (Shared.main env polls).1 -> ev <> Sleep 2000 ->
  exists before p after requestId pending res,
    polls = before ++ p :: after
    /\ (forall q, q ∈ before ++ [p] ->
          clock q < startClock env + 10 * 60 * 1000
          /\ Js.get (pairedFile q) (selfDeviceId env) = Js.Missing)
    /\ approves_own_request (selfDeviceId env) p requestId pending res
    /\ (Shared.main env polls
        = (sleeps (length before) ++ [WritePending (updatedPendingById res)],
           Rejected PairedWriteFailed)
        \/ Shared.main env polls
           = (sleeps (length before)
              ++ [WritePending (updatedPendingById res);
                  WritePaired (updatedPairedByDeviceId res);
                  LogApproved (selfDeviceId env) requestId],
              Resolved)).
Proof.
  intros Hev Hne. pose proof (main_events _ _ _ Hev) as Hloop.
  destruct (loop_write_position _ _ _ _ Hloop Hne)
    as (before & p & after & rid & pending & res & -> & Hb & Hp & Hown & E).
  assert (Hmain : Shared.main env (before ++ p :: after)
                  = Shared.loop (selfDeviceId env)
                      (startClock env + Shared.PAIRING_TIMEOUT_MS)
                      (before ++ p :: after)).
  { revert Hev. unfold Shared.main.
    destruct (negb (truthy (stateDir env))); [intros []%elem_of_nil|].
    destruct (negb (truthy (selfDeviceId env))); [intros []%elem_of_nil|].
    reflexivity. }
  exists before, p, after, rid, pending, res.
  split; [reflexivity|]. split.
  { intros q [Hq|Hq%list_elem_of_singleton]%elem_of_app;
      [apply (Hb q Hq) | subst q; exact Hp]. }
  split; [exact Hown|].
  rewrite Hmain, E. rewrite Hmain, E in Hev. clear E Hmain Hloop.
  unfold persist in *.
  destruct (pendingWritable p); simpl in *.
  - destruct (pairedWritable p); simpl; [right | left]; reflexivity.
  - apply elem_of_app in Hev as [Hev|[]%elem_of_nil].
    apply elem_of_replicate in Hev as [-> _]. contradiction.
Qed.

Lemma daemon_writes_only_while_waiting_witness :
  exists before p after requestId pending res,
    [Sample.poll [("r9", Sample.other)]; Sample.poll [("r1", Sample.r1)]]
    = before ++ p :: after
    /\ (forall q, q ∈ before ++ [p] ->
          clock q < startClock Sample.env + 10 * 60 * 1000
          /\ Js.get (pairedFile q) (selfDeviceId Sample.env) = Js.Missing)
    /\ approves_own_request (selfDeviceId Sample.env) p requestId pending res
    /\ (Shared.main Sample.env
          [Sample.poll [("r9", Sample.other)]; Sample.poll [("r1", Sample.r1)]]
        = (sleeps (length before) ++ [WritePending (updatedPendingById res)],
           Rejected PairedWriteFailed)
        \/ Shared.main Sample.env
             [Sample.poll [("r9", Sample.other)]; Sample.poll [("r1", Sample.r1)]]
           = (sleeps (length before)
              ++ [WritePending (updatedPendingById res);
                  WritePaired (updatedPairedByDeviceId res);
                  LogApproved (selfDeviceId Sample.env) requestId],
              Resolved)).
Proof.
  apply (daemon_writes_only_while_waiting Sample.env
           [Sample.poll [("r9", Sample.other)]; Sample.poll [("r1", Sample.r1)]]
           (LogApproved "dev-A" "r1")).
  - do 3 apply list_elem_of_further. apply list_elem_of_here.
  - discriminate.
Defined.

(** Past the deadline the daemon approves nothing, even a request of its own
    that has just arrived. *)
Example daemon_late_request_is_left :
  Shared.main Sample.env
    [Sample.poll [];
     {| clock := 700000; pairedFile := ∅;
        pendingFile := [("r1", Sample.r1)];
        approvalClock := 700001; freshToken := "tok";
        pendingWritable := true; pairedWritable := true |}]
  = ([Sleep 2000], Resolved).
Proof. reflexivity. Qed.

Lemma loop_waits (self : string) (endAt : Z) (waiting rest : list Poll) :
  self <> "" ->
  (forall q, q ∈ waiting ->
     still_waiting self endAt q
     /\ forall requestId pending, ~ own_request self q requestId pending) ->
  Shared.loop self endAt (waiting ++ rest)
  = (sleeps (length waiting) ++ (Shared.loop self endAt rest).1,
     (Shared.loop self endAt rest).2).
Proof.
  intros Hself. induction waiting as [|q waiting IH]; intros Hq; simpl.
  { destruct (Shared.loop self endAt rest). reflexivity. }
  destruct (Hq q ltac:(left)) as [[Hclock Hpaired] Hnone].
  apply Z.ltb_lt in Hclock. rewrite Hclock, Hpaired. cbn [Js.found].
  rewrite find_None_intro.
  - rewrite IH; [reflexivity|]. intros q' Hq'. apply Hq. right. exact Hq'.
  - intros id _. destruct (isSelf self (_ !! id)) eqn:E; [|reflexivity].
    apply isSelf_own in E as (pending & Hp & Hd); [|exact Hself].
    destruct (Hnone id pending). split; assumption.
Qed.

(** X11. The daemon approves at the first sighting: after polls that are in
    time and in which [pairedByDeviceId[selfDeviceId]] is falsy and no
    request of its own device is pending, a poll in time in which
    [pairedByDeviceId[selfDeviceId]] is still falsy and some request of its
    own is pending, none of them under the empty id or with a malformed role,
    with both files writable, makes it approve one of its own requests, write
    both files and resolve, having slept once for each earlier poll. (For an
    identity that names a member of [Object.prototype] the lookup is never
    falsy, and the daemon approves nothing.) *)
Theorem daemon_approves_at_first_sighting (env : Environment)
  (waiting : list Poll) (p : Poll) (rest : list Poll) :
  truthy (stateDir env) = true ->
  isValidId (selfDeviceId env) = true ->
  (forall q, q ∈ waiting ->
     still_waiting (selfDeviceId env)
       (startClock env + Shared.PAIRING_TIMEOUT_MS) q
     /\ forall requestId pending,
          ~ own_request (selfDeviceId env) q requestId pending) ->
  still_waiting (selfDeviceId env)
    (startClock env + Shared.PAIRING_TIMEOUT_MS) p ->
  (exists requestId pending, own_request (selfDeviceId env) p requestId pending) ->
  (forall requestId pending,
     own_request (selfDeviceId env) p requestId pending ->
     requestId <> ""
     /\ (roleForToken pending = "" \/ isValidId (roleForToken pending) = true)) ->
  pendingWritable p = true -> pairedWritable p = true ->
  exists requestId pending res,
    approves_own_request (selfDeviceId env) p requestId pending res
    /\ Shared.main env (waiting ++ p :: rest)
       = (sleeps (length waiting)
          ++ [WritePending (updatedPendingById res);
              WritePaired (updatedPairedByDeviceId res);
              LogApproved (selfDeviceId env) requestId],
          Resolved).
Proof.
  intros Hdir Hvalid Hwaiting [Hclock Hpaired] (rid0 & req0 & Hp0 & Hd0) Hok Hw1 Hw2.
  pose proof (isValidId_truthy _ Hvalid) as Htruthy.
  pose proof (proj1 (truthy_true_iff _) Htruthy) as Hself.
  unfold Shared.main. rewrite Hdir, Htruthy. simpl.
  rewrite (loop_waits _ _ waiting (p :: rest) Hself Hwaiting). simpl.
  apply Z.ltb_lt in Hclock. rewrite Hclock, Hpaired. cbn [Js.found].
  destruct (find_Some_intro
              (fun id => isSelf (selfDeviceId env)
                           ((list_to_map (pendingFile p)
                             : gmap string PendingRequest.t) !! id))
              (pendingFile p).*1 rid0) as [rid Hfind].
  { apply list_elem_of_In, list_elem_of_fmap. exists (rid0, req0).
    split; [reflexivity|]. apply elem_of_list_to_map_2. exact Hp0. }
  { apply isSelf_own; [exact Hself|]. eauto. }
  rewrite Hfind. apply find_some in Hfind as [_ Hrid].
  apply isSelf_own in Hrid as (req & Hp & Hd); [|exact Hself].
  destruct (Hok rid req (conj Hp Hd)) as [Hne Hrole].
  apply truthy_true_iff in Hne. rewrite Hne. simpl. rewrite Hp.
  rewrite (proj2 (isSelf_Some _ _) Hd). simpl.
  pose proof (approvePairing_ok (approvalClock p) (freshToken p)
                (list_to_map (pendingFile p)) (pairedFile p) rid req Hp
                ltac:(rewrite Hd; exact Hvalid) Hrole) as Hres.
  rewrite Hres. unfold persist. rewrite Hw1, Hw2. simpl.
  eexists rid, req, _. split.
  { split; [exact Hp|]. split; [exact Hd|]. split; [exact Hres|]. exact Hd. }
  reflexivity.
Qed.

Lemma daemon_approves_at_first_sighting_witness :
  exists requestId pending res,
    approves_own_request (selfDeviceId Sample.env)
      (Sample.poll [("r9", Sample.other); ("r1", Sample.r1)]) requestId pending res
    /\ Shared.main Sample.env
         ([Sample.poll [("r9", Sample.other)]]
          ++ Sample.poll [("r9", Sample.other); ("r1", Sample.r1)] :: [])
       = (sleeps (length [Sample.poll [("r9", Sample.other)]])
          ++ [WritePending (updatedPendingById res);
              WritePaired (updatedPairedByDeviceId res);
              LogApproved (selfDeviceId Sample.env) requestId],
          Resolved).
Proof.
  apply (daemon_approves_at_first_sighting Sample.env
           [Sample.poll [("r9", Sample.other)]]
           (Sample.poll [("r9", Sample.other); ("r1", Sample.r1)]) []).
  - reflexivity.
  - reflexivity.
  - intros q ->%list_elem_of_singleton. split; [split; reflexivity|].
    intros rid req [Hp Hd].
    apply elem_of_list_to_map_2, list_elem_of_singleton in Hp.
    injection Hp as -> ->. discriminate Hd.
  - split; reflexivity.
  - exists "r1", Sample.r1. split; reflexivity.
  - intros rid req [Hp Hd].
    apply elem_of_list_to_map_2 in Hp.
    apply elem_of_cons in Hp as [Hp|Hp%list_elem_of_singleton];
      injection Hp as -> ->; [discriminate Hd|].
    split; [discriminate | right; reflexivity].
  - reflexivity.
  - reflexivity.
Defined.

(** X22. The daemon stops at the first poll that is past the deadline or in
    which [pairedByDeviceId[selfDeviceId]] is truthy - its device is paired,
    or its identity names a member of [Object.prototype]: after polls in time
    in which that lookup was falsy and no request of its own was pending,
    such a poll makes it resolve without writing, whatever is pending then,
    and it reads no later poll. *)
Theorem daemon_stops_when_late_or_paired (env : Environment)
  (waiting : list Poll) (p : Poll) (rest : list Poll) :
  truthy (stateDir env) = true ->
  selfDeviceId env <> "" ->
  (forall q, q ∈ waiting ->
     still_waiting (selfDeviceId env)
       (startClock env + Shared.PAIRING_TIMEOUT_MS) q
     /\ forall requestId pending,
          ~ own_request (selfDeviceId env) q requestId pending) ->
  startClock env + 10 * 60 * 1000 <= clock p
  \/ is_Some (pairedFile p !! selfDeviceId env)
  \/ selfDeviceId env ∈ Js.objectPrototype ->
  Shared.main env (waiting ++ p :: rest) = (sleeps (length waiting), Resolved).
Proof.
  intros Hdir Hself Hwaiting Hstop.
  unfold Shared.main. rewrite Hdir.
  rewrite (proj2 (truthy_true_iff _) Hself). simpl.
  rewrite (loop_waits _ _ waiting (p :: rest) Hself Hwaiting). simpl.
  destruct (clock p <? startClock env + Shared.PAIRING_TIMEOUT_MS) eqn:Hclock.
  - assert (Hfound : Js.found (Js.get (pairedFile p) (selfDeviceId env)) = true).
    { destruct Hstop as [Hlate|[Hdev|Hproto]].
      - apply Z.ltb_lt in Hclock. unfold Shared.PAIRING_TIMEOUT_MS in Hclock.
        destruct (Z.lt_irrefl (clock p)).
        eapply Z.lt_le_trans; [exact Hclock | exact Hlate].
      - apply found_get_own. exact Hdev.
      - destruct (Js.get (pairedFile p) (selfDeviceId env)) eqn:Hget;
          try reflexivity.
        apply get_Missing_iff in Hget as [_ Hget%inherited_false_iff].
        contradiction. }
    rewrite Hfound. simpl. rewrite app_nil_r. reflexivity.
  - simpl. rewrite app_nil_r. reflexivity.
Qed.

Lemma daemon_stops_when_late_or_paired_witness :
  Shared.main Sample.env
    ([Sample.poll [("r9", Sample.other)]]
     ++ {| clock := 600000; pairedFile := ∅;
           pendingFile := [("r1", Sample.r1)];
           approvalClock := 600001; freshToken := "tok";
           pendingWritable := true; pairedWritable := true |} :: [])
  = (sleeps (length [Sample.poll [("r9", Sample.other)]]), Resolved).
Proof.
  apply (daemon_stops_when_late_or_paired Sample.env
           [Sample.poll [("r9", Sample.other)]]).
  - reflexivity.
  - discriminate.
  - intros q ->%list_elem_of_singleton. split; [split; reflexivity|].
    intros rid req [Hp Hd].
    apply elem_of_list_to_map_2, list_elem_of_singleton in Hp.
    injection Hp as -> ->. discriminate Hd.
  - left. discriminate.
Defined.

(** A node whose identity is ["constructor"] is never approved: the daemon
    takes the inherited member for its paired record and resolves at the
    first poll, although a request of its own is pending. *)
Example daemon_with_inherited_identity :
  let env :=
    {| OPENCLAW_STATE_DIR := None;
       identityDeviceId := Some (UStr "constructor");
       startClock := 0 |} in
  let request :=
    Sample.request "r1" (Some (UStr "constructor")) (Some (UStr "operator"))
      None None in
  isValidId (selfDeviceId env) = true
  /\ Shared.main env [Sample.poll [("r1", request)]] = ([], Resolved)
  /\ Standalone.main env [Sample.poll [("r1", request)]] = ([], Resolved).
Proof. repeat split; reflexivity. Qed.

(** X23. The daemon is idempotent across runs: once an approval of its own
    request has produced a paired collection, a run that reads this
    collection in its first poll does nothing and resolves at once. *)
Theorem daemon_rerun_after_approval (env : Environment) (p : Poll)
  (requestId : string) (pending : PendingRequest.t) (res : ApprovalResult)
  (p' : Poll) (rest : list Poll) :
  approves_own_request (selfDeviceId env) p requestId pending res ->
  pairedFile p' = updatedPairedByDeviceId res ->
  Shared.main env (p' :: rest) = ([], Resolved).
Proof.
  intros (Hp & Hd & Hres & _) Hpaired. unfold Shared.main.
  destruct (negb (truthy (stateDir env))); [reflexivity|].
  destruct (negb (truthy (selfDeviceId env))); [reflexivity|].
  simpl. destruct (clock p' <? _); [|reflexivity].
  rewrite Hpaired, (approvePairing_inr_eq _ _ _ _ _ _ _ Hp Hres). simpl.
  rewrite Hd, (get_own _ _ _ (lookup_insert_eq _ _ _)). reflexivity.
Qed.

Lemma daemon_rerun_after_approval_witness :
  Shared.main Sample.env
    [ {| clock := 20;
         pairedFile := <["dev-A" := approvedDevice 11 "tok" "dev-A" Sample.r1 None]> ∅;
         pendingFile := [("r2", Sample.r2)];
         approvalClock := 21; freshToken := "tok2";
         pendingWritable := true; pairedWritable := true |} ]
  = ([], Resolved).
Proof.
  eapply (daemon_rerun_after_approval Sample.env
            (Sample.poll [("r1", Sample.r1)]) "r1" Sample.r1).
  - split; [reflexivity|]. split; [reflexivity|]. split; reflexivity.
  - reflexivity.
Defined.

Lemma loop_skips_empty_key (self : string) (endAt : Z) (polls : list Poll)
  (ev : Event) :
  self <> "" ->
  (forall p requestId pending,
     p ∈ polls -> own_request self p requestId pending -> requestId = "") ->
  ev ∈ (Shared.loop self endAt polls).1 -> ev = Sleep 2000.
Proof.
  intros Hself. induction polls as [|p rest IH]; intros Hkeys; simpl;
    [intros []%elem_of_nil|].
  assert (Hrest : ev ∈ (sleepThen (Shared.loop self endAt rest)).1 ->
                  ev = Sleep 2000).
  { intros [->|Hev]%elem_of_sleepThen; [reflexivity|]. apply IH; [|exact Hev].
    intros p' rid req Hin. apply Hkeys. right. exact Hin. }
  destruct (clock p <? endAt); [|intros []%elem_of_nil].
  destruct (Js.found (Js.get (pairedFile p) self)); [intros []%elem_of_nil|].
  destruct (find _ _) as [requestId|] eqn:Hfind; [|exact Hrest].
  apply find_some in Hfind as [_ Hrid].
  apply isSelf_own in Hrid as (req & Hp & Hd); [|exact Hself].
  rewrite (Hkeys p requestId req ltac:(left) (conj Hp Hd)). simpl.
  exact Hrest.
Qed.

(** X12. A request filed under the empty request id is never approved by the
    daemon: when the only requests of its own device are stored under the
    key [""], it does nothing but sleep, poll after poll. *)
Theorem daemon_skips_empty_request_id (env : Environment) (polls : list Poll)
  (ev : Event) :
  (forall p requestId pending,
     p ∈ polls -> own_request (selfDeviceId env) p requestId pending ->
     requestId = "") ->
  ev ∈ (Shared.main env polls).1 -> ev = Sleep 2000.
Proof.
  intros Hkeys. unfold Shared.main.
  destruct (negb (truthy (stateDir env))); [intros []%elem_of_nil|].
  destruct (truthy (selfDeviceId env)) eqn:Hself; simpl;
    [|intros []%elem_of_nil].
  apply loop_skips_empty_key; [|exact Hkeys].
  apply truthy_true_iff. exact Hself.
Qed.

Lemma daemon_skips_empty_request_id_witness :
  Shared.main Sample.env [Sample.poll [("", Sample.r1)]] = ([Sleep 2000], Polling)
  /\ forall ev,
       ev ∈ (Shared.main Sample.env [Sample.poll [("", Sample.r1)]]).1 ->
       ev = Sleep 2000.
Proof.
  split; [reflexivity|]. intros ev.
  apply (daemon_skips_empty_request_id Sample.env
           [Sample.poll [("", Sample.r1)]] ev).
  intros p rid req ->%list_elem_of_singleton [Hp _].
  apply elem_of_list_to_map_2, list_elem_of_singleton in Hp.
  injection Hp as -> _. reflexivity.
Defined.

Lemma standalone_loop_never_throws (self : string) (endAt : Z)
  (polls : list Poll) (e : ApprovalError) :
  (Standalone.loop self endAt polls).2 <> Rejected (ApprovalFailed e).
Proof.
  induction polls as [|p rest IH]; simpl; [discriminate|].
  destruct (clock p <? endAt); [|discriminate].
  destruct (Js.found (Js.get (pairedFile p) self)); [discriminate|].
  destruct (find _ _) as [requestId|]; [|exact IH].
  destruct (negb (truthy requestId)); [exact IH|].
  destruct (_ !! requestId) as [pending|]; [|exact IH].
  destruct (negb (isSelf self (Some pending))); [exact IH|].
  unfold persist. destruct (pendingWritable p), (pairedWritable p); discriminate.
Qed.

(** X13. The two daemons side by side: on every input on which no pending
    request of the device asks for the role [__proto__] and the daemon built
    on the shared module does not end with an approval error, the
    self-contained daemon does the same, event for event. (It validates no
    identifier, so it approves where the other one throws; and it assigns
    the new token into the token map, which for the role [__proto__] stores
    nothing, where the shared module defines the key.) *)
Theorem standalone_daemon_agrees_with_shared (env : Environment)
  (polls : list Poll) :
  (forall p requestId pending,
     p ∈ polls -> own_request (selfDeviceId env) p requestId pending ->
     roleForToken pending <> "__proto__") ->
  (forall e, (Shared.main env polls).2 <> Rejected (ApprovalFailed e)) ->
  Standalone.main env polls = Shared.main env polls.
Proof.
  unfold Standalone.main, Shared.main.
  destruct (negb (truthy (stateDir env))); [reflexivity|].
  destruct (negb (truthy (selfDeviceId env))); [reflexivity|].
  apply standalone_loop_agrees.
Qed.

Lemma standalone_daemon_agrees_with_shared_witness :
  Standalone.main Sample.env [Sample.poll [("r1", Sample.r1)]]
  = Shared.main Sample.env [Sample.poll [("r1", Sample.r1)]].
Proof.
  apply (standalone_daemon_agrees_with_shared Sample.env
           [Sample.poll [("r1", Sample.r1)]]).
  - intros p rid req ->%list_elem_of_singleton [Hp _].
    apply elem_of_list_to_map_2, list_elem_of_singleton in Hp.
    injection Hp as _ ->. discriminate.
  - intros e. discriminate.
Defined.

End DaemonMore.

(** ** The manual approval tool *)

Section Tool.
Import JsString DevicePairing ApproveLocal.

Lemma insert_by_Permutation {A} (compareFn : A -> A -> Z) (a : A) (l : list A) :
  insert_by compareFn a l ≡ₚ a :: l.
Proof.
  induction l as [|b l IH]; simpl; [reflexivity|].
  destruct (0 <? compareFn a b); [|reflexivity].
  rewrite IH. apply Permutation_swap.
Qed.

Lemma sort_by_Permutation {A} (compareFn : A -> A -> Z) (l : list A) :
  sort_by compareFn l ≡ₚ l.
Proof.
  induction l as [|a l IH]; simpl; [reflexivity|].
  rewrite insert_by_Permutation, IH. reflexivity.
Qed.

Lemma head_insert_by {A} (compareFn : A -> A -> Z) (a : A) (l : list A) :
  head (insert_by compareFn a l)
  = match head l with
    | Some b => if 0 <? compareFn a b then Some b else Some a
    | None => Some a
    end.
Proof.
  destruct l as [|b l]; simpl; [reflexivity|].
  destruct (0 <? compareFn a b); reflexivity.
Qed.

(** Sorting by a key, greatest first: the head is the first element of the
    list among those with the greatest key. *)
Lemma head_sort_by_key {A} (key : A -> Z) (l : list A) (h : A) :
  head (sort_by (fun a b => key b - key a) l) = Some h ->
  exists before after,
    l = before ++ h :: after
    /\ (forall x, x ∈ before -> key x < key h)
    /\ (forall x, x ∈ after -> key x <= key h).
Proof.
  revert h. induction l as [|a l IH]; intros h; simpl; [discriminate|].
  rewrite head_insert_by.
  destruct (head (sort_by _ l)) as [b|] eqn:Hb.
  - destruct (IH b eq_refl) as (before & after & -> & Hbefore & Hafter).
    destruct (0 <? key b - key a) eqn:Hcmp; intros [= <-].
    + apply Z.ltb_lt in Hcmp. exists (a :: before), after.
      split; [reflexivity|]. split; [|exact Hafter].
      intros x [->|Hx]%elem_of_cons; [|auto].
      apply Z.lt_0_sub. exact Hcmp.
    + apply Z.ltb_ge in Hcmp. exists [], (before ++ b :: after).
      split; [reflexivity|]. split; [intros x []%elem_of_nil|].
      assert (Hba : key b <= key a) by (apply Z.le_sub_0; exact Hcmp).
      intros x [Hx|[->|Hx]%elem_of_cons]%elem_of_app.
      * apply Z.lt_le_incl. eapply Z.lt_le_trans; [apply Hbefore; exact Hx|].
        exact Hba.
      * exact Hba.
      * eapply Z.le_trans; [apply Hafter; exact Hx | exact Hba].
  - intros [= <-].
    assert (l = []) as ->.
    { pose proof (sort_by_Permutation (fun a0 b => key b - key a0) l) as Hperm.
      destruct (sort_by _ l); [|discriminate].
      apply Permutation_nil. exact Hperm. }
    exists [], []. split; [reflexivity|].
    split; intros x []%elem_of_nil.
Qed.

Lemma head_sort_by_is_Some {A} (compareFn : A -> A -> Z) (l : list A) :
  l <> [] -> is_Some (head (sort_by compareFn l)).
Proof.
  intros Hne. pose proof (sort_by_Permutation compareFn l) as Hperm.
  destruct (sort_by compareFn l); [|eexists; reflexivity].
  apply Permutation_nil in Hperm. congruence.
Qed.

(** X14. Without a request id on the command line, or with a blank one, the
    tool picks the newest pending request: the id it works on is the first
    key of [pending.json], in the order of its keys, among those with the
    greatest [ts]. It picks one whenever the file has an entry, and with no
    entry it writes nothing and exits with status 1. *)
Theorem tool_picks_newest_request (inv : Invocation) :
  argv2 inv = None \/ (exists arg, argv2 inv = Some arg /\ trim arg = "") ->
  (forall requestId, ApproveLocal.requestId inv = Some requestId ->
     exists before after,
       (pendingFile inv).*1 = before ++ requestId :: after
       /\ (forall id, id ∈ before ->
             tsOf (list_to_map (pendingFile inv)) id
             < tsOf (list_to_map (pendingFile inv)) requestId)
       /\ (forall id, id ∈ after ->
             tsOf (list_to_map (pendingFile inv)) id
             <= tsOf (list_to_map (pendingFile inv)) requestId))
  /\ (pendingFile inv <> [] -> is_Some (ApproveLocal.requestId inv))
  /\ (pendingFile inv = [] -> ApproveLocal.main inv = ([FatalNoPending], 1)).
Proof.
  intros Harg.
  assert (E : ApproveLocal.requestId inv = head (newestFirst (pendingFile inv))).
  { unfold ApproveLocal.requestId, requestIdArg.
    destruct Harg as [->|(arg & -> & Hblank)]; simpl; [reflexivity|].
    rewrite Hblank. reflexivity. }
  split; [|split].
  - intros rid. rewrite E. unfold newestFirst.
    apply (head_sort_by_key (tsOf (list_to_map (pendingFile inv)))).
  - intros Hne. rewrite E. apply head_sort_by_is_Some.
    destruct (pendingFile inv); [contradiction | discriminate].
  - intros Hempty. unfold ApproveLocal.main. rewrite E, Hempty. reflexivity.
Qed.

Lemma tool_picks_newest_request_witness :
  ApproveLocal.requestId (SampleRun.invocation None) = Some "new1"
  /\ exists before after,
       (pendingFile (SampleRun.invocation None)).*1 = before ++ "new1" :: after
       /\ (forall id, id ∈ before ->
             tsOf (list_to_map (pendingFile (SampleRun.invocation None))) id
             < tsOf (list_to_map (pendingFile (SampleRun.invocation None))) "new1")
       /\ (forall id, id ∈ after ->
             tsOf (list_to_map (pendingFile (SampleRun.invocation None))) id
             <= tsOf (list_to_map (pendingFile (SampleRun.invocation None))) "new1").
Proof.
  split; [reflexivity|].
  apply (proj1 (tool_picks_newest_request (SampleRun.invocation None)
                  (or_introl eq_refl)) "new1").
  reflexivity.
Defined.

(** X15. The exit status of the tool tells what it wrote. It exits with
    status 0 exactly after an approval that returned, having written the new
    pending collection, then the new paired collection, and nothing else. It
    exits with status 1 in every other case, and then it has not written the
    paired file, and has written the pending file only if the write of the
    paired file failed after it. *)
Theorem tool_exit_status (inv : Invocation) :
  ((ApproveLocal.main inv).2 = 0
   /\ exists requestId res,
        ApproveLocal.requestId inv = Some requestId
        /\ approvePairing (approvalClock inv) (freshToken inv)
             (list_to_map (pendingFile inv)) (pairedFile inv) requestId = inr res
        /\ (ApproveLocal.main inv).1
           = [WritePending (updatedPendingById res);
              WritePaired (updatedPairedByDeviceId res);
              OkApproved requestId (deviceId res)])
  \/ ((ApproveLocal.main inv).2 = 1
      /\ (forall value, WritePaired value ∉ (ApproveLocal.main inv).1)
      /\ (forall value, WritePending value ∈ (ApproveLocal.main inv).1 ->
            pendingWritable inv = true /\ pairedWritable inv = false)).
Proof.
  assert (Hquiet : forall ev : Event,
            (forall value, ev <> WritePending value) ->
            (forall value, ev <> WritePaired value) ->
            (forall value, WritePaired value ∉ [ev])
            /\ (forall value, WritePending value ∈ [ev] ->
                  pendingWritable inv = true /\ pairedWritable inv = false)).
  { intros ev H1 H2. split; intros value Hin%list_elem_of_singleton.
    - destruct (H2 value). symmetry. exact Hin.
    - destruct (H1 value). symmetry. exact Hin. }
  unfold ApproveLocal.main.
  destruct (ApproveLocal.requestId inv) as [requestId|];
    [|right; split; [reflexivity | apply Hquiet; discriminate]].
  destruct (truthy requestId); simpl;
    [|right; split; [reflexivity | apply Hquiet; discriminate]].
  destruct (negb (Js.found (Js.get _ requestId))); cbn [negb];
    [right; split; [reflexivity | apply Hquiet; discriminate]|].
  destruct (approvePairing _ _ _ _ _) as [e|res] eqn:Hres;
    [right; split; [reflexivity | apply Hquiet; discriminate]|].
  destruct (pendingWritable inv) eqn:Hw1; simpl;
    [|right; split; [reflexivity | apply Hquiet; discriminate]].
  destruct (pairedWritable inv) eqn:Hw2; simpl.
  - left. split; [reflexivity|]. exists requestId, res. auto.
  - right. split; [reflexivity|]. split.
    + intros value [Hin|Hin%list_elem_of_singleton]%elem_of_cons; discriminate.
    + auto.
Qed.

(** X16. A request id given on the command line is used after trimming, in
    place of the newest request. If it is no key of the pending collection
    the tool writes nothing and exits with status 1 even when other requests
    are pending: it reports the id as not found, unless the id names a member
    of [Object.prototype] - then its own check lets the id pass and it dies
    of the exception ['missing deviceId'] that [approvePairing] throws. If
    the approval returns and both files can be written, the tool writes the
    result of that approval and exits with status 0. *)
Theorem tool_uses_given_request_id (inv : Invocation) (arg : string) :
  argv2 inv = Some arg -> trim arg <> "" ->
  ApproveLocal.requestId inv = Some (trim arg)
  /\ ((list_to_map (pendingFile inv) : gmap string PendingRequest.t) !! trim arg
      = None ->
      ApproveLocal.main inv
      = if bool_decide (trim arg ∈ Js.objectPrototype)
        then ([UncaughtException (ApprovalThrew (MissingDeviceId (trim arg)))], 1)
        else ([FatalNotFound (trim arg)], 1))
  /\ (forall res,
        approvePairing (approvalClock inv) (freshToken inv)
          (list_to_map (pendingFile inv)) (pairedFile inv) (trim arg) = inr res ->
        pendingWritable inv = true -> pairedWritable inv = true ->
        ApproveLocal.main inv
        = ([WritePending (updatedPendingById res);
            WritePaired (updatedPairedByDeviceId res);
            OkApproved (trim arg) (deviceId res)], 0)).
Proof.
  intros Harg Hne.
  assert (E : ApproveLocal.requestId inv = Some (trim arg)).
  { unfold ApproveLocal.requestId, requestIdArg. rewrite Harg. simpl.
    apply truthy_true_iff in Hne. rewrite Hne. reflexivity. }
  apply truthy_true_iff in Hne.
  split; [exact E|]. split.
  - intros Hnone. unfold ApproveLocal.main. rewrite E, Hne. cbn [negb].
    destruct (bool_decide (trim arg ∈ Js.objectPrototype)) eqn:Hi.
    + assert (Hget : Js.get (list_to_map (pendingFile inv)
                             : gmap string PendingRequest.t) (trim arg)
                     = Js.Inherited)
        by (apply get_Inherited_iff; split; assumption).
      rewrite Hget, (approvePairing_inherited _ _ _ _ _ Hget). reflexivity.
    + assert (Hget : Js.get (list_to_map (pendingFile inv)
                             : gmap string PendingRequest.t) (trim arg)
                     = Js.Missing)
        by (apply get_Missing_iff; split; assumption).
      rewrite Hget. reflexivity.
  - intros res Hres Hw1 Hw2.
    destruct (approvePairing_inr _ _ _ _ _ _ Hres) as (pending & Hp & _).
    unfold ApproveLocal.main.
    rewrite E, Hne, (get_own _ _ _ Hp), Hres, Hw1, Hw2. reflexivity.
Qed.

Lemma tool_uses_given_request_id_witness :
  ApproveLocal.requestId (SampleRun.invocation (Some " old ")) = Some "old"
  /\ exists events,
       ApproveLocal.main (SampleRun.invocation (Some " old ")) = (events, 0)
       /\ OkApproved "old" "dev-A" ∈ events.
Proof.
  destruct (tool_uses_given_request_id (SampleRun.invocation (Some " old "))
              " old " eq_refl ltac:(discriminate)) as (Hid & _ & Hrun).
  split; [exact Hid|]. eexists. split.
  - apply Hrun; reflexivity.
  - apply list_elem_of_further, list_elem_of_further, list_elem_of_here.
Defined.

(** The two ways of naming a request that is not pending: ["nope"] is
    reported as not found, ["toString"] ends the tool with the exception of
    [approvePairing]. Neither writes anything. *)
Example tool_request_id_not_pending :
  ApproveLocal.main (SampleRun.invocation (Some "nope"))
  = ([FatalNotFound "nope"], 1)
  /\ ApproveLocal.main (SampleRun.invocation (Some "toString"))
     = ([UncaughtException (ApprovalThrew (MissingDeviceId "toString"))], 1).
Proof. split; reflexivity. Qed.

End Tool.

(** ** More on the credential sync cycle *)

Section CredentialSyncMore.
Import JsString WatchCodexAuth.

Variable getTime : unknown -> option Z.

Lemma trimmedString_trimmed (v : option unknown) :
  trim (trimmedString v) = trimmedString v.
Proof.
  unfold trimmedString. destruct (Js.asString v); [apply trim_idempotent|].
  reflexivity.
Qed.

(** X17. The candidate profile: [buildProfile] returns none exactly when the
    access token or the refresh token is missing, not a string, or blank.
    Otherwise the candidate carries both tokens trimmed and not empty, the
    type ["oauth"], the provider ["openai-codex"], an account id only if the
    source has one that is a string, and as expiry one hour after
    [last_refresh] when that parses, and one hour after now when it does
    not. *)
Theorem buildProfile_spec (now : Z) (codex : CodexAuth) :
  match buildProfile getTime now codex with
  | None =>
      trimmedString (tokens codex ≫= access_token) = ""
      \/ trimmedString (tokens codex ≫= refresh_token) = ""
  | Some p =>
      exists a r,
        a = trimmedString (tokens codex ≫= access_token)
        /\ r = trimmedString (tokens codex ≫= refresh_token)
        /\ a <> "" /\ r <> "" /\ trim a = a /\ trim r = r
        /\ access p = Some (UStr a)
        /\ refresh p = Some (UStr r)
        /\ type p = Some (UStr "oauth")
        /\ provider p = Some (UStr "openai-codex")
        /\ accountId p = UStr <$> Js.asString (tokens codex ≫= account_id)
        /\ (forall v t, last_refresh codex = Some v -> Js.truthy (Some v) = true ->
              getTime v = Some t -> expires p = Some (UNum (t + 3600000)))
        /\ (last_refresh codex = None
            \/ (exists v, last_refresh codex = Some v
                          /\ (Js.truthy (Some v) = false \/ getTime v = None)) ->
            expires p = Some (UNum (now + 3600000)))
  end.
Proof.
  unfold buildProfile.
  destruct (truthy (trimmedString (tokens codex ≫= access_token))) eqn:Ha; simpl.
  2:{ left. apply truthy_false_iff. exact Ha. }
  destruct (truthy (trimmedString (tokens codex ≫= refresh_token))) eqn:Hr; simpl.
  2:{ right. apply truthy_false_iff. exact Hr. }
  apply truthy_true_iff in Ha, Hr.
  eexists _, _. split; [reflexivity|]. split; [reflexivity|].
  split; [exact Ha|]. split; [exact Hr|].
  split; [apply trimmedString_trimmed|]. split; [apply trimmedString_trimmed|].
  split; [reflexivity|]. split; [reflexivity|]. split; [reflexivity|].
  split; [reflexivity|]. split; [reflexivity|]. split.
  - intros v t -> Hv Ht. rewrite Hv, Ht. reflexivity.
  - intros [->|(v & -> & [Hv|Hv])]; [reflexivity| |].
    + rewrite Hv. reflexivity.
    + rewrite Hv.
      match goal with
      | |- context [if ?b then None else None] => destruct b
      end; reflexivity.
Qed.

(** X18. A cycle touches one profile: every profile stored under another id
    than ["openai-codex:default"] is the same after the cycle as before, and
    the source file is never changed. *)
Theorem syncOnce_keeps_other_profiles (now : Z) (fs : Files) (id : string) :
  id <> PROFILE_ID ->
  default ∅ (authStoreFile (syncOnce getTime now fs).2 ≫= profiles) !! id
  = default ∅ (authStoreFile fs ≫= profiles) !! id
  /\ codexAuthFile (syncOnce getTime now fs).2 = codexAuthFile fs.
Proof.
  intros Hid. unfold syncOnce.
  destruct (codexAuthFile fs) as [codex|] eqn:Hc; [|simpl; auto].
  destruct (buildProfile getTime now codex) as [next|]; [|simpl; auto].
  destruct (profilesEqual _ next); [simpl; auto|].
  simpl. split; [|reflexivity]. apply lookup_insert_ne. congruence.
Qed.

(** X19. What a cycle leaves behind. When the source is unreadable or gives
    no candidate, the cycle creates no directory, writes nothing and leaves
    both files as they are. Otherwise it creates the directory, writes at
    most once, and afterwards the profile stored under
    ["openai-codex:default"] equals the candidate field for field. *)
Theorem syncOnce_postcondition (now : Z) (fs : Files) :
  match codexAuthFile fs ≫= buildProfile getTime now with
  | None =>
      (syncOnce getTime now fs).2 = fs
      /\ (Mkdir ∉ (syncOnce getTime now fs).1)
      /\ writes (syncOnce getTime now fs).1 = []
  | Some next =>
      Mkdir ∈ (syncOnce getTime now fs).1
      /\ (length (writes (syncOnce getTime now fs).1) <= 1)%nat
      /\ profilesEqual
           (default ∅ (authStoreFile (syncOnce getTime now fs).2 ≫= profiles)
              !! PROFILE_ID) next = true
  end.
Proof.
  unfold syncOnce.
  destruct (codexAuthFile fs) as [codex|] eqn:Hc; simpl.
  2:{ split; [reflexivity|]. split; [|reflexivity].
      intros Hin%list_elem_of_singleton. discriminate. }
  destruct (buildProfile getTime now codex) as [next|] eqn:Hb; simpl.
  2:{ split; [reflexivity|]. split; [|reflexivity].
      intros Hin%list_elem_of_singleton. discriminate. }
  destruct (profilesEqual _ next) eqn:He; simpl.
  - split; [apply list_elem_of_here|]. split; [apply Nat.le_0_l | exact He].
  - split; [apply list_elem_of_here|]. split; [apply Nat.le_refl|].
    rewrite lookup_insert_eq. unfold profilesEqual.
    rewrite !strictEq_refl. reflexivity.
Qed.

End CredentialSyncMore.

Section CredentialSyncMoreExamples.
Import WatchCodexAuth.

Lemma syncOnce_keeps_other_profiles_witness :
  default ∅ (authStoreFile
               (syncOnce Sample.getTime 5
                  (Sample.files None (Some Sample.store7))).2 ≫= profiles)
    !! "anthropic:default"
  = default ∅ (authStoreFile (Sample.files None (Some Sample.store7)) ≫= profiles)
      !! "anthropic:default".
Proof.
  apply (syncOnce_keeps_other_profiles Sample.getTime 5
           (Sample.files None (Some Sample.store7)) "anthropic:default").
  discriminate.
Defined.

End CredentialSyncMoreExamples.

(** ** The file watcher *)

Section WatcherFacts.
Import WatchCodexAuth Watcher.

Variable getTime : unknown -> option Z.

Lemma clearTimeout_singleton (h : nat) : clearTimeout h [h] = [].
Proof.
  unfold clearTimeout. rewrite filter_cons, decide_False; [reflexivity|].
  intros H. apply H. reflexivity.
Qed.

Lemma clearTimeout_length (h : nat) (l : list nat) :
  (length (clearTimeout h l) <= length l)%nat.
Proof. apply length_filter. Qed.

(** At most one timer is pending, and it is the one in [debounceTimer]. *)
Lemma step_one_timer (st : State) (input : Input) :
  (timers st = []
   \/ exists h, timers st = [h] /\ debounceTimer st = Some h) ->
  (timers (step getTime st input).1 = []
   \/ exists h, timers (step getTime st input).1 = [h]
                /\ debounceTimer (step getTime st input).1 = Some h)
  /\ (length (syncs (step getTime st input).2)
      + length (timers (step getTime st input).1)
      <= length (timers st) + changes [input])%nat.
Proof.
  intros Hinv. unfold step.
  destruct (exited st).
  { simpl. split; [exact Hinv|]. apply Nat.le_add_r. }
  destruct input as [|h now|content|]; simpl.
  - destruct Hinv as [->|(h & -> & ->)]; simpl.
    + assert (E : forall o : option nat,
                match o with
                | Some h0 => (clearTimeout h0 [], [ClearTimeout h0])
                | None => ([], [])
                end.1 = []).
      { intros [h0|]; reflexivity. }
      rewrite E. split; [right; eexists; split; reflexivity|].
      destruct (debounceTimer st); apply Nat.le_refl.
    + rewrite clearTimeout_singleton.
      split; [right; eexists; split; reflexivity|]. simpl.
      apply le_S, Nat.le_refl.
  - destruct (decide (h ∈ timers st)) as [Hin|Hnotin]; simpl.
    + destruct Hinv as [E|(h' & E & _)]; rewrite E in *.
      * apply elem_of_nil in Hin. destruct Hin.
      * apply list_elem_of_singleton in Hin. subst h'.
        rewrite clearTimeout_singleton. simpl. split; [left; reflexivity|].
        apply Nat.le_refl.
    + split; [exact Hinv|]. rewrite Nat.add_0_r. apply Nat.le_refl.
  - split; [exact Hinv|]. rewrite Nat.add_0_r. apply Nat.le_refl.
  - destruct Hinv as [E|(h & E & Hd)].
    + rewrite E. destruct (debounceTimer st); simpl; split; auto;
        apply Nat.le_refl.
    + rewrite E, Hd. simpl. rewrite clearTimeout_singleton. simpl.
      split; [left; reflexivity|]. apply Nat.le_0_l.
Qed.

Lemma syncs_app (a b : list Action) : syncs (a ++ b) = syncs a ++ syncs b.
Proof. unfold syncs. apply omap_app. Qed.

Lemma run_one_timer (st : State) (inputs : list Input) :
  (timers st = []
   \/ exists h, timers st = [h] /\ debounceTimer st = Some h) ->
  (length (timers (run getTime st inputs).1) <= 1)%nat
  /\ (length (syncs (run getTime st inputs).2)
      + length (timers (run getTime st inputs).1)
      <= length (timers st) + changes inputs)%nat.
Proof.
  revert st. induction inputs as [|input rest IH]; intros st Hinv; simpl.
  - split; [|rewrite Nat.add_0_r; apply Nat.le_refl].
    destruct Hinv as [->|(h & -> & _)]; simpl; auto.
  - destruct (step_one_timer st input Hinv) as [Hinv' Hcount].
    destruct (IH _ Hinv') as [Hone Hrest].
    split; [exact Hone|].
    rewrite syncs_app, length_app.
    assert (Hch : changes (input :: rest) = (changes [input] + changes rest)%nat).
    { unfold changes. destruct input; reflexivity. }
    rewrite Hch.
    eapply Nat.le_trans.
    + rewrite <- Nat.add_assoc. apply Nat.add_le_mono_l. exact Hrest.
    + rewrite !Nat.add_assoc. apply Nat.add_le_mono_r. exact Hcount.
Qed.

(** X20. The debounce timer: however file changes, timer callbacks, source
    replacements and signals follow each other, at most one timer is pending
    after each of them, and [syncOnce] has run at most as many times as the
    listener has been called. *)
Theorem watcher_one_timer_and_no_extra_sync (fs : Files) (inputs : list Input) :
  (length (timers (run getTime (initial fs) inputs).1) <= 1)%nat
  /\ (length (syncs (run getTime (initial fs) inputs).2) <= changes inputs)%nat.
Proof.
  destruct (run_one_timer (initial fs) inputs (or_introl eq_refl)) as [H1 H2].
  split; [exact H1|].
  eapply Nat.le_trans; [apply Nat.le_add_r | exact H2].
Qed.

Lemma run_app (st : State) (l1 l2 : list Input) :
  run getTime st (l1 ++ l2)
  = ((run getTime (run getTime st l1).1 l2).1,
     (run getTime st l1).2 ++ (run getTime (run getTime st l1).1 l2).2).
Proof.
  revert st. induction l1 as [|input l1 IH]; intros st; simpl.
  - destruct (run getTime st l2). reflexivity.
  - rewrite IH. simpl. rewrite app_assoc. reflexivity.
Qed.

Lemma run_burst (st : State) (k : nat) :
  exited st = false ->
  timers st = match debounceTimer st with Some h => [h] | None => [] end ->
  debounceTimer (run getTime st (replicate (S k) FileChanged)).1
  = Some (nextHandle st + k)%nat
  /\ timers (run getTime st (replicate (S k) FileChanged)).1
     = [(nextHandle st + k)%nat]
  /\ exited (run getTime st (replicate (S k) FileChanged)).1 = false
  /\ files (run getTime st (replicate (S k) FileChanged)).1 = files st
  /\ syncs (run getTime st (replicate (S k) FileChanged)).2 = [].
Proof.
  revert st. induction k as [|k IH]; intros st Hex Htimers.
  - simpl. unfold step. rewrite Hex. simpl. rewrite Htimers, Nat.add_0_r.
    destruct (debounceTimer st); simpl; rewrite ?clearTimeout_singleton;
      repeat split; auto.
  - change (replicate (S (S k)) FileChanged)
      with (FileChanged :: replicate (S k) FileChanged).
    assert (Hst1 : timers (onFileChange st).1 = [nextHandle st]).
    { unfold onFileChange. simpl. rewrite Htimers.
      destruct (debounceTimer st); simpl; rewrite ?clearTimeout_singleton;
        reflexivity. }
    assert (Hstep : step getTime st FileChanged = onFileChange st).
    { unfold step. rewrite Hex. reflexivity. }
    cbn [run]. rewrite Hstep.
    destruct (IH (onFileChange st).1 Hex Hst1) as (H1 & H2 & H3 & H4 & H5).
    cbn [fst snd]. rewrite H1, H2, H3, H4, syncs_app, H5.
    simpl. rewrite Nat.add_succ_r.
    repeat split; try reflexivity.
    destruct (debounceTimer st); reflexivity.
Qed.

(** X21. Debouncing: after a burst of file changes, only the timer set by the
    last change is pending. When it fires, [syncOnce] runs once, on the
    files as they are then; the handle of a timer set by an earlier change
    of the burst runs nothing. *)
Theorem watcher_debounces_burst (fs : Files) (k h : nat) (now : Z) :
  let r := run getTime (initial fs)
             (replicate (S k) FileChanged ++ [TimerFired h now]) in
  syncs r.2 = (if decide (h = k) then [(syncOnce getTime now fs).1] else [])
  /\ files r.1 = (if decide (h = k) then (syncOnce getTime now fs).2 else fs)
  /\ timers r.1 = (if decide (h = k) then [] else [k]).
Proof.
  cbv zeta. rewrite run_app. cbn [fst snd]. rewrite syncs_app.
  destruct (run_burst (initial fs) k eq_refl eq_refl) as (H1 & H2 & H3 & H4 & H5).
  change (nextHandle (initial fs) + k)%nat with k in H1, H2.
  rewrite H5. cbn [run app fst snd]. unfold step. rewrite H3.
  rewrite H2. destruct (decide (h = k)) as [->|Hne].
  - rewrite decide_True by apply list_elem_of_here.
    unfold onTimeout. cbn [fst snd files timers]. rewrite H4.
    rewrite clearTimeout_singleton. repeat split; reflexivity.
  - rewrite decide_False by (rewrite list_elem_of_singleton; exact Hne).
    cbn [fst snd]. rewrite H2, H4. repeat split; reflexivity.
Qed.

End WatcherFacts.
